(** * GTO simulation engine: voice analysis, pressure engine, session gateway

    A shallow embedding of the real-time session engine of the backend:

    - [Voice]    : src/modules/gto-simulation/voice/voice-analysis.service.ts
    - [Pressure] : src/modules/gto-simulation/pressure/pressure.engine.ts
    - [Gateway]  : the WebSocket gateway of the simulation (GtoSimulationGateway)

    JavaScript numbers are idealised: the continuous signals (volume, pitch,
    scores, probabilities) are exact rationals [Q], the millisecond stamps and
    the counters are integers [Z].  The code computes the former in binary
    floating point, whose rounding the rationals do not follow; the
    theorems on them are therefore stated as integer and structural facts,
    ranges, and comparisons with a margin that this rounding does not reach.  Keyed
    [Map]s are [gmap]s, arrays are lists.  [Math.random] and [Date.now] are
    inputs of the functions that call them. *)

From Stdlib Require Import ZArith QArith Qround Qabs Lqa Lia.
From stdpp Require Import gmap strings list pretty.

Local Open Scope Z_scope.

(** ** JavaScript primitives used by the services *)

Module JS.

(** [Math.min] and [Math.max] on two numbers. *)
Definition Math_min (a b : Q) : Q := if Qle_bool a b then a else b.
Definition Math_max (a b : Q) : Q := if Qle_bool a b then b else a.

(** [a > b] and [a < b] on numbers. *)
Definition gt (a b : Q) : bool := negb (Qle_bool a b).
Definition lt (a b : Q) : bool := negb (Qle_bool b a).

#[export] Instance Qlt_decision (a b : Q) : Decision (a < b)%Q.
Proof.
  destruct (Qlt_le_dec a b) as [H | H]; [left; exact H | right].
  apply Qle_not_lt, H.
Defined.

(** [Math.floor] and [Math.round] (halves go up). *)
Definition Math_floor (x : Q) : Z := Qfloor x.
Definition Math_round (x : Q) : Z := Qfloor (x + (1 # 2)).

(** [x.toFixed(0)]: the sign, then the nearest integer of the magnitude,
    the larger one on a tie. *)
Definition toFixed0 (x : Q) : string :=
  if lt x 0 then String.app "-" (pretty (Math_round (- x)))
  else pretty (Math_round x).

(** [parseFloat(x.toFixed(3))]. *)
Definition toFixed3 (x : Q) : Q :=
  if lt x 0 then - (inject_Z (Math_round (- x * 1000)) / 1000)
  else inject_Z (Math_round (x * 1000)) / 1000.

(** [arr.slice(-n)]: the last [n] elements, all of them when there are fewer. *)
Definition slice_last {A} (n : nat) (l : list A) : list A :=
  drop (length l - n) l.

(** [arr.reduce((a, b) => a + b, 0)]. *)
Definition sum (arr : list Q) : Q := fold_left Qplus arr 0%Q.

(** [arr.join(sep)]. *)
Definition join (sep : string) (arr : list string) : string :=
  String.concat sep arr.

(** Truthiness of a string: non-empty. *)
Definition truthy (s : string) : bool :=
  match s with EmptyString => false | _ => true end.

(** An abrupt completion (a thrown exception) or a normal one. *)
Inductive Completion (A : Type) : Type :=
| Normal (a : A)
| Throw (name : string).
Arguments Normal {A} a.
Arguments Throw {A} name.

(** A value returned by [Math.random()]: a number of [0, 1). *)
Record Draw : Type := mkDraw {
  draw_val :> Q;
  draw_range : Qle_bool 0 draw_val && lt draw_val 1 = true
}.

End JS.

(** ** Voice analysis service *)

Module Voice.
Import JS.

Record VoiceFrame : Type := mkVoiceFrame {
  timestamp : Z;          (* ms since session start *)
  rmsVolume : Q;
  pitchHz : Q;
  pitchVariance : Q;
  speechRate : Q;
  pauseDurationMs : Z;
  fillerWordCount : Z;
  wordCount : Z;
  transcript : string
}.

Record RawValues : Type := mkRawValues {
  rv_avgPitch : Z;
  rv_avgVolume : Q;
  rv_avgSpeechRate : Z;
  rv_totalPauses : Z;
  rv_totalFillers : Z
}.

Record VoiceMetricsSnapshot : Type := mkSnapshot {
  ms_timestamp : Z;
  voiceTremor : Q;
  speechHesitation : Q;
  toneDrop : Q;
  volumeDrop : Q;
  ideaAbandonment : bool;
  confidenceScore : Q;
  rawValues : RawValues
}.

Inductive StepBackType : Type :=
| VOICE_TREMOR | HESITATION | IDEA_ABANDON | TONE_DROP | VOLUME_DROP
| CONFIDENCE_COLLAPSE.

Inductive Severity : Type := MILD | MODERATE | SEVERE.

Record StepBackEvent : Type := mkStepBack {
  sb_timestamp : Z;
  sb_type : StepBackType;
  sb_severity : Severity;
  confidenceBefore : Q;
  confidenceAfter : Q;
  sb_transcript : string;
  aiChallenge : string;
  description : string
}.

Record Baseline : Type := mkBaseline {
  bl_avgPitch : Q;
  bl_avgVolume : Q;
  bl_avgRate : Q
}.

(** The two private maps of the service. *)
Record VoiceAnalysisService : Type := mkVoice {
  sessionFrames : gmap string (list VoiceFrame);
  baselines : gmap string Baseline
}.

Definition empty_service : VoiceAnalysisService := mkVoice ∅ ∅.

Definition initSession (sessionId : string) (svc : VoiceAnalysisService)
  : VoiceAnalysisService :=
  mkVoice (<[sessionId := []]> (sessionFrames svc))
          (delete sessionId (baselines svc)).

Definition endSession (sessionId : string) (svc : VoiceAnalysisService)
  : VoiceAnalysisService :=
  mkVoice (delete sessionId (sessionFrames svc))
          (delete sessionId (baselines svc)).

(** [avg]: 0 on the empty array, else the sum over the length. *)
Definition avg (arr : list Q) : Q :=
  match arr with
  | [] => 0%Q
  | _ => (sum arr / inject_Z (Z.of_nat (length arr)))%Q
  end.

Definition calibrateBaseline (sessionId : string) (frames : list VoiceFrame)
    (svc : VoiceAnalysisService) : VoiceAnalysisService :=
  let baselineFrames := filter (λ f, timestamp f ≤ 30000) frames in
  if decide (length baselineFrames < 5)%nat then svc
  else
    let avgPitch := avg (map pitchHz baselineFrames) in
    let avgVolume := avg (map rmsVolume baselineFrames) in
    let avgRate := avg (map speechRate baselineFrames) in
    mkVoice (sessionFrames svc)
            (<[sessionId := mkBaseline avgPitch avgVolume avgRate]> (baselines svc)).

(** [computeMetrics]; [now] is the value [Date.now()] would give. *)
Definition computeMetrics (sessionId : string) (frames : list VoiceFrame)
    (now : Z) (svc : VoiceAnalysisService) : VoiceMetricsSnapshot :=
  let recent := slice_last 10 frames in
  let baseline := baselines svc !! sessionId in
  let avgPitch := avg (map pitchHz recent) in
  let avgVolume := avg (map rmsVolume recent) in
  let avgRate := avg (map speechRate recent) in
  let avgPitchVar := avg (map pitchVariance recent) in
  let totalPauses :=
    Z.of_nat (length (filter (λ f, 1500 < pauseDurationMs f) recent)) in
  let totalFillers := fold_left (λ sum f, sum + fillerWordCount f) recent 0 in
  let voiceTremor := Math_min 100 (avgPitchVar * 5) in
  let fillerScore := Z.min 50 (totalFillers * 10) in
  let pauseScore := Z.min 50 (totalPauses * 15) in
  let speechHesitation := Z.min 100 (fillerScore + pauseScore) in
  let toneDrop :=
    match baseline with
    | Some b =>
        if gt (bl_avgPitch b) 0 then
          let pitchDecline := ((bl_avgPitch b - avgPitch) / bl_avgPitch b * 100)%Q in
          Math_max 0 (Math_min 100 (pitchDecline * 3))
        else 0%Q
    | None => 0%Q
    end in
  let volumeDrop :=
    match baseline with
    | Some b =>
        if gt (bl_avgVolume b) 0 then
          let volDecline := ((bl_avgVolume b - avgVolume) / bl_avgVolume b * 100)%Q in
          Math_max 0 (Math_min 100 (volDecline * 3))
        else 0%Q
    | None => 0%Q
    end in
  let lastFrame := last recent in
  let ideaAbandonment :=
    match lastFrame with
    | Some f =>
        bool_decide (3000 < pauseDurationMs f)
        && bool_decide (wordCount f < 3)
        && gt volumeDrop 40
    | None => false
    end in
  let tremorPenalty := (voiceTremor * 0.2)%Q in
  let hesitationPenalty := (inject_Z speechHesitation * 0.25)%Q in
  let tonePenalty := (toneDrop * 0.15)%Q in
  let volumePenalty := (volumeDrop * 0.2)%Q in
  let abandonPenalty := if ideaAbandonment then 20%Q else 0%Q in
  let confidenceScore :=
    Math_max 0
      (Math_min 100
         (100 - tremorPenalty - hesitationPenalty - tonePenalty
          - volumePenalty - abandonPenalty)) in
  {| ms_timestamp :=
       match lastFrame with
       | Some f => if decide (timestamp f = 0) then now else timestamp f
       | None => now
       end;
     voiceTremor := inject_Z (Math_round voiceTremor);
     speechHesitation := inject_Z (Math_round (inject_Z speechHesitation));
     toneDrop := inject_Z (Math_round toneDrop);
     volumeDrop := inject_Z (Math_round volumeDrop);
     ideaAbandonment := ideaAbandonment;
     confidenceScore := inject_Z (Math_round confidenceScore);
     rawValues :=
       {| rv_avgPitch := Math_round avgPitch;
          rv_avgVolume := toFixed3 avgVolume;
          rv_avgSpeechRate := Math_round avgRate;
          rv_totalPauses := totalPauses;
          rv_totalFillers := totalFillers |} |}.

Definition processFrame (sessionId : string) (frame : VoiceFrame) (now : Z)
    (svc : VoiceAnalysisService) : VoiceAnalysisService * VoiceMetricsSnapshot :=
  let frames := default [] (sessionFrames svc !! sessionId) ++ [frame] in
  let svc1 := mkVoice (<[sessionId := frames]> (sessionFrames svc)) (baselines svc) in
  let svc2 :=
    if bool_decide (baselines svc1 !! sessionId = None)
       && bool_decide (30000 < timestamp frame)
       && bool_decide (10 < length frames)%nat
    then calibrateBaseline sessionId frames svc1
    else svc1 in
  (svc2, computeMetrics sessionId frames now svc2).

Definition getRecentTranscript (sessionId : string) (n : nat)
    (svc : VoiceAnalysisService) : string :=
  let frames := default [] (sessionFrames svc !! sessionId) in
  join " " (filter (λ s, truthy s = true) (map transcript (slice_last n frames))).

Definition detectStepBack (sessionId : string)
    (currentMetrics : VoiceMetricsSnapshot)
    (previousMetrics : option VoiceMetricsSnapshot)
    (aiChallenge : string) (svc : VoiceAnalysisService) : option StepBackEvent :=
  match previousMetrics with
  | None => None
  | Some previousMetrics =>
    let confidenceDrop :=
      (confidenceScore previousMetrics - confidenceScore currentMetrics)%Q in
    let transcript := getRecentTranscript sessionId 5 svc in
    let event ty sev desc :=
      {| sb_timestamp := ms_timestamp currentMetrics;
         sb_type := ty;
         sb_severity := sev;
         confidenceBefore := confidenceScore previousMetrics;
         confidenceAfter := confidenceScore currentMetrics;
         sb_transcript := transcript;
         aiChallenge := aiChallenge;
         description := desc |} in
    if gt confidenceDrop 25 then
      Some (event CONFIDENCE_COLLAPSE
              (if gt confidenceDrop 40 then SEVERE else MODERATE)
              (String.app "Confidence dropped by "
                 (String.app (toFixed0 confidenceDrop) " points after AI challenge")))
    else if ideaAbandonment currentMetrics then
      Some (event IDEA_ABANDON MODERATE
              "Candidate abandoned their idea after AI interruption")
    else if gt (voiceTremor currentMetrics) 70 then
      Some (event VOICE_TREMOR
              (if gt (voiceTremor currentMetrics) 85 then SEVERE else MODERATE)
              (String.app "Voice tremor detected ("
                 (String.app (toFixed0 (voiceTremor currentMetrics)) "/100)")))
    else if gt (volumeDrop currentMetrics) 60 then
      Some (event VOLUME_DROP
              (if gt (volumeDrop currentMetrics) 80 then SEVERE else MILD)
              (String.app "Volume dropped significantly ("
                 (String.app (toFixed0 (volumeDrop currentMetrics)) "/100)")))
    else if gt (toneDrop currentMetrics) 60 then
      Some (event TONE_DROP MILD
              (String.app "Pitch/tone declined ("
                 (String.app (toFixed0 (toneDrop currentMetrics)) "/100)")))
    else None
  end.

(** The kind and the severity of a detection result. *)
Definition verdict (r : option StepBackEvent) : option (StepBackType * Severity) :=
  option_map (λ e, (sb_type e, sb_severity e)) r.

End Voice.

(** ** Pressure engine *)

Module Pressure.
Import JS.
Import Voice.

Inductive InterruptionType : Type :=
| NONE | CHALLENGE | REDIRECT | DEMAND_CLARITY | DISMISS | PRESSURE_TEST.

Record InterruptionDecision : Type := mkDecision {
  shouldInterrupt : bool;
  interruptionType : InterruptionType;
  text : string;
  ttsText : string;
  pressureLevel : Z;
  tactic : string;
  waitBeforeMs : Z
}.

Record PressureState : Type := mkPressureState {
  currentLevel : Z;
  interruptionCount : Z;
  challengeCount : Z;
  lastInterruptionAt : Z;
  candidateStepBacks : Z;
  escalationTriggers : list string
}.

Record Category : Type := mkCategory {
  cat_type : InterruptionType;
  cat_templates : list string;
  cat_tactic : string
}.

(** The table [INTERRUPTIONS]; a level outside 1..5 has no entry. *)
Definition INTERRUPTIONS (level : Z) : option (list Category) :=
  match level with
  | 1 => Some
    [ mkCategory CHALLENGE
        [ "Wait. Explain that again — why did you choose this approach specifically?";
          "Hold on. How many people are in your group? You haven't accounted for everyone.";
          "Stop. What's your backup plan if this fails?" ]
        "Gentle probing — testing clarity of thought" ]
  | 2 => Some
    [ mkCategory DEMAND_CLARITY
        [ "That doesn't make sense. You said one thing earlier and now you're contradicting yourself. Which is it?";
          "I'm not convinced. Give me a concrete reason why your plan would work in the field.";
          "You're wasting time. Get to the point — what exactly is your plan?";
          "How many minutes do you think you have? You're already behind." ]
        "Time pressure + logical inconsistency attack";
      mkCategory REDIRECT
        [ "Forget that approach. What else can you do?";
          "That's been tried before and it failed. Think of something original." ]
        "Forcing candidate to abandon plan and think on feet" ]
  | 3 => Some
    [ mkCategory DISMISS
        [ "I don't think you've understood the problem at all. Start over.";
          "Your team is looking at you. Do you even have a plan or are you just talking?";
          "An officer needs to be decisive. You're not showing me that right now.";
          "Every second you hesitate, your group loses confidence in you." ]
        "Direct dismissal — testing emotional resilience";
      mkCategory PRESSURE_TEST
        [ "The enemy is advancing. You have 30 seconds. What do you do? NOW.";
          "Your subordinate just refused your order. The group is watching. React." ]
        "Extreme time pressure — chaos injection" ]
  | 4 => Some
    [ mkCategory PRESSURE_TEST
        [ "You just lost two team members. Your plan is falling apart. What now?";
          "I've heard better plans from cadets on their first day. Prove me wrong.";
          "If this were real, people would be in danger because of your indecisiveness. Do better.";
          "Stop. Look at me. Tell me ONE reason I should let you continue leading this task." ]
        "Personal challenge — testing core confidence";
      mkCategory DISMISS
        [ "You clearly haven't prepared for this. Why are you here?";
          "An officer leads from the front. Right now you're hiding behind words." ]
        "Identity-level challenge — maximum psychological pressure" ]
  | 5 => Some
    [ mkCategory PRESSURE_TEST
        [ "Fine. Your plan failed. Two casualties. The mission is compromised. NOW what?";
          "The entire group has lost faith in you. You have 10 seconds to win them back. Go.";
          "I'm pulling you from command. Unless you can show me RIGHT NOW that you deserve to lead.";
          "This is your last chance. One clear, decisive action. What is it?" ]
        "Maximum pressure — crisis simulation — pass/fail moment" ]
  | _ => None
  end.

(** The private map of the engine. *)
Abbreviation PressureEngine := (gmap string PressureState).

Definition initSession (sessionId : string) (states : PressureEngine)
  : PressureEngine :=
  <[sessionId := {| currentLevel := 1;
                    interruptionCount := 0;
                    challengeCount := 0;
                    lastInterruptionAt := 0;
                    candidateStepBacks := 0;
                    escalationTriggers := [] |}]> states.

Definition endSession (sessionId : string) (states : PressureEngine)
  : PressureEngine * option PressureState :=
  (delete sessionId states, states !! sessionId).

Definition getState (sessionId : string) (states : PressureEngine)
  : option PressureState :=
  states !! sessionId.

Definition noInterrupt (level : Z) : InterruptionDecision :=
  {| shouldInterrupt := false;
     interruptionType := NONE;
     text := "";
     ttsText := "";
     pressureLevel := level;
     tactic := "";
     waitBeforeMs := 0 |}.

Definition set_level (level : Z) (trigger : string) (state : PressureState)
  : PressureState :=
  {| currentLevel := level;
     interruptionCount := interruptionCount state;
     challengeCount := challengeCount state;
     lastInterruptionAt := lastInterruptionAt state;
     candidateStepBacks := candidateStepBacks state;
     escalationTriggers := escalationTriggers state ++ [trigger] |}.

Definition evaluateEscalation (state : PressureState)
    (metrics : VoiceMetricsSnapshot) : PressureState :=
  let maxLevel := 5 in
  if decide (maxLevel ≤ currentLevel state) then state
  else
    let state1 :=
      if bool_decide (Z.rem (interruptionCount state) 3 = 0)
         && bool_decide (0 < interruptionCount state)
      then
        let level := Z.min maxLevel (currentLevel state + 1) in
        set_level level
          (String.app "Escalated to L"
             (String.app (pretty level)
                (String.app " after "
                   (String.app (pretty (interruptionCount state)) " interruptions"))))
          state
      else state in
    if gt (confidenceScore metrics) 80
       && bool_decide (2 < interruptionCount state1)
    then
      let level := Z.min maxLevel (currentLevel state1 + 1) in
      set_level level
        (String.app "Escalated to L"
           (String.app (pretty level) " — candidate too confident"))
        state1
    else state1.

(** The values of the successive [Math.random()] calls of one evaluation;
    a call that is not reached leaves its value unused. *)
Record Draws : Type := mkDraws {
  d_fire : Draw;
  d_category : Draw;
  d_template : Draw;
  d_immediate : Draw;
  d_delay : Draw
}.

Definition evaluateInterruption (sessionId : string)
    (metrics : VoiceMetricsSnapshot) (elapsedMs : Z)
    (candidateWordsSinceLastInterrupt : Z) (rnd : Draws)
    (states : PressureEngine)
  : PressureEngine * Completion InterruptionDecision :=
  match states !! sessionId with
  | None =>
      (states, Normal {| shouldInterrupt := false; interruptionType := NONE;
                         text := ""; ttsText := ""; pressureLevel := 1;
                         tactic := ""; waitBeforeMs := 0 |})
  | Some state =>
    let timeSinceLastInterrupt := elapsedMs - lastInterruptionAt state in
    if decide (elapsedMs < 15000) then
      (states, Normal (noInterrupt (currentLevel state)))
    else
    let minGapMs := Z.max 8000 (25000 - currentLevel state * 4000) in
    if decide (timeSinceLastInterrupt < minGapMs) then
      (states, Normal (noInterrupt (currentLevel state)))
    else
    let minWords := Z.max 10 (40 - currentLevel state * 6) in
    if decide (candidateWordsSinceLastInterrupt < minWords) then
      (states, Normal (noInterrupt (currentLevel state)))
    else
    let probability := (0.3 + inject_Z (currentLevel state) * 0.12)%Q in
    let probability :=
      if gt (confidenceScore metrics) 70 then (probability + 0.15)%Q
      else probability in
    let probability :=
      if gt (confidenceScore metrics) 85 then (probability + 0.15)%Q
      else probability in
    if gt (d_fire rnd) probability then
      (states, Normal (noInterrupt (currentLevel state)))
    else
    let level := currentLevel state in
    match INTERRUPTIONS level with
    | None => (states, Throw "TypeError")
    | Some pool =>
      match pool !! Z.to_nat (Math_floor (d_category rnd * inject_Z (Z.of_nat (length pool)))) with
      | None => (states, Throw "TypeError")
      | Some category =>
        let text :=
          default ""
            (cat_templates category
               !! Z.to_nat (Math_floor (d_template rnd
                    * inject_Z (Z.of_nat (length (cat_templates category)))))) in
        let state1 :=
          {| currentLevel := currentLevel state;
             interruptionCount := interruptionCount state + 1;
             challengeCount := challengeCount state + 1;
             lastInterruptionAt := elapsedMs;
             candidateStepBacks := candidateStepBacks state;
             escalationTriggers := escalationTriggers state |} in
        let state2 := evaluateEscalation state1 metrics in
        (<[sessionId := state2]> states,
         Normal {| shouldInterrupt := true;
                   interruptionType := cat_type category;
                   text := text;
                   ttsText := text;
                   pressureLevel := currentLevel state2;
                   tactic := cat_tactic category;
                   waitBeforeMs :=
                     if lt (d_immediate rnd) 0.3 then 0
                     else Math_floor (d_delay rnd * 2000) |})
      end
    end
  end.

Definition recordStepBack (sessionId : string) (states : PressureEngine)
  : PressureEngine :=
  match states !! sessionId with
  | None => states
  | Some state =>
    let n := candidateStepBacks state + 1 in
    let state1 :=
      {| currentLevel := currentLevel state;
         interruptionCount := interruptionCount state;
         challengeCount := challengeCount state;
         lastInterruptionAt := lastInterruptionAt state;
         candidateStepBacks := n;
         escalationTriggers :=
           escalationTriggers state
           ++ [String.app "Step-back #" (String.app (pretty n) " detected")] |} in
    let state2 :=
      if bool_decide (3 ≤ candidateStepBacks state1)
         && bool_decide (2 < currentLevel state1)
      then
        {| currentLevel := Z.max 2 (currentLevel state1 - 1);
           interruptionCount := interruptionCount state1;
           challengeCount := challengeCount state1;
           lastInterruptionAt := lastInterruptionAt state1;
           candidateStepBacks := candidateStepBacks state1;
           escalationTriggers := escalationTriggers state1 |}
      else state1 in
    <[sessionId := state2]> states
  end.

End Pressure.

(** ** Simulation gateway

    The gateway is followed for one connected socket.  The world gathers the
    gateway's own state (the [timers] map and the two services), the socket
    object, and the collaborators the gateway calls: the store (the log of
    the calls made to it, each taken to succeed), the socket.io server (the
    log of the emissions handed to it), and the timers of the runtime with
    a millisecond clock.  A handler runs to completion once it is entered. *)

Module Gateway.
Import JS.
Import Voice.
Import Pressure.

Inductive TaskType : Type :=
| PGT | HGT | FGT | COMMAND_TASK | GPE | GD | LECTURETTE.

Inductive Difficulty : Type := STANDARD | HARD | EXTREME.

Record SimulationConfig : Type := mkConfig {
  taskType : TaskType;
  durationSec : Z;
  groupSize : Z;
  scenario : string;
  difficulty : Difficulty
}.

Record Intervention : Type := mkIntervention {
  iv_timestamp : Z;
  iv_text : string;
  iv_type : InterruptionType;
  iv_level : Z
}.

Record SimSocket : Type := mkSocket {
  userId : string;
  sessionId : option string;
  sessionStartMs : option Z;
  wordsSinceLastInterrupt : Z;
  previousMetrics : option VoiceMetricsSnapshot;
  lastAiChallenge : option string;
  stepBackEvents : list StepBackEvent;
  fullTranscript : list string;
  aiInterventions : list Intervention;
  rooms : list string
}.

(** What the officer says: the opening statement built from the
    configuration (its wording is not rendered here) or a fixed line. *)
Inductive SpeakText : Type :=
| OpeningStatement (config : SimulationConfig)
| Line (text : string).

Inductive SpeakType : Type := OPENING | TIME_WARNING | TIME_UP.

Inductive Emission : Type :=
| connected
| error (message : string)
| sim_ai_speak (text : SpeakText) (type : SpeakType) (pressureLevel : Z)
| sim_started (sessionId : string) (taskType : TaskType) (durationSec : Z)
| sim_metrics (metrics : VoiceMetricsSnapshot)
| sim_step_back (stepBack : StepBackEvent)
| sim_ai_interrupt (decision : InterruptionDecision)
| sim_ended (sessionId : string)
    (totalStepBacks totalInterruptions maxPressureLevel : Z)
| sim_tick (remaining elapsed : Z).

Inductive Target : Type :=
| ToClient
| ToRoom (room : string).

(** Calls to the session store. *)
Inductive DbOp : Type :=
| gTOTestSession_create (id userId : string) (config : SimulationConfig)
    (startedAt : Z)
| gTOTestSession_update (id : string) (completedAt : Z) (transcript : string)
    (stepBackEvents : list StepBackEvent)
    (aiInterventions : list Intervention)
    (pressureFinalState : option PressureState) (endReason : string)
| agentLog_create (userId : string) (stepBack : StepBackEvent)
    (pressureState : option PressureState).

(** A running [setInterval] of [startCountdown]: its handle, the variables
    its callback closes over, and the time it fires next. *)
Record IntervalTask : Type := mkInterval {
  it_handle : nat;
  it_sessionId : string;
  it_durationSec : Z;
  it_remaining : Z;
  it_due : Z
}.

(** A pending [setTimeout] of [handleVoiceFrame]. *)
Record TimeoutTask : Type := mkTimeout {
  to_due : Z;
  to_decision : InterruptionDecision
}.

Record World : Type := mkWorld {
  timers : gmap string nat;
  voiceAnalysis : VoiceAnalysisService;
  pressureEngine : PressureEngine;
  client : SimSocket;
  prisma : list DbOp;
  wire : list (Target * Emission);
  intervals : list IntervalTask;
  timeouts : list TimeoutTask;
  nextHandle : nat;
  now : Z
}.

Definition blank_socket : SimSocket :=
  mkSocket "" None None 0 None None [] [] [] [].

Definition boot (t0 : Z) : World :=
  mkWorld ∅ empty_service ∅ blank_socket [] [] [] [] 0 t0.

(** *** Field updates *)

Definition with_timers (x : gmap string nat) (w : World) : World :=
  mkWorld x (voiceAnalysis w) (pressureEngine w) (client w) (prisma w)
    (wire w) (intervals w) (timeouts w) (nextHandle w) (now w).
Definition with_voice (x : VoiceAnalysisService) (w : World) : World :=
  mkWorld (timers w) x (pressureEngine w) (client w) (prisma w)
    (wire w) (intervals w) (timeouts w) (nextHandle w) (now w).
Definition with_pressure (x : PressureEngine) (w : World) : World :=
  mkWorld (timers w) (voiceAnalysis w) x (client w) (prisma w)
    (wire w) (intervals w) (timeouts w) (nextHandle w) (now w).
Definition with_client (x : SimSocket) (w : World) : World :=
  mkWorld (timers w) (voiceAnalysis w) (pressureEngine w) x (prisma w)
    (wire w) (intervals w) (timeouts w) (nextHandle w) (now w).
Definition with_intervals (x : list IntervalTask) (w : World) : World :=
  mkWorld (timers w) (voiceAnalysis w) (pressureEngine w) (client w) (prisma w)
    (wire w) x (timeouts w) (nextHandle w) (now w).
Definition with_timeouts (x : list TimeoutTask) (w : World) : World :=
  mkWorld (timers w) (voiceAnalysis w) (pressureEngine w) (client w) (prisma w)
    (wire w) (intervals w) x (nextHandle w) (now w).
Definition with_now (x : Z) (w : World) : World :=
  mkWorld (timers w) (voiceAnalysis w) (pressureEngine w) (client w) (prisma w)
    (wire w) (intervals w) (timeouts w) (nextHandle w) x.

(** [client.emit(...)] and [this.server.to(room).emit(...)]. *)
Definition emit (e : Emission) (w : World) : World :=
  mkWorld (timers w) (voiceAnalysis w) (pressureEngine w) (client w) (prisma w)
    (wire w ++ [(ToClient, e)]) (intervals w) (timeouts w) (nextHandle w) (now w).
Definition broadcast (room : string) (e : Emission) (w : World) : World :=
  mkWorld (timers w) (voiceAnalysis w) (pressureEngine w) (client w) (prisma w)
    (wire w ++ [(ToRoom room, e)]) (intervals w) (timeouts w) (nextHandle w) (now w).

(** A call to the store. *)
Definition store (op : DbOp) (w : World) : World :=
  mkWorld (timers w) (voiceAnalysis w) (pressureEngine w) (client w)
    (prisma w ++ [op]) (wire w) (intervals w) (timeouts w) (nextHandle w) (now w).

(** [clearInterval(handle)]. *)
Definition clearInterval (h : nat) (w : World) : World :=
  with_intervals (filter (λ t, it_handle t ≠ h) (intervals w)) w.

(** [setTimeout(() => client.emit('sim:ai_interrupt', decision), ms)]. *)
Definition setTimeout (decision : InterruptionDecision) (ms : Z) (w : World)
  : World :=
  with_timeouts (timeouts w ++ [mkTimeout (now w + ms) decision]) w.

(** The session id of the socket when [client.sessionId] is truthy. *)
Definition session_of (c : SimSocket) : option string :=
  match sessionId c with
  | Some id => if truthy id then Some id else None
  | None => None
  end.

Definition room_of (sessionId : string) : string := String.app "sim:" sessionId.

(** *** Handlers *)

(** What [cleanup] leaves of the running intervals. *)
Definition cleared (id : string) (w : World) : list IntervalTask :=
  match timers w !! id with
  | Some h => filter (λ t, it_handle t ≠ h) (intervals w)
  | None => intervals w
  end.

(** [handleConnection]; [sub] is the subject of the verified token, [None]
    when there is no token or its verification throws (the socket is then
    closed by [client.disconnect()], which the runtime carries out). *)
Definition handleConnection (sub : option string) (w : World) : World :=
  match sub with
  | Some uid =>
      let c := client w in
      emit connected
        (with_client
           (mkSocket uid (sessionId c) (sessionStartMs c) 0
              (previousMetrics c) (lastAiChallenge c) [] [] [] (rooms c)) w)
  | None => emit (error "Authentication failed") w
  end.

Definition cleanup (sessionId : string) (w : World) : World :=
  match timers w !! sessionId with
  | Some interval => with_timers (delete sessionId (timers w)) (clearInterval interval w)
  | None => w
  end.

Definition handleDisconnect (w : World) : World :=
  match session_of (client w) with
  | Some id =>
      let w := cleanup id w in
      let w := with_voice (Voice.endSession id (voiceAnalysis w)) w in
      with_pressure (fst (Pressure.endSession id (pressureEngine w))) w
  | None => w
  end.

(** [data.reason || 'MANUAL'], [pressureState?.interruptionCount || 0] and
    [pressureState?.currentLevel || 1]. *)
Definition end_reason (reason : option string) : string :=
  match reason with
  | Some r => if truthy r then r else "MANUAL"
  | None => "MANUAL"
  end.
Definition total_interruptions (pressureState : option PressureState) : Z :=
  match pressureState with
  | Some st => interruptionCount st
  | None => 0
  end.
Definition max_pressure_level (pressureState : option PressureState) : Z :=
  match pressureState with
  | Some st => if decide (currentLevel st = 0) then 1 else currentLevel st
  | None => 1
  end.

Definition handleEnd (reason : option string) (w : World) : World :=
  match session_of (client w) with
  | None => w
  | Some id =>
      let w := cleanup id w in
      let '(engine, pressureState) := Pressure.endSession id (pressureEngine w) in
      let w := with_pressure engine w in
      let w := with_voice (Voice.endSession id (voiceAnalysis w)) w in
      let c := client w in
      let w :=
        store (gTOTestSession_update id (now w) (join " " (fullTranscript c))
                 (stepBackEvents c) (aiInterventions c) pressureState
                 (end_reason reason)) w in
      emit (sim_ended id
              (Z.of_nat (length (stepBackEvents c)))
              (total_interruptions pressureState)
              (max_pressure_level pressureState)) w
  end.

(** The body of the [setInterval] callback of [startCountdown], for the
    task [t] (which holds [remaining] before the decrement). *)
Definition countdown_callback (t : IntervalTask) (w : World) : World :=
  let remaining := it_remaining t - 1 in
  let sessionId := it_sessionId t in
  let durationSec := it_durationSec t in
  let w :=
    with_intervals
      (map (λ u, if decide (it_handle u = it_handle t)
                 then mkInterval (it_handle t) sessionId durationSec remaining
                        (it_due t + 1000)
                 else u) (intervals w)) w in
  let w :=
    if decide (Z.rem remaining 5 = 0)
    then broadcast (room_of sessionId) (sim_tick remaining (durationSec - remaining)) w
    else w in
  let w :=
    if decide (remaining = durationSec `div` 2)
    then emit (sim_ai_speak (Line "Half your time is gone. I expect to see results.")
                 TIME_WARNING 3) w
    else w in
  let w :=
    if decide (remaining = 60)
    then emit (sim_ai_speak (Line "One minute remaining. Wrap it up. NOW.")
                 TIME_WARNING 4) w
    else w in
  if decide (remaining ≤ 0) then
    let w := clearInterval (it_handle t) w in
    let w := with_timers (delete sessionId (timers w)) w in
    let w := emit (sim_ai_speak (Line "Time. Stop. Step back from the task area.")
                     TIME_UP 5) w in
    handleEnd (Some "TIMEOUT") w
  else w.

Definition startCountdown (sessionId : string) (durationSec : Z) (w : World)
  : World :=
  let interval := nextHandle w in
  mkWorld (<[sessionId := interval]> (timers w)) (voiceAnalysis w)
    (pressureEngine w) (client w) (prisma w) (wire w)
    (intervals w ++ [mkInterval interval sessionId durationSec durationSec
                       (now w + 1000)])
    (timeouts w) (S interval) (now w).

(** [handleStart]; [id] is the id the store gives to the created record. *)
Definition handleStart (config : SimulationConfig) (id : string) (w : World)
  : World :=
  let w := store (gTOTestSession_create id (userId (client w)) config (now w)) w in
  let c := client w in
  let w :=
    with_client
      (mkSocket (userId c) (Some id) (Some (now w)) (wordsSinceLastInterrupt c)
         (previousMetrics c) (lastAiChallenge c) (stepBackEvents c)
         (fullTranscript c) (aiInterventions c) (rooms c ++ [room_of id])) w in
  let w := with_voice (Voice.initSession id (voiceAnalysis w)) w in
  let w := with_pressure (Pressure.initSession id (pressureEngine w)) w in
  let w := startCountdown id (durationSec config) w in
  let w := emit (sim_ai_speak (OpeningStatement config) OPENING 1) w in
  emit (sim_started id (taskType config) (durationSec config)) w.

Definition handleVoiceFrame (frame : VoiceFrame) (rnd : Draws) (w : World)
  : World :=
  match session_of (client w) with
  | None => w
  | Some id =>
    let c := client w in
    let c :=
      if truthy (transcript frame) then
        mkSocket (userId c) (sessionId c) (sessionStartMs c)
          (wordsSinceLastInterrupt c + wordCount frame)
          (previousMetrics c) (lastAiChallenge c) (stepBackEvents c)
          (fullTranscript c ++ [transcript frame]) (aiInterventions c) (rooms c)
      else c in
    let w := with_client c w in
    let '(svc, metrics) := processFrame id frame (now w) (voiceAnalysis w) in
    let w := with_voice svc w in
    let w := emit (sim_metrics metrics) w in
    let stepBack :=
      detectStepBack id metrics (previousMetrics c)
        (default "" (lastAiChallenge c)) (voiceAnalysis w) in
    let w :=
      match stepBack with
      | Some sb =>
          let c := client w in
          let w :=
            with_client
              (mkSocket (userId c) (sessionId c) (sessionStartMs c)
                 (wordsSinceLastInterrupt c) (previousMetrics c)
                 (lastAiChallenge c) (stepBackEvents c ++ [sb])
                 (fullTranscript c) (aiInterventions c) (rooms c)) w in
          let w := with_pressure (recordStepBack id (pressureEngine w)) w in
          let w :=
            store (agentLog_create (userId c) sb
                     (getState id (pressureEngine w))) w in
          emit (sim_step_back sb) w
      | None => w
      end in
    let elapsed := now w - default 0 (sessionStartMs (client w)) in
    let '(engine, outcome) :=
      evaluateInterruption id metrics elapsed
        (wordsSinceLastInterrupt (client w)) rnd (pressureEngine w) in
    let w := with_pressure engine w in
    match outcome with
    | Throw _ => w
    | Normal decision =>
      let w :=
        if shouldInterrupt decision then
          let c := client w in
          let w :=
            with_client
              (mkSocket (userId c) (sessionId c) (sessionStartMs c) 0
                 (previousMetrics c) (Some (text decision)) (stepBackEvents c)
                 (fullTranscript c)
                 (aiInterventions c
                  ++ [mkIntervention elapsed (text decision)
                        (interruptionType decision) (pressureLevel decision)])
                 (rooms c)) w in
          if decide (0 < waitBeforeMs decision)
          then setTimeout decision (waitBeforeMs decision) w
          else emit (sim_ai_interrupt decision) w
        else w in
      let c := client w in
      with_client
        (mkSocket (userId c) (sessionId c) (sessionStartMs c)
           (wordsSinceLastInterrupt c) (Some metrics) (lastAiChallenge c)
           (stepBackEvents c) (fullTranscript c) (aiInterventions c) (rooms c)) w
    end
  end.

(** *** The timers of the runtime *)

(** Runs the callback of the interval [h] if it is still set and due. *)
Definition fire_interval (w : World) (h : nat) : World :=
  match List.find (λ t, bool_decide (it_handle t = h)) (intervals w) with
  | Some t => if decide (it_due t ≤ now w) then countdown_callback t w else w
  | None => w
  end.

(** Runs the due timeouts: each emits its interrupt and is gone. *)
Definition fire_timeouts (w : World) : World :=
  let due := filter (λ t, to_due t ≤ now w) (timeouts w) in
  let w := with_timeouts (filter (λ t, ¬ to_due t ≤ now w) (timeouts w)) w in
  fold_left (λ w t, emit (sim_ai_interrupt (to_decision t)) w) due w.

(** One millisecond passes. *)
Definition tick_ms (w : World) : World :=
  let w := with_now (now w + 1) w in
  let w := fold_left fire_interval (map it_handle (intervals w)) w in
  fire_timeouts w.

Fixpoint elapse (ms : nat) (w : World) : World :=
  match ms with
  | O => w
  | S k => elapse k (tick_ms w)
  end.

(** *** What happens to the gateway *)

Inductive Event : Type :=
| Connect (sub : option string)
| Start (config : SimulationConfig) (id : string)
| Frame (frame : VoiceFrame) (rnd : Draws)
| End (reason : option string)
| Disconnect
| Elapse (ms : nat).

Definition step (w : World) (e : Event) : World :=
  match e with
  | Connect sub => handleConnection sub w
  | Start config id => handleStart config id w
  | Frame frame rnd => handleVoiceFrame frame rnd w
  | End reason => handleEnd reason w
  | Disconnect => handleDisconnect w
  | Elapse ms => elapse ms w
  end.

Definition run (es : list Event) (w : World) : World := fold_left step es w.

(** *** Observations *)

Definition is_tick (x : Target * Emission) : bool :=
  match snd x with sim_tick _ _ => true | _ => false end.
Definition is_ended (x : Target * Emission) : bool :=
  match snd x with sim_ended _ _ _ _ => true | _ => false end.
Definition is_interrupt (x : Target * Emission) : bool :=
  match snd x with sim_ai_interrupt _ => true | _ => false end.
Definition is_update (op : DbOp) : bool :=
  match op with gTOTestSession_update _ _ _ _ _ _ _ => true | _ => false end.

Definition count {A} (p : A → bool) (l : list A) : nat :=
  length (List.filter p l).

(** The status of a session record after the calls of the log. *)
Inductive Status : Type := ACTIVE | COMPLETED.

Definition status_of (id : string) (log : list DbOp) : option Status :=
  fold_left
    (λ st op,
       match op with
       | gTOTestSession_create i _ _ _ =>
           if decide (i = id) then Some ACTIVE else st
       | gTOTestSession_update i _ _ _ _ _ _ =>
           if decide (i = id) then Some COMPLETED else st
       | agentLog_create _ _ _ => st
       end) log None.

End Gateway.

(** ** The analyzer's scores as the design document words them

    These definitions follow the wording of the design document, not the
    code; the properties below compare the two. *)

Module Design.
Import JS.
Import Voice.


Definition smaller (a b : Q) : Q := if Qlt_le_dec b a then b else a.

(** The mean of a list of numbers (0 for no numbers). *)
Definition mean (l : list Q) : Q :=
  (fold_right Qplus 0 l / inject_Z (Z.of_nat (length l)))%Q.


(** tremor = min(100, avgPitchVariance × 5). *)
Definition tremor (recent : list VoiceFrame) : Q :=
  smaller 100 (mean (map pitchVariance recent) * 5).








End Design.

(** ** Frame sequences used as examples *)

Module Samples.
Import JS.
Import Voice.

(** Feeds the frames of a list to [processFrame], in order. *)
Definition feed (id : string) (frames : list VoiceFrame) (now : Z)
    (svc : VoiceAnalysisService) : VoiceAnalysisService :=
  fold_left (λ s f, fst (processFrame id f now s)) frames svc.

(** A silent frame, and a frame with one filler word. *)
Definition plain (t : Z) (pitch : Q) : VoiceFrame :=
  mkVoiceFrame t (1 # 2) pitch 0 120 0 0 5 "go".
Definition one_filler : VoiceFrame :=
  mkVoiceFrame 1000 (1 # 2) 200 0 120 0 1 5 "um".

(** A snapshot with the given confidence, tremor, volume drop and tone
    drop. *)
Definition snapshot (confidence tremor volume tone : Q) : VoiceMetricsSnapshot :=
  mkSnapshot 5000 tremor 0 tone volume false confidence
    (mkRawValues 200 (1 # 2) 120 0 0).

(** [n] frames one second apart, the first at [t]. *)
Fixpoint each_second (n : nat) (t : Z) (pitch : Q) : list VoiceFrame :=
  match n with
  | O => []
  | S k => plain t pitch :: each_second k (t + 1000) pitch
  end.

End Samples.

(** ** The pressure engine as a machine

    The calls a client of the engine can make, and their effect on the
    engine's map of states. *)

Module Machine.
Import JS.
Import Voice.
Import Pressure.

Inductive Op : Type :=
| Init (id : string)
| Finish (id : string)
| Evaluate (id : string) (metrics : VoiceMetricsSnapshot)
    (elapsedMs words : Z) (rnd : Draws)
| StepBack (id : string)
| Get (id : string).

Definition apply (states : PressureEngine) (op : Op) : PressureEngine :=
  match op with
  | Init id => initSession id states
  | Finish id => fst (endSession id states)
  | Evaluate id metrics elapsedMs words rnd =>
      fst (evaluateInterruption id metrics elapsedMs words rnd states)
  | StepBack id => recordStepBack id states
  | Get id => states
  end.

Definition run (ops : list Op) (states : PressureEngine) : PressureEngine :=
  fold_left apply ops states.

(** The calls that keep the session [id] going: all but its own
    initialisation and end. *)
Definition within (id : string) (op : Op) : Prop :=
  op ≠ Init id ∧ op ≠ Finish id.

(** The state of a session after one call that keeps it going. *)
Inductive moved (s : PressureState) : Op → PressureState → Prop :=
| moved_not (op : Op) : moved s op s
| moved_interrupt id m elapsedMs words rnd :
    moved s (Evaluate id m elapsedMs words rnd)
      (evaluateEscalation
         (mkPressureState (currentLevel s) (interruptionCount s + 1)
            (challengeCount s + 1) elapsedMs (candidateStepBacks s)
            (escalationTriggers s)) m)
| moved_stepback id s' :
    candidateStepBacks s' = candidateStepBacks s + 1 →
    interruptionCount s' = interruptionCount s →
    challengeCount s' = challengeCount s →
    currentLevel s' =
      (if decide (3 ≤ candidateStepBacks s' ∧ 2 < currentLevel s)
       then currentLevel s - 1 else currentLevel s) →
    moved s (StepBack id) s'.

(** Every session has a level from 1 to 5. *)
Definition levels_ok (states : PressureEngine) : Prop :=
  map_Forall (λ _ s, 1 ≤ currentLevel s ≤ 5) states.

End Machine.

(** ** Sessions used as examples *)

Module Scenarios.
Import JS.
Import Voice.
Import Pressure.
Import Gateway.

Definition ten_seconds : SimulationConfig := mkConfig PGT 10 4 "river" STANDARD.
Definition five_minutes : SimulationConfig := mkConfig GD 300 4 "river" HARD.

(** A connected socket on a new gateway. *)
Definition ready : World :=
  handleConnection (Some "user") (boot 1700000000000).

Definition seconds (n : Z) : nat := Z.to_nat (n * 1000).

(** Draws that fire an interruption spoken after 1000 ms. *)
Definition delayed : Draws :=
  mkDraws (mkDraw 0 eq_refl) (mkDraw 0 eq_refl) (mkDraw 0 eq_refl)
          (mkDraw (1 # 2) eq_refl) (mkDraw (1 # 2) eq_refl).

(** A frame that brings 40 words, 21 s into the session. *)
Definition speech : VoiceFrame :=
  mkVoiceFrame 21000 (1 # 2) 200 0 120 0 0 40 "we build the bridge first".

(** A session of ten seconds just started. *)
Definition started : World := handleStart ten_seconds "s" ready.

(** A session in which an interruption has just been scheduled, and the
    timeout that holds it. *)
Definition scheduled : World :=
  run [Start five_minutes "s"; Elapse (seconds 21); Frame speech delayed] ready.
Definition pending_interrupt : TimeoutTask :=
  default (mkTimeout 0 (noInterrupt 1)) (head (timeouts scheduled)).

(** An engine with one session at level 4 after two step-backs. *)
Definition strained : PressureEngine :=
  {[ "s" := mkPressureState 4 5 5 0 2 [] ]}.

End Scenarios.

(** ** Relations between worlds *)

Module Traces.
Import JS.
Import Pressure.
Import Gateway.

(** [w'] comes after [w] with the clock untouched: it has the pending
    timeouts and the emissions of [w], and maybe more. *)
Definition grows (w w' : World) : Prop :=
  now w' = now w
  ∧ timeouts w `prefix_of` timeouts w'
  ∧ wire w `prefix_of` wire w'.

(** The emission of a timeout that fires. *)
Definition interrupt_of (t : TimeoutTask) : Target * Emission :=
  (ToClient, sim_ai_interrupt (to_decision t)).

(** [x] was emitted between [w] and [w']. *)
Definition emitted_since (w w' : World) (x : Target * Emission) : Prop :=
  ∃ before after, wire w' = wire w ++ before ++ x :: after.

(** The timeout [t], pending in [w], is in [w'] still pending and not yet
    due, or due and its interrupt emitted since [w]. *)
Definition pending_or_sent (t : TimeoutTask) (w w' : World) : Prop :=
  wire w `prefix_of` wire w'
  ∧ ((now w' < to_due t ∧ t ∈ timeouts w')
     ∨ (to_due t ≤ now w'
        ∧ emitted_since w w' (ToClient, sim_ai_interrupt (to_decision t)))).

End Traces.

(** ** The countdown of a session *)

Module Countdown.
Import JS.
Import Pressure.
Import Gateway.

(** What the interval callback emits when the remaining time becomes [r],
    before it looks at the end of the time. *)
Definition tick_emissions (id : string) (d r : Z) : list (Target * Emission) :=
  (if decide (Z.rem r 5 = 0)
   then [(ToRoom (room_of id), sim_tick r (d - r))] else [])
  ++ (if decide (r = d `div` 2)
      then [(ToClient,
             sim_ai_speak (Line "Half your time is gone. I expect to see results.")
               TIME_WARNING 3)]
      else [])
  ++ (if decide (r = 60)
      then [(ToClient,
             sim_ai_speak (Line "One minute remaining. Wrap it up. NOW.")
               TIME_WARNING 4)]
      else []).

(** The emissions of [j] seconds of countdown that start from [r]. *)
Fixpoint ticks (id : string) (d r : Z) (j : nat) : list (Target * Emission) :=
  match j with
  | O => []
  | S k => tick_emissions id d (r - 1) ++ ticks id d (r - 1) k
  end.

Definition time_up : Target * Emission :=
  (ToClient,
   sim_ai_speak (Line "Time. Stop. Step back from the task area.") TIME_UP 5).

(** The update of the record of [id] with the reason TIMEOUT. *)
Definition is_timeout_update (id : string) (op : DbOp) : bool :=
  match op with
  | gTOTestSession_update i _ _ _ _ _ r =>
      bool_decide (i = id) && bool_decide (r = "TIMEOUT")
  | _ => false
  end.

(** The client sends voice frames only. *)
Definition left_alone (e : Event) : Prop :=
  match e with
  | Frame _ _ | Elapse _ => True
  | _ => False
  end.

(** The milliseconds that pass during a sequence of events. *)
Definition duration (es : list Event) : Z :=
  fold_right (λ e t, match e with Elapse n => Z.of_nat n + t | _ => t end) 0 es.

(** Where a countdown of [k] seconds is: [j] whole seconds and [m]
    milliseconds after its start, or over. *)
Inductive Phase : Type :=
| Running (j : nat) (m : Z)
| Over.

Definition next (k : nat) (ph : Phase) : Phase :=
  match ph with
  | Running j m =>
      if decide (m = 999)
      then if decide (S j = k) then Over else Running (S j) 0
      else Running j (m + 1)
  | Over => Over
  end.

(** The world [w] is in the phase [ph] of the countdown that the world [w0]
    started for the session [id], with the interval [h] and [k] seconds. *)
Definition in_phase (id : string) (h : nat) (k : nat) (w0 : World)
    (ph : Phase) (w : World) : Prop :=
  session_of (client w) = Some id
  ∧ match ph with
    | Running j m =>
        (j < k)%nat ∧ 0 ≤ m < 1000
        ∧ now w = now w0 + 1000 * Z.of_nat j + m
        ∧ intervals w
          = [mkInterval h id (Z.of_nat k) (Z.of_nat k - Z.of_nat j)
               (now w0 + 1000 * Z.of_nat j + 1000)]
        ∧ List.filter is_tick (wire w)
          = List.filter is_tick (wire w0)
            ++ List.filter is_tick (ticks id (Z.of_nat k) (Z.of_nat k) j)
        ∧ count is_ended (wire w) = count is_ended (wire w0)
        ∧ count is_update (prisma w) = count is_update (prisma w0)
        ∧ count (is_timeout_update id) (prisma w)
          = count (is_timeout_update id) (prisma w0)
    | Over =>
        now w0 + 1000 * Z.of_nat k ≤ now w
        ∧ intervals w = []
        ∧ List.filter is_tick (wire w)
          = List.filter is_tick (wire w0)
            ++ List.filter is_tick (ticks id (Z.of_nat k) (Z.of_nat k) k)
        ∧ count is_ended (wire w) = S (count is_ended (wire w0))
        ∧ count is_update (prisma w) = S (count is_update (prisma w0))
        ∧ count (is_timeout_update id) (prisma w)
          = S (count (is_timeout_update id) (prisma w0))
    end.

(** What a handler or a timeout leaves untouched of a countdown: the clock,
    the intervals, the session of the socket, the ticks and the numbers of
    [sim:ended] emissions and of record updates. *)
Definition same_countdown (id : string) (w w' : World) : Prop :=
  now w' = now w ∧ intervals w' = intervals w
  ∧ session_of (client w') = session_of (client w)
  ∧ List.filter is_tick (wire w') = List.filter is_tick (wire w)
  ∧ count is_ended (wire w') = count is_ended (wire w)
  ∧ count is_update (prisma w') = count is_update (prisma w)
  ∧ count (is_timeout_update id) (prisma w') = count (is_timeout_update id) (prisma w).

End Countdown.

(** ** The conditions of an interruption *)

Module Eligibility.
Import JS.
Import Voice.
Import Pressure.
Import Machine.

(** The least time between two interruptions and the least number of words
    before one, at a level. *)
Definition min_gap (level : Z) : Z := Z.max 8000 (25000 - level * 4000).
Definition min_words (level : Z) : Z := Z.max 10 (40 - level * 6).

(** The probability of an interruption at a level, for a confidence score. *)
Definition interrupt_probability (level : Z) (confidence : Q) : Q :=
  (0.3 + inject_Z level * 0.12
   + (if gt confidence 70 then 0.15 else 0)
   + (if gt confidence 85 then 0.15 else 0))%Q.

(** The time, gap and word conditions of an interruption. *)
Definition eligible (s : PressureState) (elapsedMs words : Z) : Prop :=
  15000 ≤ elapsedMs
  ∧ min_gap (currentLevel s) ≤ elapsedMs - lastInterruptionAt s
  ∧ min_words (currentLevel s) ≤ words.

(** The state of a session in which an interruption has just been counted,
    before the escalation. *)
Definition counted (s : PressureState) (elapsedMs : Z) : PressureState :=
  mkPressureState (currentLevel s) (interruptionCount s + 1)
    (challengeCount s + 1) elapsedMs (candidateStepBacks s)
    (escalationTriggers s).

(** The decision is one the table offers at the level: a category of the
    pool with one of its templates. *)
Definition offered (level : Z) (d : InterruptionDecision) : Prop :=
  ∃ pool category,
    INTERRUPTIONS level = Some pool ∧ category ∈ pool
    ∧ interruptionType d = cat_type category
    ∧ tactic d = cat_tactic category
    ∧ text d ∈ cat_templates category
    ∧ ttsText d = text d.

(** A pool whose categories have a type other than [NONE] and at least one
    template, none of them empty, and which has at least one category. *)
Definition sound_category (c : Category) : bool :=
  match cat_type c with NONE => false | _ => true end
  && match cat_templates c with [] => false | _ => true end
  && forallb truthy (cat_templates c).
Definition sound_pool (pool : list Category) : bool :=
  match pool with [] => false | _ => true end && forallb sound_category pool.

(** The two escalation triggers, as the number of those that hold. *)
Definition every_third (count : Z) : Z :=
  if decide (Z.rem count 3 = 0 ∧ 0 < count) then 1 else 0.
Definition too_confident (count : Z) (confidence : Q) : Z :=
  if decide ((80 < confidence)%Q ∧ 2 < count) then 1 else 0.

(** The session a call is about. *)
Definition session (op : Op) : string :=
  match op with
  | Init id | Finish id | StepBack id | Get id => id
  | Evaluate id _ _ _ _ => id
  end.

(** The number of step-backs recorded for [id] by a sequence of calls. *)
Definition records_step_back (id : string) (op : Op) : bool :=
  match op with
  | StepBack i => bool_decide (i = id)
  | _ => false
  end.
Definition step_backs (id : string) (ops : list Op) : Z :=
  Z.of_nat (length (List.filter (records_step_back id) ops)).

(** The number of evaluations for [id] in a sequence of calls. *)
Definition evaluates (id : string) (op : Op) : bool :=
  match op with
  | Evaluate i _ _ _ _ => bool_decide (i = id)
  | _ => false
  end.
Definition evaluations (id : string) (ops : list Op) : Z :=
  Z.of_nat (length (List.filter (evaluates id) ops)).

End Eligibility.

(** ** Windows of frames *)

Module Windows.
Import JS.
Import Voice.

(** The frames the service holds for a session. *)
Definition window (id : string) (svc : VoiceAnalysisService) : list VoiceFrame :=
  default [] (sessionFrames svc !! id).



End Windows.

(** ** The stages of a voice frame *)

Module Pipeline.
Import JS.
Import Voice.
Import Pressure.
Import Gateway.

(** The socket after the transcript of a frame has been tracked. *)
Definition heard (frame : VoiceFrame) (c : SimSocket) : SimSocket :=
  if truthy (transcript frame) then
    mkSocket (userId c) (sessionId c) (sessionStartMs c)
      (wordsSinceLastInterrupt c + wordCount frame)
      (previousMetrics c) (lastAiChallenge c) (stepBackEvents c)
      (fullTranscript c ++ [transcript frame]) (aiInterventions c) (rooms c)
  else c.

(** The snapshot of a frame and the step-back it is found to be. *)
Definition analysed (id : string) (frame : VoiceFrame) (w : World)
  : VoiceAnalysisService * VoiceMetricsSnapshot :=
  processFrame id frame (now w) (voiceAnalysis w).
Definition judged (id : string) (frame : VoiceFrame) (w : World)
  : option StepBackEvent :=
  detectStepBack id (snd (analysed id frame w)) (previousMetrics (client w))
    (default "" (lastAiChallenge (client w))) (fst (analysed id frame w)).

(** The engine after the step-back, if any, has been recorded, and the
    outcome of the evaluation that follows. *)
Definition recorded (id : string) (frame : VoiceFrame) (w : World)
  : PressureEngine :=
  match judged id frame w with
  | Some _ => recordStepBack id (pressureEngine w)
  | None => pressureEngine w
  end.
Definition since_start (w : World) : Z :=
  now w - default 0 (sessionStartMs (client w)).
Definition evaluated (id : string) (frame : VoiceFrame) (rnd : Draws) (w : World)
  : PressureEngine * Completion InterruptionDecision :=
  evaluateInterruption id (snd (analysed id frame w)) (since_start w)
    (wordsSinceLastInterrupt (heard frame (client w))) rnd (recorded id frame w).

(** The interruption a frame leads to, spoken at once or after a delay. *)
Definition interruption (id : string) (frame : VoiceFrame) (rnd : Draws)
    (w : World) : option InterruptionDecision :=
  match snd (evaluated id frame rnd w) with
  | Normal d => if shouldInterrupt d then Some d else None
  | Throw _ => None
  end.
Definition spoken_now (d : option InterruptionDecision) : list InterruptionDecision :=
  match d with
  | Some d => if decide (0 < waitBeforeMs d) then [] else [d]
  | None => []
  end.
Definition spoken_later (t : Z) (d : option InterruptionDecision) : list TimeoutTask :=
  match d with
  | Some d =>
      if decide (0 < waitBeforeMs d) then [mkTimeout (t + waitBeforeMs d) d] else []
  | None => []
  end.

Definition to_client (e : Emission) : Target * Emission := (ToClient, e).

(** The socket and the world after a frame of the session [id]. *)
Definition socket_after (id : string) (frame : VoiceFrame) (rnd : Draws)
    (w : World) : SimSocket :=
  let c := heard frame (client w) in
  let d := interruption id frame rnd w in
  mkSocket (userId (client w)) (sessionId (client w)) (sessionStartMs (client w))
    (match d with Some _ => 0 | None => wordsSinceLastInterrupt c end)
    (match snd (evaluated id frame rnd w) with
     | Normal _ => Some (snd (analysed id frame w))
     | Throw _ => previousMetrics (client w)
     end)
    (match d with Some d => Some (text d) | None => lastAiChallenge (client w) end)
    (stepBackEvents (client w) ++ option_list (judged id frame w))
    (fullTranscript c)
    (aiInterventions (client w)
     ++ map (λ d, mkIntervention (since_start w) (text d) (interruptionType d)
                    (pressureLevel d)) (option_list d))
    (rooms (client w)).
Definition after_frame (id : string) (frame : VoiceFrame) (rnd : Draws)
    (w : World) : World :=
  let sb := judged id frame w in
  let d := interruption id frame rnd w in
  mkWorld (timers w) (fst (analysed id frame w)) (fst (evaluated id frame rnd w))
    (socket_after id frame rnd w)
    (prisma w
     ++ map (λ e, agentLog_create (userId (client w)) e (recorded id frame w !! id))
          (option_list sb))
    (wire w ++ [to_client (sim_metrics (snd (analysed id frame w)))]
     ++ map (λ e, to_client (sim_step_back e)) (option_list sb)
     ++ map (λ d, to_client (sim_ai_interrupt d)) (spoken_now d))
    (intervals w)
    (timeouts w ++ spoken_later (now w) d)
    (nextHandle w) (now w).

(** The engine of [w'] is reached from the engine of [w] by calls of the
    engine. *)
Definition driven (w w' : World) : Prop :=
  ∃ ops, pressureEngine w' = Machine.run ops (pressureEngine w).

End Pipeline.

(** ** Sessions that follow one another on a socket *)

Module Succession.
Import JS.
Import Voice.
Import Pressure.
Import Gateway.

(** The logs of the socket of [w] are kept in [w'], maybe with more. *)
Definition keeps_logs (w w' : World) : Prop :=
  fullTranscript (client w) `prefix_of` fullTranscript (client w')
  ∧ stepBackEvents (client w) `prefix_of` stepBackEvents (client w')
  ∧ aiInterventions (client w) `prefix_of` aiInterventions (client w').

(** A call to the store that creates or updates the record [id]. *)
Definition about (id : string) (op : DbOp) : bool :=
  match op with
  | gTOTestSession_create i _ _ _ => bool_decide (i = id)
  | gTOTestSession_update i _ _ _ _ _ _ => bool_decide (i = id)
  | agentLog_create _ _ _ => false
  end.

(** From [w] to [w'] the socket has not come back to the session [id] and
    the record [id] has not been written. *)
Definition away (id : string) (w w' : World) : Prop :=
  sessionId (client w') ≠ Some id
  ∧ ∃ added, prisma w' = prisma w ++ added
             ∧ Forall (λ op, about id op = false) added.

(** The update that ends the session of the socket with the logs that the
    socket holds. *)
Definition end_update (c : SimSocket) (op : DbOp) : Prop :=
  ∃ id t st reason,
    session_of c = Some id
    ∧ op = gTOTestSession_update id t (join " " (fullTranscript c))
             (stepBackEvents c) (aiInterventions c) st reason.

(** What the timers do to the socket and the store. *)
Definition written (w w' : World) : Prop :=
  client w' = client w
  ∧ ∃ added, prisma w' = prisma w ++ added ∧ Forall (end_update (client w)) added.


Definition not_connect (e : Event) : Prop :=
  match e with Connect _ => False | _ => True end.
Definition not_start (id : string) (e : Event) : Prop :=
  match e with Start _ i => i ≠ id | _ => True end.

End Succession.

(** ** Post-test analysis

    The rule-based part of the analysis and its merge with the reply of the
    language model.  Of the session data only the fields that the rules
    read are kept (the step-back events, the interventions, the final
    pressure state and the duration); the texts of the breakdowns, of the
    corrected responses and of the mini-class are not rendered, and the
    reply of the model is what [generateAiAnalysis] returned: nothing, or
    an object of which each score may be missing. *)

Module Analysis.
Import JS.
Import Voice.
Import Pressure.
Import Gateway.

Inductive NodePhase : Type :=
| PLANNING | EXECUTION | RECOVERY | LEADERSHIP_MOMENT | FAILURE_POINT.

Record ExecutionNode : Type := mkNode {
  en_id : Z;
  en_timestamp : Z;
  en_phase : NodePhase;
  en_label : string;
  confidenceAt : Q;
  pressureLevelAt : Z;
  wasStepBack : bool;
  children : list Z
}.

Record SessionData : Type := mkSessionData {
  sd_stepBackEvents : list StepBackEvent;
  sd_aiInterventions : list Intervention;
  sd_pressureState : PressureState;
  sd_durationSec : Z
}.

Record Scores : Type := mkScores {
  overall : Z;
  commandPresence : Z;
  voiceProjection : Z;
  planningStructure : Z;
  interruptionHandling : Z
}.

Record StepBackBreakdown : Type := mkBreakdown {
  bd_event : StepBackEvent;
  olqImpacted : list string
}.

Record LocalAnalysis : Type := mkLocal {
  scores : Scores;
  stepBackBreakdowns : list StepBackBreakdown;
  executionNodes : list ExecutionNode
}.

(** The name of a step-back type, as it stands in a label. *)
Definition type_name (ty : StepBackType) : string :=
  match ty with
  | VOICE_TREMOR => "VOICE_TREMOR"
  | HESITATION => "HESITATION"
  | IDEA_ABANDON => "IDEA_ABANDON"
  | TONE_DROP => "TONE_DROP"
  | VOLUME_DROP => "VOLUME_DROP"
  | CONFIDENCE_COLLAPSE => "CONFIDENCE_COLLAPSE"
  end.

Definition getImpactedOlqs (event : StepBackEvent) : list string :=
  match sb_type event with
  | VOICE_TREMOR => ["Self Confidence"; "Courage"; "Stamina"]
  | HESITATION => ["Speed of Decision"; "Self Confidence"; "Effective Intelligence"]
  | IDEA_ABANDON => ["Determination"; "Self Confidence"; "Initiative"]
  | TONE_DROP => ["Power of Expression"; "Self Confidence"; "Ability to Influence"]
  | VOLUME_DROP => ["Power of Expression"; "Courage"; "Self Confidence"]
  | CONFIDENCE_COLLAPSE => ["Self Confidence"; "Courage"; "Determination"; "Stamina"]
  end.

Definition is_volume_issue (s : StepBackEvent) : bool :=
  match sb_type s with VOLUME_DROP | TONE_DROP => true | _ => false end.
Definition is_idea_abandon (s : StepBackEvent) : bool :=
  match sb_type s with IDEA_ABANDON => true | _ => false end.
Definition is_hesitation (s : StepBackEvent) : bool :=
  match sb_type s with HESITATION => true | _ => false end.

(** The node that the loop of [generateLocalAnalysis] pushes for an event
    when the counter is [nodeId]. *)
Definition step_back_node (nodeId : Z) (event : StepBackEvent) : ExecutionNode :=
  {| en_id := nodeId;
     en_timestamp := sb_timestamp event;
     en_phase := FAILURE_POINT;
     en_label := String.app "Step-back: " (type_name (sb_type event));
     confidenceAt := confidenceAfter event;
     pressureLevelAt := 0;
     wasStepBack := true;
     children := [nodeId + 1] |}.

Definition generateLocalAnalysis (sessionData : SessionData) : LocalAnalysis :=
  let stepBacks := sd_stepBackEvents sessionData in
  let interventions := sd_aiInterventions sessionData in
  let baseScore := 70 in
  let stepBackPenalty := Z.min 40 (Z.of_nat (length stepBacks) * 8) in
  let pressurePenalty :=
    Z.max 0 ((currentLevel (sd_pressureState sessionData) - 2) * 5) in
  let overallScore := Z.max 0 (baseScore - stepBackPenalty - pressurePenalty) in
  let interruptionsHandled :=
    Z.of_nat (length interventions) - Z.of_nat (length stepBacks) in
  let interruptionHandling :=
    if decide (0 < length interventions)%nat
    then Math_round (inject_Z interruptionsHandled
                     / inject_Z (Z.of_nat (length interventions)) * 100)
    else 100 in
  let stepBackBreakdowns :=
    map (λ event, mkBreakdown event (getImpactedOlqs event)) stepBacks in
  let nodeId := 0 in
  let totalDuration := sd_durationSec sessionData * 1000 in
  let executionNodes :=
    [ {| en_id := nodeId;
         en_timestamp := 0;
         en_phase := PLANNING;
         en_label := "Session Start — Planning Phase";
         confidenceAt := 80;
         pressureLevelAt := 1;
         wasStepBack := false;
         children := [nodeId + 1] |} ] in
  let nodeId := nodeId + 1 in
  let '(executionNodes, nodeId) :=
    fold_left
      (λ '(executionNodes, nodeId) event,
         (executionNodes ++ [step_back_node nodeId event], nodeId + 1))
      stepBacks (executionNodes, nodeId) in
  let executionNodes :=
    executionNodes
    ++ [ {| en_id := nodeId;
            en_timestamp := totalDuration;
            en_phase := EXECUTION;
            en_label := "Session End";
            confidenceAt := inject_Z overallScore;
            pressureLevelAt := currentLevel (sd_pressureState sessionData);
            wasStepBack := false;
            children := [] |} ] in
  {| scores :=
       {| overall := overallScore;
          commandPresence := Z.max 0 (80 - stepBackPenalty);
          voiceProjection :=
            Z.max 0 (75 - Z.of_nat (length (List.filter is_volume_issue stepBacks)) * 15);
          planningStructure :=
            Z.max 0 (70 - Z.of_nat (length (List.filter is_idea_abandon stepBacks)) * 20);
          interruptionHandling := interruptionHandling |};
     stepBackBreakdowns := stepBackBreakdowns;
     executionNodes := executionNodes |}.

(** The scores of the reply of the model. *)
Record AiAnalysis : Type := mkAi {
  ai_overallScore : option Q;
  ai_commandPresence : option Q;
  ai_voiceProjection : option Q;
  ai_planningStructure : option Q
}.

Inductive Grade : Type := A | B | C | D | F.

Inductive TopicCategory : Type :=
| GTO_BASICS | COMMAND_PRESENCE | VOICE_PROJECTION | PLANNING_STRUCTURE
| INTERRUPTION_HANDLING.

Record MiniClassTopic : Type := mkTopic {
  topic_id : string;
  title : string;
  category : TopicCategory;
  duration : string
}.

Definition generateMiniClass (stepBacks : list StepBackEvent)
  : list MiniClassTopic :=
  let topics :=
    [ mkTopic "gto-basics" "GTO Task Fundamentals" GTO_BASICS "5 min";
      mkTopic "command-presence" "Command Presence & Authority" COMMAND_PRESENCE
        "7 min";
      mkTopic "voice-projection" "Voice Projection & Control" VOICE_PROJECTION
        "6 min" ] in
  let hasVolumeIssues := existsb is_volume_issue stepBacks in
  let hasIdeasAbandoned := existsb is_idea_abandon stepBacks in
  let hasHesitation := existsb is_hesitation stepBacks in
  let topics :=
    if hasIdeasAbandoned
    then topics ++ [mkTopic "planning-structure" "Structured Planning Under Pressure"
                      PLANNING_STRUCTURE "5 min"]
    else topics in
  if hasHesitation || hasVolumeIssues
  then topics ++ [mkTopic "interruption-handling"
                    "Handling Interruptions Like an Officer"
                    INTERRUPTION_HANDLING "6 min"]
  else topics.

Record TacticalBreakdown : Type := mkTactical {
  overallGrade : Grade;
  overallScore : Q;
  commandPresenceScore : Q;
  voiceProjectionScore : Q;
  planningStructureScore : Q;
  interruptionHandlingScore : Q;
  stepBackAnalysis : list StepBackBreakdown;
  executionDiagram : list ExecutionNode;
  miniClassTopics : list MiniClassTopic
}.

(** [a >= b] on numbers, and [ai?.field ?? fallback]. *)
Definition ge (a b : Q) : bool := Qle_bool b a.
Definition score_or (ai : option AiAnalysis) (field : AiAnalysis → option Q)
    (fallback : Z) : Q :=
  default (inject_Z fallback) (ai ≫= field).

Definition mergeAnalysis (ai : option AiAnalysis) (local : LocalAnalysis)
    (sessionData : SessionData) : TacticalBreakdown :=
  let scores := scores local in
  let overallScore := score_or ai ai_overallScore (overall scores) in
  let grade :=
    if ge overallScore 85 then A
    else if ge overallScore 70 then B
    else if ge overallScore 55 then C
    else if ge overallScore 40 then D
    else F in
  {| overallGrade := grade;
     overallScore := overallScore;
     commandPresenceScore := score_or ai ai_commandPresence (commandPresence scores);
     voiceProjectionScore := score_or ai ai_voiceProjection (voiceProjection scores);
     planningStructureScore :=
       score_or ai ai_planningStructure (planningStructure scores);
     interruptionHandlingScore := inject_Z (interruptionHandling scores);
     stepBackAnalysis := stepBackBreakdowns local;
     executionDiagram := executionNodes local;
     miniClassTopics := generateMiniClass (sd_stepBackEvents sessionData) |}.

(** [generateAnalysis]; [ai] is what [generateAiAnalysis] resolved to. *)
Definition generateAnalysis (ai : option AiAnalysis) (sessionData : SessionData)
  : TacticalBreakdown :=
  mergeAnalysis ai (generateLocalAnalysis sessionData) sessionData.

End Analysis.

(** ** The analysis endpoint

    The record of a session as the calls to the store leave it, and the
    session data that the controller reads from it. *)

Module Endpoint.
Import JS.
Import Voice.
Import Pressure.
Import Gateway.
Import Analysis.

(** The [metadata] that [handleEnd] writes. *)
Record EndMetadata : Type := mkEndMetadata {
  md_stepBackEvents : list StepBackEvent;
  md_aiInterventions : list Intervention;
  md_pressureFinalState : option PressureState;
  md_endReason : string
}.

Record StoredSession : Type := mkStored {
  ss_durationSec : Z;
  ss_status : Status;
  ss_transcript : option string;
  ss_ended : option EndMetadata
}.

(** The record [id] after the calls of the log: [create] makes it, with the
    metadata of the start, and [update] replaces its status, transcript and
    metadata. *)
Definition record_of (id : string) (log : list DbOp) : option StoredSession :=
  fold_left
    (λ rec op,
       match op with
       | gTOTestSession_create i _ config _ =>
           if decide (i = id)
           then Some (mkStored (durationSec config) ACTIVE None None)
           else rec
       | gTOTestSession_update i _ transcript stepBackEvents aiInterventions
           pressureFinalState endReason =>
           if decide (i = id)
           then (λ r, mkStored (ss_durationSec r) COMPLETED (Some transcript)
                        (Some (mkEndMetadata stepBackEvents aiInterventions
                                 pressureFinalState endReason))) <$> rec
           else rec
       | agentLog_create _ _ _ => rec
       end) log None.

(** The session data that the controller hands to the analysis. *)
Definition session_data (session : StoredSession) : SessionData :=
  {| sd_stepBackEvents := default [] (md_stepBackEvents <$> ss_ended session);
     sd_aiInterventions := default [] (md_aiInterventions <$> ss_ended session);
     sd_pressureState :=
       default (mkPressureState 1 0 0 0 0 [])
         (ss_ended session ≫= md_pressureFinalState);
     sd_durationSec :=
       if decide (ss_durationSec session = 0) then 600 else ss_durationSec session |}.

(** The endpoint [POST sessions/:sessionId/analysis] on the store left by
    the log; [findUniqueOrThrow] throws when there is no record. *)
Definition analysis_endpoint (ai : option AiAnalysis) (sessionId : string)
    (log : list DbOp) : Completion TacticalBreakdown :=
  match record_of sessionId log with
  | Some session => Normal (generateAnalysis ai (session_data session))
  | None => Throw "NotFoundError"
  end.

End Endpoint.

(** ** The ticks of a countdown *)

Module Ticks.
Import JS.
Import Gateway.
Import Countdown.

(** The tick broadcast when [q] seconds remain of [d]. *)
Definition tick_at (id : string) (d q : Z) : Target * Emission :=
  (ToRoom (room_of id), sim_tick q (d - q)).

(** The number of times the interval of a countdown of [d] seconds fires:
    [d] times, and once when [d] is 1 or less. *)
Definition firings (d : Z) : nat := Z.to_nat (Z.max 1 d).

(** The world [w] is in the phase [ph] of the countdown of [d] seconds, of
    any sign, that the world [w0] started for the session [id] with the
    interval [h]. *)
Definition at_phase (id : string) (h : nat) (d : Z) (w0 : World)
    (ph : Phase) (w : World) : Prop :=
  session_of (client w) = Some id
  ∧ match ph with
    | Running j m =>
        (j < firings d)%nat ∧ 0 ≤ m < 1000
        ∧ now w = now w0 + 1000 * Z.of_nat j + m
        ∧ intervals w
          = [mkInterval h id d (d - Z.of_nat j) (now w0 + 1000 * Z.of_nat j + 1000)]
        ∧ List.filter is_tick (wire w)
          = List.filter is_tick (wire w0) ++ List.filter is_tick (ticks id d d j)
        ∧ count is_ended (wire w) = count is_ended (wire w0)
        ∧ count is_update (prisma w) = count is_update (prisma w0)
        ∧ count (is_timeout_update id) (prisma w)
          = count (is_timeout_update id) (prisma w0)
    | Over =>
        now w0 + 1000 * Z.of_nat (firings d) ≤ now w
        ∧ intervals w = []
        ∧ List.filter is_tick (wire w)
          = List.filter is_tick (wire w0)
            ++ List.filter is_tick (ticks id d d (firings d))
        ∧ count is_ended (wire w) = S (count is_ended (wire w0))
        ∧ count is_update (prisma w) = S (count is_update (prisma w0))
        ∧ count (is_timeout_update id) (prisma w)
          = S (count (is_timeout_update id) (prisma w0))
    end.

End Ticks.

(** ** The composite of a snapshot

    The composite confidence of the design taken over the component scores
    and the flag that a snapshot reports. *)

Module Reported.
Import JS.
Import Voice.
Import Design.


End Reported.

(** * Properties *)

(** ** Comparisons and rounding *)

Module JSFacts.
Import JS.

Lemma gt_true (a b : Q) : gt a b = true ↔ (b < a)%Q.
Proof.
  unfold gt. rewrite negb_true_iff, <- not_true_iff_false, Qle_bool_iff.
  split; [apply Qnot_le_lt | apply Qlt_not_le].
Qed.

Lemma gt_false (a b : Q) : gt a b = false ↔ (a <= b)%Q.
Proof.
  unfold gt. rewrite negb_false_iff. apply Qle_bool_iff.
Qed.

Lemma Math_round_comp (x y : Q) : (x == y)%Q → Math_round x = Math_round y.
Proof. intros E. unfold Math_round. apply Qfloor_comp. now rewrite E. Qed.

End JSFacts.

(** Splits on every number comparison of the goal and turns its outcome
    into an order fact. *)
Ltac compare_numbers :=
  repeat match goal with
  | |- context [JS.gt ?a ?b] =>
      let E := fresh "E" in
      destruct (JS.gt a b) eqn:E;
      [apply JSFacts.gt_true in E | apply JSFacts.gt_false in E]
  end.

(** Computes the fields of a world built by field updates, emissions, store
    calls and timer calls. *)
Ltac world_fields :=
  cbn [Gateway.timers Gateway.voiceAnalysis Gateway.pressureEngine
       Gateway.client Gateway.prisma Gateway.wire Gateway.intervals
       Gateway.timeouts Gateway.nextHandle Gateway.now Gateway.with_timers
       Gateway.with_voice Gateway.with_pressure Gateway.with_client
       Gateway.with_intervals Gateway.with_timeouts Gateway.with_now
       Gateway.emit Gateway.broadcast Gateway.store Gateway.clearInterval
       Gateway.setTimeout Gateway.it_handle Gateway.it_sessionId
       Gateway.it_durationSec Gateway.it_remaining Gateway.it_due].

(** ** Step-back detection *)

Module StepBackFacts.
Import JS.
Import Voice.
Import Samples.

(** C3. With a previous snapshot, [detectStepBack] gives at most one event,
    chosen by the first rule that fires, in the order: confidence drop > 25
    (severe above 40, else moderate), idea abandonment (moderate), tremor
    > 70 (severe above 85, else moderate), volume drop > 60 (severe above
    80, else mild), tone drop > 60 (mild), else nothing; a confidence
    collapse wins over a simultaneous volume drop. *)
Theorem detectStepBack_first_match
    (id : string) (cur prev : VoiceMetricsSnapshot) (ch : string)
    (svc : VoiceAnalysisService) :
  let drop := (confidenceScore prev - confidenceScore cur)%Q in
  let k := verdict (detectStepBack id cur (Some prev) ch svc) in
  ((40 < drop)%Q → k = Some (CONFIDENCE_COLLAPSE, SEVERE))
  ∧ ((25 < drop)%Q → (drop <= 40)%Q → k = Some (CONFIDENCE_COLLAPSE, MODERATE))
  ∧ ((drop <= 25)%Q →
       (ideaAbandonment cur = true → k = Some (IDEA_ABANDON, MODERATE))
       ∧ (ideaAbandonment cur = false →
            ((85 < voiceTremor cur)%Q → k = Some (VOICE_TREMOR, SEVERE))
            ∧ ((70 < voiceTremor cur)%Q → (voiceTremor cur <= 85)%Q →
                 k = Some (VOICE_TREMOR, MODERATE))
            ∧ ((voiceTremor cur <= 70)%Q →
                 ((80 < volumeDrop cur)%Q → k = Some (VOLUME_DROP, SEVERE))
                 ∧ ((60 < volumeDrop cur)%Q → (volumeDrop cur <= 80)%Q →
                      k = Some (VOLUME_DROP, MILD))
                 ∧ ((volumeDrop cur <= 60)%Q →
                      ((60 < toneDrop cur)%Q → k = Some (TONE_DROP, MILD))
                      ∧ ((toneDrop cur <= 60)%Q →
                           detectStepBack id cur (Some prev) ch svc = None)))))
  ∧ ((25 < drop)%Q → (60 < volumeDrop cur)%Q →
       fst <$> k = Some CONFIDENCE_COLLAPSE).
Proof.
  intros drop k. subst k. unfold detectStepBack, verdict. fold drop.
  destruct (ideaAbandonment cur); compare_numbers; simpl;
    repeat split; intros; first [reflexivity | discriminate | lra].
Qed.

Lemma detectStepBack_first_match_witness :
  ((40 < confidenceScore (snapshot 90 0 0 0) - confidenceScore (snapshot 40 0 90 0))%Q
   ∧ (60 < volumeDrop (snapshot 40 0 90 0))%Q)
  ∧ verdict (detectStepBack "s" (snapshot 40 0 90 0) (Some (snapshot 90 0 0 0))
               "" empty_service)
    = Some (CONFIDENCE_COLLAPSE, SEVERE).
Proof.
  assert (H : (40 < confidenceScore (snapshot 90 0 0 0)
                    - confidenceScore (snapshot 40 0 90 0))%Q)
    by (vm_compute; reflexivity).
  split; [split; [exact H | vm_compute; reflexivity] |].
  exact (proj1 (detectStepBack_first_match "s" (snapshot 40 0 90 0)
                  (snapshot 90 0 0 0) "" empty_service) H).
Defined.

(** C10. Whatever its inputs, [detectStepBack] never gives an event of
    kind HESITATION, gives no MODERATE volume drop and only MILD tone
    drops; the kind and severity of an event are one of the eight
    combinations of the five rules. *)
Theorem detectStepBack_verdicts
    (id : string) (cur : VoiceMetricsSnapshot)
    (prev : option VoiceMetricsSnapshot) (ch : string)
    (svc : VoiceAnalysisService) (e : StepBackEvent) :
  detectStepBack id cur prev ch svc = Some e →
  sb_type e ≠ HESITATION
  ∧ (sb_type e = VOLUME_DROP → sb_severity e ≠ MODERATE)
  ∧ (sb_type e = TONE_DROP → sb_severity e = MILD)
  ∧ (sb_type e, sb_severity e)
    ∈ [(CONFIDENCE_COLLAPSE, SEVERE); (CONFIDENCE_COLLAPSE, MODERATE);
       (IDEA_ABANDON, MODERATE); (VOICE_TREMOR, SEVERE);
       (VOICE_TREMOR, MODERATE); (VOLUME_DROP, SEVERE); (VOLUME_DROP, MILD);
       (TONE_DROP, MILD)].
Proof.
  unfold detectStepBack. destruct prev as [prev |]; [| discriminate].
  destruct (ideaAbandonment cur);
    repeat match goal with
    | |- context [if gt ?a ?b then _ else _] => destruct (gt a b)
    end;
    intros E; try discriminate E; injection E as <-;
    cbn [sb_type sb_severity];
    (split; [discriminate | split; [intros; discriminate || reflexivity
      | split; [intros; discriminate || reflexivity | set_solver]]]).
Qed.

Lemma detectStepBack_verdicts_witness :
  ∃ e, detectStepBack "s" (snapshot 90 0 70 0) (Some (snapshot 90 0 0 0))
         "" empty_service = Some e
       ∧ sb_type e = VOLUME_DROP ∧ sb_severity e ≠ MODERATE.
Proof.
  eexists. split; [reflexivity |]. split; [reflexivity |].
  refine (proj1 (proj2 (detectStepBack_verdicts "s" (snapshot 90 0 70 0)
                          (Some (snapshot 90 0 0 0)) "" empty_service _ _)) _);
    reflexivity.
Defined.

End StepBackFacts.

(** ** The metrics of a frame window *)

Module MetricsFacts.
Import JS.
Import JSFacts.
Import Voice.
Import Design.






End MetricsFacts.

(** ** Confidence and calibration of [processFrame] *)

Module ProcessFrameFacts.
Import JS.
Import JSFacts.
Import Voice.
Import Design.
Import Reported.
Import MetricsFacts.
Import Samples.














End ProcessFrameFacts.

(** ** The pressure engine *)

Module PressureFacts.
Import JS.
Import JSFacts.
Import Voice.
Import Pressure.
Import Machine.
Import Samples.
Import Scenarios.

(** *** One call *)

Ltac escalation_cases :=
  unfold evaluateEscalation; cbv zeta;
  case_decide;
  [| destruct (bool_decide _ && bool_decide _);
     cbn [set_level currentLevel interruptionCount challengeCount
          candidateStepBacks];
     destruct (gt _ _ && bool_decide _);
     cbn [set_level currentLevel interruptionCount challengeCount
          candidateStepBacks]].

Lemma evaluateEscalation_counts (s : PressureState) (m : VoiceMetricsSnapshot) :
  interruptionCount (evaluateEscalation s m) = interruptionCount s
  ∧ challengeCount (evaluateEscalation s m) = challengeCount s
  ∧ candidateStepBacks (evaluateEscalation s m) = candidateStepBacks s.
Proof. escalation_cases; repeat split. Qed.

Lemma evaluateEscalation_level (s : PressureState) (m : VoiceMetricsSnapshot) :
  currentLevel s ≤ currentLevel (evaluateEscalation s m)
  ∧ currentLevel (evaluateEscalation s m) ≤ Z.max 5 (currentLevel s).
Proof. escalation_cases; lia. Qed.

(** What [evaluateInterruption] does to the state of its session: nothing,
    or one more interruption and challenge followed by the escalation. *)
Lemma evaluateInterruption_state (id : string) (m : VoiceMetricsSnapshot)
    (elapsedMs words : Z) (rnd : Draws) (states : PressureEngine)
    (s : PressureState) :
  states !! id = Some s →
  let states' := fst (evaluateInterruption id m elapsedMs words rnd states) in
  states' = states
  ∨ states' =
      <[id := evaluateEscalation
                (mkPressureState (currentLevel s) (interruptionCount s + 1)
                   (challengeCount s + 1) elapsedMs (candidateStepBacks s)
                   (escalationTriggers s)) m]> states.
Proof.
  intros Hs. unfold evaluateInterruption. rewrite Hs.
  repeat first [case_decide
               | match goal with
                 | |- context [if gt ?a ?b then _ else _] => destruct (gt a b)
                 | |- context [match INTERRUPTIONS ?l with _ => _ end] =>
                     destruct (INTERRUPTIONS l)
                 | |- context [match ?l !! ?i with _ => _ end] =>
                     destruct (l !! i)
                 end];
    simpl; auto.
Qed.

Lemma evaluateInterruption_absent (id : string) (m : VoiceMetricsSnapshot)
    (elapsedMs words : Z) (rnd : Draws) (states : PressureEngine) :
  states !! id = None →
  fst (evaluateInterruption id m elapsedMs words rnd states) = states.
Proof. intros Hs. unfold evaluateInterruption. now rewrite Hs. Qed.

Lemma apply_within (id : string) (op : Op) (states : PressureEngine)
    (s : PressureState) :
  within id op → states !! id = Some s →
  ∃ s', apply states op !! id = Some s' ∧ moved s op s'
        ∧ (s' ≠ s → op = StepBack id ∨ ∃ m e n r, op = Evaluate id m e n r).
Proof.
  intros [Hinit Hfin] Hs. destruct op as [i | i | i m e n r | i |]; simpl.
  - exists s. unfold initSession. rewrite lookup_insert_ne by congruence.
    repeat split; [assumption | constructor | congruence].
  - exists s. unfold endSession. simpl. rewrite lookup_delete_ne by congruence.
    repeat split; [assumption | constructor | congruence].
  - destruct (decide (i = id)) as [-> | Hne].
    + destruct (evaluateInterruption_state id m e n r states s Hs) as [-> | ->].
      * exists s. repeat split; [assumption | constructor | congruence].
      * eexists. rewrite lookup_insert_eq.
        repeat split; [constructor | eauto 10].
    + exists s. split; [| split; [constructor | congruence]].
      destruct (states !! i) as [si |] eqn:Hi.
      * destruct (evaluateInterruption_state i m e n r states si Hi) as [-> | ->];
          [assumption | now rewrite lookup_insert_ne].
      * now rewrite evaluateInterruption_absent.
  - unfold recordStepBack. destruct (decide (i = id)) as [-> | Hne].
    + rewrite Hs. eexists. rewrite lookup_insert_eq.
      split; [reflexivity |]. split; [| auto].
      apply moved_stepback;
        repeat first [case_bool_decide | case_decide]; simpl in *;
        first [reflexivity | lia].
    + exists s. split; [| split; [constructor | congruence]].
      destruct (states !! i); [now rewrite lookup_insert_ne | assumption].
  - exists s. repeat split; [assumption | constructor | congruence].
Qed.

Lemma moved_facts (s s' : PressureState) (op : Op) :
  moved s op s' →
  interruptionCount s ≤ interruptionCount s'
  ∧ challengeCount s ≤ challengeCount s'
  ∧ (2 ≤ currentLevel s → 2 ≤ currentLevel s')
  ∧ (currentLevel s' < currentLevel s →
       (∃ id, op = StepBack id) ∧ 3 ≤ candidateStepBacks s'
       ∧ currentLevel s' = currentLevel s - 1 ∧ 2 ≤ currentLevel s').
Proof.
  intros [op' | id m e n r | id s1 Hsb Hic Hcc Hlv].
  - repeat split; lia.
  - match goal with |- context [evaluateEscalation ?x m] =>
      pose proof (evaluateEscalation_counts x m) as (Hi & Hc & _);
      pose proof (evaluateEscalation_level x m) as (Hl & _)
    end.
    simpl in *. repeat split; lia.
  - case_decide; repeat split; eauto; lia.
Qed.

(** *** Sequences of calls *)

Lemma run_snoc (ops : list Op) (op : Op) (states : PressureEngine) :
  run (ops ++ [op]) states = apply (run ops states) op.
Proof. unfold run. now rewrite fold_left_app. Qed.

Lemma run_within (id : string) (ops : list Op) (states : PressureEngine)
    (s : PressureState) :
  Forall (within id) ops → states !! id = Some s →
  ∃ s', run ops states !! id = Some s'
        ∧ interruptionCount s ≤ interruptionCount s'
        ∧ challengeCount s ≤ challengeCount s'
        ∧ (2 ≤ currentLevel s → 2 ≤ currentLevel s').
Proof.
  intros Hops. revert states s.
  induction Hops as [| op ops Hop _ IH]; intros states s Hs.
  - exists s. repeat split; [assumption | lia | lia | auto].
  - destruct (apply_within id op states s Hop Hs) as (s1 & Hs1 & Hm & _).
    destruct (IH _ _ Hs1) as (s2 & Hs2 & Hi & Hc & Hl).
    destruct (moved_facts _ _ _ Hm) as (Hi' & Hc' & Hl' & _).
    exists s2. repeat split; [exact Hs2 | lia | lia | auto].
Qed.

Lemma apply_levels_ok (states : PressureEngine) (op : Op) :
  levels_ok states → levels_ok (apply states op).
Proof.
  unfold levels_ok. intros Hok.
  destruct op as [i | i | i m e n r | i |]; simpl.
  - apply map_Forall_insert_2; [simpl; lia | assumption].
  - now apply map_Forall_delete.
  - destruct (states !! i) as [s |] eqn:Hs.
    + destruct (evaluateInterruption_state i m e n r states s Hs) as [-> | ->];
        [assumption |].
      apply map_Forall_insert_2; [| assumption].
      pose proof (Hok i s Hs) as Hl. simpl in Hl.
      match goal with |- context [evaluateEscalation ?x m] =>
        pose proof (evaluateEscalation_level x m) as (Hlo & Hhi)
      end.
      simpl in *. lia.
    + now rewrite evaluateInterruption_absent.
  - unfold recordStepBack. destruct (states !! i) as [s |] eqn:Hs; [| assumption].
    apply map_Forall_insert_2; [| assumption].
    pose proof (Hok i s Hs) as Hl. simpl in Hl.
    repeat first [case_bool_decide | case_decide]; simpl in *; lia.
  - assumption.
Qed.

Lemma run_levels_ok (ops : list Op) (states : PressureEngine) :
  levels_ok states → levels_ok (run ops states).
Proof.
  revert states. induction ops as [| op ops IH]; intros states Hok;
    [assumption |].
  apply IH, apply_levels_ok, Hok.
Qed.

(** C6. After any sequence of [initSession], [evaluateInterruption],
    [recordStepBack], [getState] and [endSession] calls on a new engine,
    the current level of every session is an integer from 1 to 5. *)
Theorem level_in_range (ops : list Op) (id : string) (s : PressureState) :
  run ops ∅ !! id = Some s → 1 ≤ currentLevel s ≤ 5.
Proof.
  intros Hs.
  exact (run_levels_ok ops ∅ (map_Forall_empty _) id s Hs).
Qed.

Lemma level_in_range_witness :
  ∃ st, run [Init "s"; Evaluate "s" (snapshot 90 0 0 0) 30000 50 delayed;
             StepBack "s"] ∅ !! "s" = Some st
        ∧ 1 ≤ currentLevel st ≤ 5.
Proof.
  eexists. split; [vm_compute; reflexivity |].
  apply (level_in_range
           [Init "s"; Evaluate "s" (snapshot 90 0 0 0) 30000 50 delayed;
            StepBack "s"] "s").
  vm_compute. reflexivity.
Defined.

(** C7. Within one session, over any sequence of calls, the interruption
    and challenge counts never decrease; a call lowers the level only if
    it is [recordStepBack] on the session reaching 3 or more step-backs,
    and then by one and not below 2, which it does whenever the level is
    above 2; and a level that was above 2 never gets below 2. *)
Theorem session_monotone (states : PressureEngine) (id : string)
    (ops : list Op) (op : Op) (s s1 s2 : PressureState) :
  Forall (within id) (ops ++ [op]) →
  states !! id = Some s →
  run ops states !! id = Some s1 →
  run (ops ++ [op]) states !! id = Some s2 →
  (interruptionCount s ≤ interruptionCount s1 ≤ interruptionCount s2)
  ∧ (challengeCount s ≤ challengeCount s1 ≤ challengeCount s2)
  ∧ (2 < currentLevel s → 2 ≤ currentLevel s1 ∧ 2 ≤ currentLevel s2)
  ∧ (currentLevel s2 < currentLevel s1 →
       op = StepBack id ∧ 3 ≤ candidateStepBacks s2
       ∧ currentLevel s2 = currentLevel s1 - 1 ∧ 2 ≤ currentLevel s2)
  ∧ (op = StepBack id → 3 ≤ candidateStepBacks s2 → 2 < currentLevel s1 →
       currentLevel s2 = currentLevel s1 - 1).
Proof.
  intros Hall Hs Hs1 Hs2.
  apply Forall_app in Hall as [Hops Hop]. apply Forall_inv in Hop.
  destruct (run_within id ops states s Hops Hs) as (s1' & Hs1' & Hi & Hc & Hl).
  rewrite Hs1 in Hs1'. injection Hs1' as <-.
  rewrite run_snoc in Hs2.
  destruct (apply_within id op _ s1 Hop Hs1) as (s2' & Hs2' & Hm & Hwho).
  rewrite Hs2 in Hs2'. injection Hs2' as <-.
  destruct (moved_facts _ _ _ Hm) as (Hi' & Hc' & Hl' & Hdown).
  split; [lia |]. split; [lia |]. split; [lia |]. split.
  - intros Hlow. destruct (Hdown Hlow) as ((i & ->) & H3 & Hl1 & Hl2).
    repeat split; try assumption.
    destruct Hwho as [E | (m & e & n & r & E)];
      [intros ->; lia | exact E | discriminate].
  - intros -> H3 H2. simpl in Hs2. unfold recordStepBack in Hs2.
    rewrite Hs1, lookup_insert_eq in Hs2. injection Hs2 as <-.
    revert H3. repeat first [case_bool_decide | case_decide]; simpl in *; lia.
Qed.

Lemma session_monotone_witness :
  ∃ s s1 s2,
    (Forall (within "s") ([Get "s"] ++ [StepBack "s"])
     ∧ strained !! "s" = Some s
     ∧ run [Get "s"] strained !! "s" = Some s1
     ∧ run ([Get "s"] ++ [StepBack "s"]) strained !! "s" = Some s2)
    ∧ (currentLevel s1 = 4 ∧ currentLevel s2 = 3 ∧ candidateStepBacks s2 = 3)
    ∧ (interruptionCount s ≤ interruptionCount s1 ≤ interruptionCount s2)
    ∧ (challengeCount s ≤ challengeCount s1 ≤ challengeCount s2)
    ∧ (2 < currentLevel s → 2 ≤ currentLevel s1 ∧ 2 ≤ currentLevel s2)
    ∧ (currentLevel s2 < currentLevel s1 →
         StepBack "s" = StepBack "s" ∧ 3 ≤ candidateStepBacks s2
         ∧ currentLevel s2 = currentLevel s1 - 1 ∧ 2 ≤ currentLevel s2)
    ∧ (StepBack "s" = StepBack "s" → 3 ≤ candidateStepBacks s2 →
         2 < currentLevel s1 → currentLevel s2 = currentLevel s1 - 1).
Proof.
  assert (Hw : Forall (within "s") ([Get "s"] ++ [StepBack "s"])).
  { repeat constructor; discriminate. }
  do 3 eexists.
  split; [split; [exact Hw | repeat split; vm_compute; reflexivity] |].
  split; [repeat split |].
  exact (session_monotone strained "s" [Get "s"] (StepBack "s") _ _ _
           Hw eq_refl eq_refl eq_refl).
Defined.

End PressureFacts.

(** ** Ending a session *)

Module EndFacts.
Import JS.
Import Voice.
Import Pressure.
Import Gateway.
Import Scenarios.

Lemma count_app {A} (p : A → bool) (l k : list A) :
  count p (l ++ k) = (count p l + count p k)%nat.
Proof. unfold count. now rewrite List.filter_app, length_app. Qed.

Lemma cleanup_fields (id : string) (w : World) :
  timers (cleanup id w) = delete id (timers w)
  ∧ intervals (cleanup id w) = cleared id w
  ∧ timeouts (cleanup id w) = timeouts w
  ∧ voiceAnalysis (cleanup id w) = voiceAnalysis w
  ∧ pressureEngine (cleanup id w) = pressureEngine w
  ∧ client (cleanup id w) = client w
  ∧ prisma (cleanup id w) = prisma w
  ∧ wire (cleanup id w) = wire w
  ∧ now (cleanup id w) = now w.
Proof.
  unfold cleanup, cleared. destruct (timers w !! id) eqn:Ht; simpl.
  - repeat split.
  - rewrite (delete_id _ _ Ht). repeat split.
Qed.

(** The world after [handleEnd], field by field. *)
Lemma handleEnd_fields (reason : option string) (w : World) (id : string) :
  session_of (client w) = Some id →
  let w' := handleEnd reason w in
  timers w' = delete id (timers w)
  ∧ intervals w' = cleared id w
  ∧ timeouts w' = timeouts w
  ∧ voiceAnalysis w' = Voice.endSession id (voiceAnalysis w)
  ∧ pressureEngine w' = delete id (pressureEngine w)
  ∧ client w' = client w
  ∧ now w' = now w
  ∧ prisma w' =
      prisma w
      ++ [gTOTestSession_update id (now w) (join " " (fullTranscript (client w)))
            (stepBackEvents (client w)) (aiInterventions (client w))
            (pressureEngine w !! id) (end_reason reason)]
  ∧ wire w' =
      wire w
      ++ [(ToClient,
           sim_ended id (Z.of_nat (length (stepBackEvents (client w))))
             (total_interruptions (pressureEngine w !! id))
             (max_pressure_level (pressureEngine w !! id)))].
Proof.
  intros Hid. unfold handleEnd. rewrite Hid.
  destruct (cleanup_fields id w) as (Ht & Hi & Hto & Hv & Hp & Hc & Hdb & Hw & Hn).
  unfold Pressure.endSession. cbv zeta. cbn [fst snd].
  cbn -[cleanup Voice.endSession delete lookup join].
  rewrite Ht, Hi, Hto, Hv, Hp, Hc, Hdb, Hw, Hn. repeat split.
Qed.

(** C1, as the code has it.  A second [handleEnd] after the first has
    completed changes nothing in memory (timer table, running intervals,
    pending timeouts, both services, socket), yet it issues one more
    record update and one more [sim:ended], with no pressure state; two
    ends give two updates and two emissions. *)
Theorem handleEnd_again (w : World) (id : string) (r1 r2 : option string) :
  session_of (client w) = Some id →
  let w1 := handleEnd r1 w in
  let w2 := handleEnd r2 w1 in
  (timers w2 = timers w1 ∧ intervals w2 = intervals w1
   ∧ timeouts w2 = timeouts w1 ∧ voiceAnalysis w2 = voiceAnalysis w1
   ∧ pressureEngine w2 = pressureEngine w1 ∧ client w2 = client w1)
  ∧ prisma w2 =
      prisma w1
      ++ [gTOTestSession_update id (now w) (join " " (fullTranscript (client w)))
            (stepBackEvents (client w)) (aiInterventions (client w))
            None (end_reason r2)]
  ∧ wire w2 =
      wire w1
      ++ [(ToClient,
           sim_ended id (Z.of_nat (length (stepBackEvents (client w)))) 0 1)]
  ∧ count is_update (prisma w2) = (count is_update (prisma w) + 2)%nat
  ∧ count is_ended (wire w2) = (count is_ended (wire w) + 2)%nat.
Proof.
  intros Hid w1 w2.
  destruct (handleEnd_fields r1 w id Hid)
    as (Ht & Hi & Hto & Hv & Hp & Hc & Hn & Hdb & Hw).
  fold w1 in Ht, Hi, Hto, Hv, Hp, Hc, Hn, Hdb, Hw.
  assert (Hid1 : session_of (client w1) = Some id) by now rewrite Hc.
  destruct (handleEnd_fields r2 w1 id Hid1)
    as (Ht' & Hi' & Hto' & Hv' & Hp' & Hc' & Hn' & Hdb' & Hw').
  fold w2 in Ht', Hi', Hto', Hv', Hp', Hc', Hn', Hdb', Hw'.
  assert (Hgone : pressureEngine w1 !! id = None)
    by (rewrite Hp; apply lookup_delete_eq).
  assert (Hnot : timers w1 !! id = None)
    by (rewrite Ht; apply lookup_delete_eq).
  rewrite Hgone, Hc, Hn in Hdb'. rewrite Hgone, Hc in Hw'. simpl in Hw'.
  split; [| split; [exact Hdb' | split; [exact Hw' | split]]].
  - repeat split.
    + rewrite Ht'. now apply delete_id.
    + rewrite Hi'. unfold cleared. now rewrite Hnot.
    + exact Hto'.
    + rewrite Hv', Hv. destruct (voiceAnalysis w) as [fr bl]. unfold Voice.endSession.
      simpl. now rewrite !delete_delete_eq.
    + rewrite Hp'. now apply delete_id.
    + exact Hc'.
  - rewrite Hdb', Hdb, !count_app. unfold count at 2 3. simpl. lia.
  - rewrite Hw', Hw, !count_app. unfold count at 2 3. simpl. lia.
Qed.

(** C1, as stated, fails.  A duplicate end request, and a client end
    after the timeout end, each leave two record updates and two
    [sim:ended] emissions. *)
Lemma end_twice_not_once :
  (let w := run [Start ten_seconds "s"; End None; End None] ready in
   count is_update (prisma w) = 2%nat ∧ count is_ended (wire w) = 2%nat)
  ∧ (let w := run [Start ten_seconds "s"; Elapse (seconds 10); End None] ready in
     count is_update (prisma w) = 2%nat ∧ count is_ended (wire w) = 2%nat).
Proof.
  split; split; vm_compute; reflexivity.
Qed.



Lemma handleEnd_again_witness :
  session_of (client started) = Some "s"
  ∧ count is_update (prisma (handleEnd None (handleEnd None started)))
    = (count is_update (prisma started) + 2)%nat
  ∧ count is_ended (wire (handleEnd None (handleEnd None started)))
    = (count is_ended (wire started) + 2)%nat.
Proof.
  split; [reflexivity |].
  exact (proj2 (proj2 (proj2 (handleEnd_again started "s" None None eq_refl)))).
Defined.


End EndFacts.

(** ** Pending timeouts *)

Module TimeoutFacts.
Import JS.
Import Voice.
Import Pressure.
Import Gateway.
Import Traces.
Import Scenarios.

#[local] Opaque processFrame detectStepBack evaluateInterruption
  recordStepBack getState.

#[local] Instance grows_refl : Reflexive grows.
Proof. intros w. repeat split; reflexivity. Qed.

#[local] Instance grows_trans : Transitive grows.
Proof.
  intros a b c (N1 & T1 & W1) (N2 & T2 & W2).
  repeat split; [congruence | etrans; eassumption | etrans; eassumption].
Qed.

(** Proves [grows w w'] when [w'] is built from [w] by field updates,
    emissions, store calls and new timeouts. *)
Ltac grows_by_fields :=
  unfold grows; world_fields; rewrite <- ?app_assoc;
  repeat split; first [reflexivity | apply prefix_app_r; reflexivity].

Lemma cleanup_grows (id : string) (w : World) : grows w (cleanup id w).
Proof. unfold cleanup. destruct (timers w !! id); grows_by_fields. Qed.

Lemma handleEnd_grows (reason : option string) (w : World) :
  grows w (handleEnd reason w).
Proof.
  unfold handleEnd. destruct (session_of (client w)); [| reflexivity].
  etrans; [apply (cleanup_grows s) |]. grows_by_fields.
Qed.

Lemma handleDisconnect_grows (w : World) : grows w (handleDisconnect w).
Proof.
  unfold handleDisconnect. destruct (session_of (client w)); [| reflexivity].
  etrans; [apply (cleanup_grows s) |]. grows_by_fields.
Qed.

Lemma handleConnection_grows (sub : option string) (w : World) :
  grows w (handleConnection sub w).
Proof. unfold handleConnection. destruct sub; grows_by_fields. Qed.

Lemma handleStart_grows (config : SimulationConfig) (id : string) (w : World) :
  grows w (handleStart config id w).
Proof. unfold handleStart, startCountdown. cbv zeta. grows_by_fields. Qed.

Lemma handleVoiceFrame_grows (frame : VoiceFrame) (rnd : Draws) (w : World) :
  grows w (handleVoiceFrame frame rnd w).
Proof.
  unfold handleVoiceFrame.
  destruct (session_of (client w)) as [id |]; [| reflexivity].
  cbv zeta. world_fields.
  destruct (processFrame id frame (now w) (voiceAnalysis w)) as [svc metrics].
  world_fields.
  destruct (truthy (transcript frame));
    (destruct (detectStepBack id metrics _ _ svc) as [sb |]);
    world_fields;
    match goal with
    | |- context [evaluateInterruption ?a ?b ?c ?d ?e ?f] =>
        destruct (evaluateInterruption a b c d e f) as [engine [decision | ex]]
    end;
    world_fields;
    try (destruct (shouldInterrupt decision); world_fields;
         try case_decide; world_fields);
    grows_by_fields.
Qed.

Lemma countdown_callback_grows (t : IntervalTask) (w : World) :
  grows w (countdown_callback t w).
Proof.
  unfold countdown_callback. cbv zeta.
  repeat match goal with
  | |- context [if ?b then _ else _] => destruct b
  end;
  try (etrans; [| apply handleEnd_grows]); grows_by_fields.
Qed.

Lemma fire_interval_grows (w : World) (h : nat) : grows w (fire_interval w h).
Proof.
  unfold fire_interval. destruct (List.find _ _); [| reflexivity].
  case_decide; [apply countdown_callback_grows | reflexivity].
Qed.

Lemma fire_intervals_grows (hs : list nat) (w : World) :
  grows w (fold_left fire_interval hs w).
Proof.
  revert w. induction hs as [| h hs IH]; intros w; simpl; [reflexivity |].
  etrans; [apply fire_interval_grows | apply IH].
Qed.

(** *** Firing the due timeouts *)

Lemma emit_all_fields (due : list TimeoutTask) (w : World) :
  let w' := fold_left (λ w t, emit (sim_ai_interrupt (to_decision t)) w) due w in
  now w' = now w ∧ timeouts w' = timeouts w
  ∧ wire w' = wire w ++ map interrupt_of due.
Proof.
  revert w. induction due as [| t due IH]; intros w; simpl.
  - now rewrite app_nil_r.
  - destruct (IH (emit (sim_ai_interrupt (to_decision t)) w)) as (Hn & Ht & Hw).
    rewrite Hn, Ht, Hw. simpl. now rewrite <- app_assoc.
Qed.

Lemma fire_timeouts_fields (w : World) :
  now (fire_timeouts w) = now w
  ∧ timeouts (fire_timeouts w) = filter (λ t, ¬ to_due t ≤ now w) (timeouts w)
  ∧ wire (fire_timeouts w)
    = wire w ++ map interrupt_of (filter (λ t, to_due t ≤ now w) (timeouts w)).
Proof.
  unfold fire_timeouts. cbv zeta.
  match goal with |- context [fold_left ?f ?l ?x] =>
    destruct (emit_all_fields l x) as (Hn & Ht & Hw)
  end.
  rewrite Hn, Ht, Hw. repeat split.
Qed.

(** *** A pending timeout through handlers and time *)

Lemma emitted_since_prefix (w w1 w2 : World) (x : Target * Emission) :
  emitted_since w w1 x → wire w1 `prefix_of` wire w2 → emitted_since w w2 x.
Proof.
  intros (before & after & E) [more E2].
  exists before, (after ++ more). rewrite E2, E.
  now rewrite <- !app_assoc.
Qed.

Lemma pending_or_sent_grows (t : TimeoutTask) (w w1 w2 : World) :
  pending_or_sent t w w1 → grows w1 w2 → pending_or_sent t w w2.
Proof.
  intros (Hpre & Hcase) (Hn & Ht & Hw). split; [etrans; eassumption |].
  rewrite Hn. destruct Hcase as [[Hlt Hin] | [Hge Hsent]].
  - left. split; [exact Hlt |]. destruct Ht as [more ->].
    apply elem_of_app. now left.
  - right. split; [exact Hge |]. eapply emitted_since_prefix; eassumption.
Qed.

Lemma pending_or_sent_tick (t : TimeoutTask) (w w1 : World) :
  pending_or_sent t w w1 → pending_or_sent t w (tick_ms w1).
Proof.
  intros H. unfold tick_ms. cbv zeta.
  set (w2 := with_now (now w1 + 1) w1).
  set (w3 := fold_left fire_interval (map it_handle (intervals w2)) w2).
  destruct (fire_intervals_grows (map it_handle (intervals w2)) w2)
    as (Hn3 & Ht3 & Hw3).
  fold w3 in Hn3, Ht3, Hw3.
  destruct (fire_timeouts_fields w3) as (Hn & Ht & Hw).
  destruct H as (Hpre & Hcase).
  assert (Hpre3 : wire w `prefix_of` wire w3) by (etrans; eassumption).
  assert (Hpre4 : wire w3 `prefix_of` wire (fire_timeouts w3))
    by (rewrite Hw; apply prefix_app_r; reflexivity).
  split; [etrans; eassumption |].
  rewrite Hn, Hn3. change (now w2) with (now w1 + 1).
  destruct Hcase as [[Hlt Hin] | [Hge Hsent]].
  - assert (Hin3 : t ∈ timeouts w3).
    { destruct Ht3 as [more ->]. apply elem_of_app. now left. }
    destruct (decide (to_due t ≤ now w1 + 1)) as [Hdue | Hnot].
    + right. split; [exact Hdue |].
      assert (Hx : interrupt_of t
                   ∈ map interrupt_of (filter (λ t, to_due t ≤ now w3) (timeouts w3))).
      { apply list_elem_of_fmap_2. apply list_elem_of_filter. split; [| exact Hin3].
        rewrite Hn3. exact Hdue. }
      apply list_elem_of_split in Hx as (l1 & l2 & Hx).
      destruct Hpre3 as [k Hk].
      exists (k ++ l1), l2. rewrite Hw, Hx, Hk. now rewrite <- !app_assoc.
    + left. split; [lia |]. rewrite Ht. apply list_elem_of_filter.
      split; [| exact Hin3]. rewrite Hn3. exact Hnot.
  - right. split; [lia |].
    eapply emitted_since_prefix; [exact Hsent |]. etrans; eassumption.
Qed.

Lemma pending_or_sent_elapse (t : TimeoutTask) (n : nat) (w w1 : World) :
  pending_or_sent t w w1 → pending_or_sent t w (elapse n w1).
Proof.
  revert w1. induction n as [| n IH]; intros w1 H; simpl; [exact H |].
  apply IH, pending_or_sent_tick, H.
Qed.

Lemma step_grows_or_elapses (w : World) (e : Event) :
  grows w (step w e) ∨ ∃ n, step w e = elapse n w.
Proof.
  destruct e; simpl;
    [left; apply handleConnection_grows | left; apply handleStart_grows
    | left; apply handleVoiceFrame_grows | left; apply handleEnd_grows
    | left; apply handleDisconnect_grows | right; eauto].
Qed.

Lemma pending_or_sent_run (t : TimeoutTask) (es : list Event) (w w1 : World) :
  pending_or_sent t w w1 → pending_or_sent t w (run es w1).
Proof.
  revert w1. induction es as [| e es IH]; intros w1 H; simpl; [exact H |].
  apply IH. destruct (step_grows_or_elapses w1 e) as [Hg | [n ->]].
  - eapply pending_or_sent_grows; eassumption.
  - now apply pending_or_sent_elapse.
Qed.

(** C8, as the code has it.  A delayed interrupt is not cancellable: once
    scheduled it stays pending through every handler, the end of the
    session and a disconnect included, and it is emitted when its delay
    has elapsed. *)
Theorem delayed_interrupt_not_cancelled (w : World) (t : TimeoutTask)
    (es : list Event) :
  t ∈ timeouts w → now w < to_due t →
  let w' := run es w in
  (now w' < to_due t ∧ t ∈ timeouts w')
  ∨ (to_due t ≤ now w'
     ∧ emitted_since w w' (ToClient, sim_ai_interrupt (to_decision t))).
Proof.
  intros Hin Hlt w'.
  assert (H0 : pending_or_sent t w w).
  { split; [reflexivity |]. left. now split. }
  exact (proj2 (pending_or_sent_run t es w w H0)).
Qed.

Lemma delayed_interrupt_not_cancelled_witness :
  let es := [Elapse 500; End None; Elapse 500] in
  (pending_interrupt ∈ timeouts scheduled
   ∧ now scheduled < to_due pending_interrupt)
  ∧ ((now (run es scheduled) < to_due pending_interrupt
      ∧ pending_interrupt ∈ timeouts (run es scheduled))
     ∨ (to_due pending_interrupt ≤ now (run es scheduled)
        ∧ emitted_since scheduled (run es scheduled)
            (ToClient, sim_ai_interrupt (to_decision pending_interrupt)))).
Proof.
  intros es.
  assert (Hin : pending_interrupt ∈ timeouts scheduled)
    by (vm_compute; apply list_elem_of_here).
  assert (Hlt : now scheduled < to_due pending_interrupt)
    by (vm_compute; reflexivity).
  split; [split; [exact Hin | exact Hlt] |].
  exact (delayed_interrupt_not_cancelled scheduled pending_interrupt es Hin Hlt).
Defined.

End TimeoutFacts.

(** ** The countdown *)

Module CountdownFacts.
Import JS.
Import Voice.
Import Pressure.
Import Gateway.
Import Traces.
Import Countdown.
Import EndFacts.
Import TimeoutFacts.
Import Scenarios.

#[local] Opaque processFrame detectStepBack evaluateInterruption
  recordStepBack getState.

Ltac same_by_fields :=
  unfold same_countdown, session_of, count; world_fields;
  cbn [sessionId];
  rewrite ?List.filter_app, ?length_app;
  cbn [List.filter is_tick is_ended is_update is_timeout_update snd length];
  rewrite ?app_nil_r, ?Nat.add_0_r;
  repeat split; reflexivity.

Lemma handleVoiceFrame_same (id : string) (frame : VoiceFrame) (rnd : Draws)
    (w : World) :
  same_countdown id w (handleVoiceFrame frame rnd w).
Proof.
  unfold handleVoiceFrame.
  destruct (session_of (client w)) as [i |] eqn:Hs;
    [| repeat split; reflexivity].
  cbv zeta. world_fields.
  destruct (processFrame i frame (now w) (voiceAnalysis w)) as [svc metrics].
  world_fields.
  destruct (truthy (transcript frame));
    (destruct (detectStepBack i metrics _ _ svc) as [sb |]);
    world_fields;
    match goal with
    | |- context [evaluateInterruption ?a ?b ?c ?d ?e ?f] =>
        destruct (evaluateInterruption a b c d e f) as [engine [decision | ex]]
    end;
    world_fields;
    try (destruct (shouldInterrupt decision); world_fields;
         try case_decide; world_fields);
    same_by_fields.
Qed.

Lemma same_countdown_refl (id : string) (w : World) : same_countdown id w w.
Proof. repeat split; reflexivity. Qed.

Lemma same_countdown_trans (id : string) (a b c : World) :
  same_countdown id a b → same_countdown id b c → same_countdown id a c.
Proof.
  intros (A1 & A2 & A3 & A4 & A5 & A6 & A7) (B1 & B2 & B3 & B4 & B5 & B6 & B7).
  repeat split; congruence.
Qed.

Lemma emit_all_same (id : string) (due : list TimeoutTask) (w : World) :
  same_countdown id w
    (fold_left (λ w t, emit (sim_ai_interrupt (to_decision t)) w) due w).
Proof.
  revert w. induction due as [| t due IH]; intros w; cbn [fold_left].
  - apply same_countdown_refl.
  - eapply same_countdown_trans; [| apply IH]. same_by_fields.
Qed.

Lemma fire_timeouts_same (id : string) (w : World) :
  same_countdown id w (fire_timeouts w).
Proof.
  unfold fire_timeouts. cbv zeta.
  eapply same_countdown_trans; [| apply emit_all_same]. same_by_fields.
Qed.

(** *** The callback of the interval *)

Lemma callback_running (t : IntervalTask) (w : World) :
  intervals w = [t] → 0 < it_remaining t - 1 →
  let w' := countdown_callback t w in
  now w' = now w ∧ client w' = client w ∧ prisma w' = prisma w
  ∧ intervals w'
    = [mkInterval (it_handle t) (it_sessionId t) (it_durationSec t)
         (it_remaining t - 1) (it_due t + 1000)]
  ∧ wire w'
    = wire w ++ tick_emissions (it_sessionId t) (it_durationSec t)
                  (it_remaining t - 1).
Proof.
  intros Hi Hr. unfold countdown_callback. cbv zeta. world_fields.
  rewrite (decide_False (P := it_remaining t - 1 ≤ 0)) by lia.
  rewrite Hi. cbn [map].
  rewrite (decide_True (P := it_handle t = it_handle t)) by reflexivity.
  unfold tick_emissions.
  repeat case_decide; world_fields; rewrite <- ?app_assoc, ?app_nil_r;
    repeat split; reflexivity.
Qed.

Lemma callback_final (t : IntervalTask) (w : World) :
  intervals w = [t] → it_remaining t - 1 ≤ 0 →
  session_of (client w) = Some (it_sessionId t) →
  let id := it_sessionId t in
  let w' := countdown_callback t w in
  now w' = now w ∧ client w' = client w ∧ intervals w' = []
  ∧ prisma w'
    = prisma w
      ++ [gTOTestSession_update id (now w) (join " " (fullTranscript (client w)))
            (stepBackEvents (client w)) (aiInterventions (client w))
            (pressureEngine w !! id) "TIMEOUT"]
  ∧ wire w'
    = wire w ++ tick_emissions id (it_durationSec t) (it_remaining t - 1)
      ++ [time_up;
          (ToClient,
           sim_ended id (Z.of_nat (length (stepBackEvents (client w))))
             (total_interruptions (pressureEngine w !! id))
             (max_pressure_level (pressureEngine w !! id)))].
Proof.
  intros Hi Hr Hs id w'. subst w'. unfold countdown_callback. cbv zeta.
  world_fields. fold id.
  rewrite (decide_True (P := it_remaining t - 1 ≤ 0)) by lia.
  match goal with |- context [handleEnd _ ?W] => set (W0 := W) end.
  assert (HW : timers W0 !! id = None ∧ pressureEngine W0 = pressureEngine w
               ∧ client W0 = client w ∧ prisma W0 = prisma w
               ∧ wire W0 = wire w
                   ++ tick_emissions id (it_durationSec t) (it_remaining t - 1)
                   ++ [time_up]
               ∧ intervals W0 = [] ∧ now W0 = now w).
  { subst W0. unfold tick_emissions, time_up.
    repeat case_decide; world_fields; rewrite Hi; cbn [map];
      rewrite (decide_True (P := it_handle t = it_handle t)) by reflexivity;
      rewrite filter_cons_False by (cbn [it_handle]; tauto);
      rewrite filter_nil, lookup_delete_eq;
      rewrite <- ?app_assoc; cbn [app];
      repeat split; reflexivity. }
  destruct HW as (H1 & H3 & H4 & H5 & H6 & H7 & H10).
  assert (HsW : session_of (client W0) = Some id) by now rewrite H4.
  destruct (handleEnd_fields (Some "TIMEOUT") W0 id HsW)
    as (Ft & Fi & Fto & Fv & Fp & Fc & Fn & Fdb & Fw).
  rewrite Fn, Fc, Fi, Fdb, Fw. unfold cleared. rewrite H1, H3, H4, H5, H6, H7, H10.
  rewrite <- !app_assoc. repeat split; reflexivity.
Qed.


(** *** The phases of a countdown *)

Lemma in_phase_same (id : string) (h k : nat) (w0 : World) (ph : Phase)
    (w w' : World) :
  in_phase id h k w0 ph w → same_countdown id w w' → in_phase id h k w0 ph w'.
Proof.
  intros (Hs & Hph) (S1 & S2 & S3 & S4 & S5 & S6 & S7).
  split; [congruence |]. destruct ph as [j m |].
  - destruct Hph as (Hj & Hm & Hn & Hi & Ht & He & Hu & Hto).
    repeat split; try lia; congruence.
  - destruct Hph as (Hn & Hi & Ht & He & Hu & Hto).
    repeat split; try lia; congruence.
Qed.

Lemma tick_emissions_not_ended (id : string) (d r : Z) :
  List.filter is_ended (tick_emissions id d r) = [].
Proof. unfold tick_emissions. repeat case_decide; reflexivity. Qed.

Lemma ticks_snoc (id : string) (d r : Z) (j : nat) :
  ticks id d r (S j) = ticks id d r j ++ tick_emissions id d (r - Z.of_nat (S j)).
Proof.
  revert r. induction j as [| j IH]; intros r.
  - simpl. now rewrite app_nil_r.
  - change (ticks id d r (S (S j)))
      with (tick_emissions id d (r - 1) ++ ticks id d (r - 1) (S j)).
    rewrite IH. cbn [ticks]. rewrite <- app_assoc. do 3 f_equal. lia.
Qed.

Lemma tick_ms_phase (id : string) (h k : nat) (w0 : World) (ph : Phase)
    (w : World) :
  in_phase id h k w0 ph w → in_phase id h k w0 (next k ph) (tick_ms w).
Proof.
  intros Hph. unfold tick_ms. cbv zeta.
  eapply in_phase_same; [| apply fire_timeouts_same].
  destruct Hph as (Hs & Hph). destruct ph as [j m |].
  - destruct Hph as (Hj & Hm & Hn & Hi & Ht & He & Hu & Hto).
    world_fields. rewrite Hi. cbn [map fold_left it_handle].
    unfold fire_interval. world_fields. rewrite Hi.
    cbn [List.find it_handle]. rewrite bool_decide_true by reflexivity.
    cbn [it_due]. set (t := mkInterval _ _ _ _ _).
    set (W1 := with_now (now w + 1) w).
    assert (Hi1 : intervals W1 = [t]) by exact Hi.
    unfold next. destruct (decide (m = 999)) as [-> | Hm9].
    + rewrite (decide_True (P := _ ≤ _)) by lia.
      destruct (decide (S j = k)) as [Hk | Hk].
      * subst k.
        destruct (callback_final t W1 Hi1) as (Fn & Fc & Fi & Fdb & Fw);
          [cbn [it_remaining t]; lia | exact Hs |].
        cbn [it_sessionId it_durationSec it_remaining t] in Fdb, Fw.
        change (wire W1) with (wire w) in Fw.
        change (prisma W1) with (prisma w) in Fdb.
        change (now W1) with (now w + 1) in Fn.
        split; [now rewrite Fc |].
        replace (Z.of_nat (S j) - Z.of_nat j - 1)
          with (Z.of_nat (S j) - Z.of_nat (S j)) in Fw by lia.
        split; [rewrite Fn; lia |].
        split; [exact Fi |].
        split; [| split; [| split]].
        -- rewrite Fw, !List.filter_app, Ht, ticks_snoc, List.filter_app.
           cbn [List.filter is_tick snd time_up]. rewrite app_nil_r.
           now rewrite <- app_assoc.
        -- unfold count in *. rewrite Fw, !List.filter_app, !length_app.
           rewrite tick_emissions_not_ended.
           cbn [List.filter is_ended snd time_up length]. lia.
        -- unfold count in *. rewrite Fdb, List.filter_app, length_app.
           cbn [List.filter is_update length]. lia.
        -- unfold count in *. rewrite Fdb, List.filter_app, length_app.
           cbn [List.filter is_timeout_update length].
           rewrite !bool_decide_true by reflexivity.
           cbn [andb length]. lia.
      * destruct (callback_running t W1 Hi1) as (Fn & Fc & Fdb & Fi & Fw);
          [cbn [it_remaining t]; lia |].
        cbn [it_handle it_sessionId it_durationSec it_remaining it_due t] in Fi, Fw.
        change (wire W1) with (wire w) in Fw.
        change (prisma W1) with (prisma w) in Fdb.
        change (now W1) with (now w + 1) in Fn.
        split; [now rewrite Fc |].
        replace (Z.of_nat k - Z.of_nat j - 1) with (Z.of_nat k - Z.of_nat (S j))
          in Fi, Fw by lia.
        split; [lia |]. split; [lia |].
        split; [rewrite Fn; lia |].
        split; [rewrite Fi; do 2 f_equal; lia |].
        split; [| split; [| split]].
        -- rewrite Fw, List.filter_app, Ht, ticks_snoc, List.filter_app.
           now rewrite <- app_assoc.
        -- unfold count in *. rewrite Fw, List.filter_app, length_app.
           rewrite tick_emissions_not_ended. cbn [length]. lia.
        -- rewrite Fdb. exact Hu.
        -- rewrite Fdb. exact Hto.
    + rewrite (decide_False (P := _ ≤ _)) by lia. subst W1.
      split; [exact Hs |]. world_fields.
      repeat split; try lia; assumption.
  - destruct Hph as (Hn & Hi & Ht & He & Hu & Hto).
    world_fields. rewrite Hi. cbn [map fold_left].
    split; [exact Hs |]. world_fields.
    repeat split; try lia; assumption.
Qed.


Lemma elapse_phase (id : string) (h k : nat) (w0 : World) (n : nat) :
  ∀ (ph : Phase) (w : World),
    in_phase id h k w0 ph w → ∃ ph', in_phase id h k w0 ph' (elapse n w).
Proof.
  induction n as [| n IH]; intros ph w Hph; cbn [elapse]; [eauto |].
  eapply IH, tick_ms_phase, Hph.
Qed.

Lemma run_phase (id : string) (h k : nat) (w0 : World) (es : list Event) :
  Forall left_alone es →
  ∀ (ph : Phase) (w : World),
    in_phase id h k w0 ph w → ∃ ph', in_phase id h k w0 ph' (run es w).
Proof.
  induction 1 as [| e es He _ IH]; intros ph w Hph; cbn [run fold_left]; [eauto |].
  destruct e as [| | frame rnd | | | n]; try contradiction; cbn [step].
  - eapply IH, in_phase_same; [exact Hph | apply handleVoiceFrame_same].
  - destruct (elapse_phase id h k w0 n ph w Hph) as [ph' Hph']. eapply IH, Hph'.
Qed.

(** *** The clock *)

Lemma now_tick_ms (w : World) : now (tick_ms w) = now w + 1.
Proof.
  unfold tick_ms. cbv zeta.
  destruct (fire_timeouts_fields
              (fold_left fire_interval
                 (map it_handle (intervals (with_now (now w + 1) w)))
                 (with_now (now w + 1) w))) as (Hn & _).
  rewrite Hn.
  now destruct (fire_intervals_grows
                  (map it_handle (intervals (with_now (now w + 1) w)))
                  (with_now (now w + 1) w)) as (-> & _).
Qed.

Lemma now_elapse (n : nat) (w : World) : now (elapse n w) = now w + Z.of_nat n.
Proof.
  revert w. induction n as [| n IH]; intros w; cbn [elapse]; [lia |].
  rewrite IH, now_tick_ms. lia.
Qed.

Lemma now_run (es : list Event) (w : World) :
  Forall left_alone es → now (run es w) = now w + duration es.
Proof.
  intros Hes. revert w.
  induction Hes as [| e es He _ IH]; intros w; cbn [run fold_left duration fold_right];
    [lia |].
  fold (run es (step w e)). fold (duration es). rewrite IH.
  destruct e as [| | frame rnd | | | n]; try contradiction; cbn [step].
  - now destruct (handleVoiceFrame_grows frame rnd w) as (-> & _).
  - rewrite now_elapse. lia.
Qed.

Lemma handleStart_in_phase (config : SimulationConfig) (id : string) (k : nat)
    (w : World) :
  truthy id = true → intervals w = [] → (0 < k)%nat →
  durationSec config = Z.of_nat k →
  in_phase id (nextHandle w) k (handleStart config id w) (Running 0 0)
    (handleStart config id w).
Proof.
  intros Hid Hi Hk Hd. unfold in_phase, handleStart, startCountdown, session_of.
  cbv zeta. world_fields. cbn [client sessionId ticks List.filter].
  rewrite Hi, Hid, Hd, app_nil_r. cbn [app].
  repeat split; try lia. do 2 f_equal; lia.
Qed.

(** C9. A session started with a duration of 10 seconds, on a socket with no
    other countdown running, whose client sends nothing but voice frames:
    once 10 seconds have passed, the session has produced exactly two ticks
    (remaining 5 and remaining 0), one [sim:ended] and one update of its
    record, with the reason TIMEOUT, and its interval is gone, however many
    frames were sent and however long one waits; before that it has
    produced no [sim:ended]. *)
Theorem countdown_of_ten_seconds (config : SimulationConfig) (id : string)
    (w : World) (es : list Event) :
  durationSec config = 10 → truthy id = true → intervals w = [] →
  Forall left_alone es →
  let w0 := handleStart config id w in
  let w' := run es w0 in
  (10000 ≤ duration es →
     List.filter is_tick (wire w')
     = List.filter is_tick (wire w0)
       ++ [(ToRoom (room_of id), sim_tick 5 5); (ToRoom (room_of id), sim_tick 0 10)]
     ∧ count is_ended (wire w') = S (count is_ended (wire w0))
     ∧ count is_update (prisma w') = S (count is_update (prisma w0))
     ∧ count (is_timeout_update id) (prisma w')
       = S (count (is_timeout_update id) (prisma w0))
     ∧ intervals w' = [])
  ∧ (duration es < 10000 →
       count is_ended (wire w') = count is_ended (wire w0)).
Proof.
  intros Hd Hid Hi Hes w0 w'.
  pose proof (handleStart_in_phase config id 10 w Hid Hi ltac:(lia) Hd) as H0.
  fold w0 in H0.
  destruct (run_phase id (nextHandle w) 10 w0 es Hes _ w0 H0) as [ph Hph].
  fold w' in Hph.
  pose proof (now_run es w0 Hes) as Hnow. fold w' in Hnow.
  destruct Hph as (Hs & Hph). destruct ph as [j m |].
  - destruct Hph as (Hj & Hm & Hn & _ & _ & He & _).
    split; [intros Hlong; exfalso; lia | intros _; exact He].
  - destruct Hph as (Hn & Hiv & Ht & He & Hu & Hto).
    split; [intros _ | intros Hshort; exfalso; lia].
    rewrite Ht. set (T := List.filter is_tick _).
    set (U := List.filter is_tick (ticks _ _ _ _)). vm_compute in U. subst U.
    repeat split; assumption.
Qed.

Lemma countdown_of_ten_seconds_witness :
  let es := [Elapse (seconds 4); Frame speech delayed; Elapse (seconds 6)] in
  (durationSec ten_seconds = 10 ∧ truthy "s" = true ∧ intervals ready = []
   ∧ Forall left_alone es ∧ 10000 ≤ duration es)
  ∧ List.filter is_tick (wire (run es started))
    = List.filter is_tick (wire started)
      ++ [(ToRoom (room_of "s"), sim_tick 5 5); (ToRoom (room_of "s"), sim_tick 0 10)]
  ∧ count is_ended (wire (run es started)) = S (count is_ended (wire started))
  ∧ count (is_timeout_update "s") (prisma (run es started))
    = S (count (is_timeout_update "s") (prisma started)).
Proof.
  intros es.
  assert (Hes : Forall left_alone es) by (repeat constructor).
  assert (Hn : 10000 ≤ duration es) by (vm_compute; discriminate).
  split.
  { split; [reflexivity |]. split; [reflexivity |]. split; [reflexivity |].
    split; [exact Hes | exact Hn]. }
  pose proof (proj1 (countdown_of_ten_seconds ten_seconds "s" ready es
                       eq_refl eq_refl eq_refl Hes) Hn)
    as (Hticks & Hended & _ & Hto & _).
  split; [exact Hticks | split; [exact Hended | exact Hto]].
Defined.

End CountdownFacts.

(** ** Concrete sessions *)

Module ScenarioFacts.
Import JS.
Import Voice.
Import Pressure.
Import Machine.
Import Gateway.
Import Traces.
Import Scenarios.

(** C8, as stated, fails.  An interruption decided 21 s into a session is
    to be spoken 1000 ms later; the client ends the session after 500 ms:
    [sim:ended] is sent, no interrupt has been sent, the timeout is still
    pending; 500 ms later the interrupt is sent, after [sim:ended]. *)
Lemma interrupt_after_end :
  let w1 :=
    Gateway.run [Start five_minutes "s"; Elapse (seconds 21);
                 Frame speech delayed; Elapse 500; End None] ready in
  let w2 := elapse 500 w1 in
  (count is_ended (wire w1) = 1%nat ∧ count is_interrupt (wire w1) = 0%nat
   ∧ map to_due (timeouts w1) = [1700000022000] ∧ now w1 = 1700000021500
   ∧ pressureEngine w1 !! "s" = None)
  ∧ (map (λ x, (is_ended x, is_interrupt x)) (drop (length (wire w1) - 1) (wire w2))
     = [(true, false); (false, true)]
     ∧ now w2 = 1700000022000).
Proof.
  vm_compute. repeat split.
Qed.

End ScenarioFacts.

(** ** Interruptions of the pressure engine *)

Module EligibilityFacts.
Import JS.
Import JSFacts.
Import Voice.
Import Pressure.
Import Machine.
Import Eligibility.
Import PressureFacts.
Import Samples.
Import Scenarios.

Lemma probability_of_code (level : Z) (confidence : Q) :
  ((let p := 0.3 + inject_Z level * 0.12 in
    let p := if gt confidence 70 then p + 0.15 else p in
    if gt confidence 85 then p + 0.15 else p)
   == interrupt_probability level confidence)%Q.
Proof.
  unfold interrupt_probability. cbv zeta.
  destruct (gt confidence 70), (gt confidence 85); lra.
Qed.

Lemma gt_comp_r (a b b' : Q) : (b == b')%Q → gt a b = gt a b'.
Proof. intros E. unfold gt. now rewrite (Qleb_comp a a (Qeq_refl a) b b' E). Qed.

(** The outcome of [evaluateInterruption] on a session that exists. *)
Lemma evaluateInterruption_cases (id : string) (m : VoiceMetricsSnapshot)
    (e n : Z) (rnd : Draws) (states : PressureEngine) (s : PressureState) :
  states !! id = Some s →
  let r := evaluateInterruption id m e n rnd states in
  (r = (states, Normal (noInterrupt (currentLevel s)))
   ∧ (¬ eligible s e n
      ∨ (interrupt_probability (currentLevel s) (confidenceScore m) < d_fire rnd)%Q))
  ∨ (eligible s e n
     ∧ (d_fire rnd <= interrupt_probability (currentLevel s) (confidenceScore m))%Q
     ∧ ((r = (states, Throw "TypeError")
         ∧ (INTERRUPTIONS (currentLevel s) = None
            ∨ ∃ pool, INTERRUPTIONS (currentLevel s) = Some pool
                ∧ pool !! Z.to_nat (Math_floor (d_category rnd
                                       * inject_Z (Z.of_nat (length pool)))) = None))
        ∨ ∃ pool category d,
            INTERRUPTIONS (currentLevel s) = Some pool
            ∧ pool !! Z.to_nat (Math_floor (d_category rnd
                                   * inject_Z (Z.of_nat (length pool))))
              = Some category
            ∧ r = (<[id := evaluateEscalation (counted s e) m]> states, Normal d)
            ∧ shouldInterrupt d = true
            ∧ interruptionType d = cat_type category
            ∧ tactic d = cat_tactic category
            ∧ text d
              = default ""
                  (cat_templates category
                     !! Z.to_nat (Math_floor (d_template rnd
                          * inject_Z (Z.of_nat (length (cat_templates category))))))
            ∧ ttsText d = text d
            ∧ pressureLevel d = currentLevel (evaluateEscalation (counted s e) m)
            ∧ waitBeforeMs d
              = (if lt (d_immediate rnd) 0.3 then 0
                 else Math_floor (d_delay rnd * 2000)))).
Proof.
  intros Hs r. subst r. unfold evaluateInterruption. rewrite Hs.
  unfold eligible, min_gap, min_words.
  destruct (decide (e < 15000)); [left; split; [reflexivity | left; lia] |].
  destruct (decide (e - lastInterruptionAt s < _));
    [left; split; [reflexivity | left; lia] |].
  destruct (decide (n < _)); [left; split; [reflexivity | left; lia] |].
  cbv zeta.
  rewrite (gt_comp_r _ _ _ (probability_of_code (currentLevel s) (confidenceScore m))).
  destruct (gt (d_fire rnd) _) eqn:G;
    [apply gt_true in G; left; split; [reflexivity | right; exact G] |].
  apply gt_false in G. right. split; [lia |]. split; [exact G |].
  destruct (INTERRUPTIONS (currentLevel s)) as [pool |]; [| left; auto].
  destruct (pool !! _) as [category |] eqn:Hc; [| left; eauto].
  right. exists pool, category. eexists. repeat split; try reflexivity. exact Hc.
Qed.

Lemma evaluateEscalation_last (s : PressureState) (m : VoiceMetricsSnapshot) :
  lastInterruptionAt (evaluateEscalation s m) = lastInterruptionAt s.
Proof.
  unfold evaluateEscalation; cbv zeta. case_decide; [reflexivity |].
  destruct (bool_decide _ && bool_decide _);
    cbn [set_level lastInterruptionAt interruptionCount];
    destruct (gt _ _ && bool_decide _); reflexivity.
Qed.

(** X1. [evaluateInterruption] interrupts only when the session exists, at
    least 15000 ms have elapsed, the gap since the last interruption and the
    words since then reach the minima of the level, and the draw is not
    above the probability (stated with a margin of one millionth, which the
    rounding of the sum of the probability stays far below); it then counts
    one interruption and one challenge, notes the time, and reports the
    level after the escalation.  A decision not to interrupt changes no
    state. *)
Theorem interruption_only_when_eligible (id : string) (m : VoiceMetricsSnapshot)
    (e n : Z) (rnd : Draws) (states states' : PressureEngine)
    (d : InterruptionDecision) :
  evaluateInterruption id m e n rnd states = (states', Normal d) →
  (shouldInterrupt d = true →
     ∃ s s', states !! id = Some s
       ∧ 15000 ≤ e
       ∧ min_gap (currentLevel s) ≤ e - lastInterruptionAt s
       ∧ min_words (currentLevel s) ≤ n
       ∧ (d_fire rnd
          < interrupt_probability (currentLevel s) (confidenceScore m)
            + (1 # 1000000))%Q
       ∧ states' = <[id := s']> states
       ∧ interruptionCount s' = interruptionCount s + 1
       ∧ challengeCount s' = challengeCount s + 1
       ∧ lastInterruptionAt s' = e
       ∧ candidateStepBacks s' = candidateStepBacks s
       ∧ currentLevel s ≤ currentLevel s'
       ∧ pressureLevel d = currentLevel s')
  ∧ (shouldInterrupt d = false → states' = states).
Proof.
  intros Hr. destruct (states !! id) as [s |] eqn:Hs.
  - destruct (evaluateInterruption_cases id m e n rnd states s Hs)
      as [[E _] | ((H15 & Hgap & Hwords) & Hp & [[E _] | (pool & c & d' & _ & _ & E & Hd)])];
      rewrite Hr in E.
    + injection E as -> ->. split; [discriminate | reflexivity].
    + discriminate E.
    + injection E as -> ->.
      destruct Hd as (Hsi & _ & _ & _ & _ & Hlev & _).
      split; [| intros F; rewrite Hsi in F; discriminate F].
      intros _. exists s, (evaluateEscalation (counted s e) m).
      destruct (evaluateEscalation_counts (counted s e) m) as (Hi & Hc & Hb).
      destruct (evaluateEscalation_level (counted s e) m) as (Hl & _).
      rewrite evaluateEscalation_last, Hi, Hc, Hb.
      repeat split; first [assumption | reflexivity | lra].
  - unfold evaluateInterruption in Hr. rewrite Hs in Hr. injection Hr as <- <-.
    split; [discriminate | reflexivity].
Qed.

Lemma interruption_only_when_eligible_witness :
  ∃ states' d s s',
    evaluateInterruption "s" (snapshot 90 0 0 0) 30000 50 delayed
      (initSession "s" ∅) = (states', Normal d)
    ∧ shouldInterrupt d = true
    ∧ initSession "s" ∅ !! "s" = Some s
    ∧ states' = <[ "s" := s' ]> (initSession "s" ∅)
    ∧ interruptionCount s' = interruptionCount s + 1
    ∧ lastInterruptionAt s' = 30000.
Proof.
  pose (r := evaluateInterruption "s" (snapshot 90 0 0 0) 30000 50 delayed
               (initSession "s" ∅)).
  destruct (r.2) as [d |] eqn:Hd; [| vm_compute in Hd; discriminate Hd].
  assert (Hr : r = (r.1, Normal d)) by (rewrite <- Hd; now destruct r).
  assert (Hsi : shouldInterrupt d = true).
  { vm_compute in Hd. injection Hd as <-. reflexivity. }
  destruct (interruption_only_when_eligible _ _ _ _ _ _ _ _ Hr) as [H _].
  destruct (H Hsi) as (s & s' & Hs & _ & _ & _ & _ & E & Hi & _ & Hl & _).
  exists (r.1), d, s, s'. repeat split; assumption.
Defined.

(** *** Draws and the table *)

Lemma lt_true (a b : Q) : lt a b = true ↔ (a < b)%Q.
Proof. exact (gt_true b a). Qed.

Lemma draw_index (r : Draw) (n : nat) :
  (0 < n)%nat →
  (Z.to_nat (Math_floor (r * inject_Z (Z.of_nat n))) < n)%nat.
Proof.
  intros Hn. destruct r as [r Hr]. cbn [draw_val].
  apply andb_true_iff in Hr as [H0 H1].
  apply Qle_bool_iff in H0. apply lt_true in H1.
  unfold Math_floor.
  assert (Hpos : (0 < inject_Z (Z.of_nat n))%Q).
  { rewrite <- (Zlt_Qlt 0). lia. }
  assert (Hlo : (0 <= r * inject_Z (Z.of_nat n))%Q) by nra.
  assert (Hhi : (r * inject_Z (Z.of_nat n) < inject_Z (Z.of_nat n))%Q) by nra.
  pose proof (Qfloor_le (r * inject_Z (Z.of_nat n))) as Hf.
  pose proof (Qfloor_resp_le _ _ Hlo) as Hf0. change (Qfloor 0) with 0 in Hf0.
  assert (Hlt : Qfloor (r * inject_Z (Z.of_nat n)) < Z.of_nat n).
  { rewrite Zlt_Qlt. eapply Qle_lt_trans; eassumption. }
  lia.
Qed.

Lemma delay_range (r : Draw) : 0 ≤ Math_floor (r * 2000) < 2000.
Proof.
  pose proof (draw_index r 2000 ltac:(lia)) as H.
  change (inject_Z (Z.of_nat 2000)) with 2000%Q in H.
  destruct r as [r Hr]. cbn [draw_val] in *.
  apply andb_true_iff in Hr as [H0 _]. apply Qle_bool_iff in H0.
  assert (Hlo : (0 <= r * 2000)%Q) by nra.
  pose proof (Qfloor_resp_le _ _ Hlo) as Hf0. change (Qfloor 0) with 0 in Hf0.
  unfold Math_floor in *. lia.
Qed.

Lemma INTERRUPTIONS_sound (level : Z) :
  1 ≤ level ≤ 5 → ∃ pool, INTERRUPTIONS level = Some pool ∧ sound_pool pool = true.
Proof.
  intros H.
  assert (C : level = 1 ∨ level = 2 ∨ level = 3 ∨ level = 4 ∨ level = 5) by lia.
  destruct C as [-> | [-> | [-> | [-> | ->]]]];
    (eexists; split; [reflexivity | vm_compute; reflexivity]).
Qed.

Lemma INTERRUPTIONS_levels (level : Z) (pool : list Category) :
  INTERRUPTIONS level = Some pool → 1 ≤ level ≤ 5.
Proof.
  intros H. destruct (decide (1 ≤ level ≤ 5)) as [? | N]; [assumption |].
  exfalso. destruct level as [| p | p]; try discriminate H.
  destruct p as [[[? | ? |] | [? | ? |] |] | [[? | ? |] | [? | ? |] |] |];
    try discriminate H; lia.
Qed.


Lemma sound_pool_lookup (pool : list Category) (r : Draw) :
  sound_pool pool = true →
  ∃ c, pool !! Z.to_nat (Math_floor (r * inject_Z (Z.of_nat (length pool)))) = Some c
       ∧ c ∈ pool ∧ sound_category c = true.
Proof.
  intros H. apply andb_true_iff in H as [Hne Hall].
  assert (Hlen : (0 < length pool)%nat) by (destruct pool; [discriminate | simpl; lia]).
  destruct (lookup_lt_is_Some_2 pool _ (draw_index r (length pool) Hlen)) as [c Hc].
  exists c. split; [exact Hc |].
  pose proof (list_elem_of_lookup_2 _ _ _ Hc) as Hin.
  split; [exact Hin |].
  rewrite forallb_forall in Hall. apply Hall, list_elem_of_In, Hin.
Qed.

Lemma sound_category_lookup (c : Category) (r : Draw) :
  sound_category c = true →
  cat_type c ≠ NONE
  ∧ ∃ t, cat_templates c
           !! Z.to_nat (Math_floor (r * inject_Z (Z.of_nat (length (cat_templates c)))))
         = Some t
         ∧ t ∈ cat_templates c ∧ truthy t = true.
Proof.
  intros H. apply andb_true_iff in H as [H Hall].
  apply andb_true_iff in H as [Hty Hne].
  split; [intros E; rewrite E in Hty; discriminate Hty |].
  assert (Hlen : (0 < length (cat_templates c))%nat)
    by (destruct (cat_templates c); [discriminate | simpl; lia]).
  destruct (lookup_lt_is_Some_2 _ _ (draw_index r _ Hlen)) as [t Ht].
  exists t. split; [exact Ht |].
  pose proof (list_elem_of_lookup_2 _ _ _ Ht) as Hin.
  split; [exact Hin |].
  rewrite forallb_forall in Hall. apply Hall, list_elem_of_In, Hin.
Qed.

(** With a level from 1 to 5 the table lookups succeed. *)
Lemma evaluateInterruption_in_range (id : string) (m : VoiceMetricsSnapshot)
    (e n : Z) (rnd : Draws) (states : PressureEngine) (s : PressureState) :
  states !! id = Some s → 1 ≤ currentLevel s ≤ 5 →
  let r := evaluateInterruption id m e n rnd states in
  (r = (states, Normal (noInterrupt (currentLevel s)))
   ∧ (¬ eligible s e n
      ∨ (interrupt_probability (currentLevel s) (confidenceScore m) < d_fire rnd)%Q))
  ∨ ∃ d, r = (<[id := evaluateEscalation (counted s e) m]> states, Normal d)
      ∧ shouldInterrupt d = true
      ∧ offered (currentLevel s) d
      ∧ interruptionType d ≠ NONE
      ∧ truthy (text d) = true
      ∧ 0 ≤ waitBeforeMs d < 2000.
Proof.
  intros Hs Hlev r.
  destruct (INTERRUPTIONS_sound _ Hlev) as (pool & Hpool & Hsound).
  destruct (sound_pool_lookup pool (d_category rnd) Hsound) as (c & Hc & Hin & Hcs).
  destruct (sound_category_lookup c (d_template rnd) Hcs) as (Hty & t & Ht & Htin & Htt).
  destruct (evaluateInterruption_cases id m e n rnd states s Hs)
    as [E | (_ & _ & [[_ [F | (pool' & Hp' & F)]]
                      | (pool' & c' & d & Hp' & Hc' & E & Hd)])].
  - left. exact E.
  - rewrite Hpool in F. discriminate F.
  - rewrite Hpool in Hp'. injection Hp' as <-. rewrite Hc in F. discriminate F.
  - rewrite Hpool in Hp'. injection Hp' as <-.
    rewrite Hc in Hc'. injection Hc' as <-.
    right. exists d. split; [exact E |].
    destruct Hd as (Hsi & Hdt & Hdc & Hdx & Hds & _ & Hdw).
    rewrite Ht in Hdx. cbn [default] in Hdx.
    split; [exact Hsi |]. split; [| split; [| split]].
    + exists pool, c. rewrite Hdx. repeat split; try assumption.
      now rewrite <- Hdx.
    + now rewrite Hdt.
    + now rewrite Hdx.
    + rewrite Hdw. destruct (lt _ _); [lia | apply delay_range].
Qed.

(** X2. On an engine reached from the empty one by any sequence of calls,
    [evaluateInterruption] never fails on the table lookup: it returns a
    decision, and a decision to interrupt carries a category and a template
    that the table offers at a level from 1 to 5, with a type other than
    NONE, a non-empty text that is also the spoken text, and a delay of 0 to
    1999 ms. *)
Theorem evaluateInterruption_never_throws (ops : list Op) (id : string)
    (m : VoiceMetricsSnapshot) (e n : Z) (rnd : Draws) :
  ∃ d, snd (evaluateInterruption id m e n rnd (run ops ∅)) = Normal d
       ∧ (shouldInterrupt d = true →
            (∃ level, 1 ≤ level ≤ 5 ∧ offered level d)
            ∧ interruptionType d ≠ NONE
            ∧ truthy (text d) = true
            ∧ 0 ≤ waitBeforeMs d < 2000).
Proof.
  destruct (run ops ∅ !! id) as [s |] eqn:Hs.
  - pose proof (run_levels_ok ops ∅ (map_Forall_empty _) id s Hs) as Hlev.
    cbv beta in Hlev.
    destruct (evaluateInterruption_in_range id m e n rnd _ s Hs Hlev)
      as [[E _] | (d & E & _ & Hoff & Hrest)]; rewrite E.
    + eexists. split; [reflexivity | discriminate].
    + exists d. split; [reflexivity |]. intros _.
      split; [exists (currentLevel s); split; assumption | exact Hrest].
  - unfold evaluateInterruption. rewrite Hs. eexists.
    split; [reflexivity | discriminate].
Qed.

Lemma evaluateInterruption_never_throws_witness :
  ∃ d, snd (evaluateInterruption "s" (snapshot 90 0 0 0) 30000 50 delayed
              (run [Init "s"] ∅)) = Normal d
       ∧ shouldInterrupt d = true
       ∧ interruptionType d ≠ NONE
       ∧ 0 ≤ waitBeforeMs d < 2000.
Proof.
  destruct (evaluateInterruption_never_throws [Init "s"] "s" (snapshot 90 0 0 0)
              30000 50 delayed) as (d & Hd & H).
  assert (Hsi : shouldInterrupt d = true).
  { vm_compute in Hd. injection Hd as <-. reflexivity. }
  destruct (H Hsi) as (_ & Hty & _ & Hw).
  exists d. split; [exact Hd |]. split; [exact Hsi |]. split; [exact Hty | exact Hw].
Defined.

Lemma evaluateEscalation_closed (s : PressureState) (m : VoiceMetricsSnapshot) :
  currentLevel s < 5 →
  currentLevel (evaluateEscalation s m)
  = Z.min 5 (currentLevel s + every_third (interruptionCount s)
             + too_confident (interruptionCount s) (confidenceScore m))
  ∧ ∃ added,
      escalationTriggers (evaluateEscalation s m) = escalationTriggers s ++ added
      ∧ Z.of_nat (length added)
        = every_third (interruptionCount s)
          + too_confident (interruptionCount s) (confidenceScore m).
Proof.
  intros Hlt. unfold evaluateEscalation, every_third, too_confident. cbv zeta.
  rewrite (decide_False (P := 5 ≤ currentLevel s)) by lia.
  destruct (decide (Z.rem (interruptionCount s) 3 = 0 ∧ 0 < interruptionCount s))
    as [[H3 H0] | N3].
  - rewrite (bool_decide_eq_true_2 _ H3), (bool_decide_eq_true_2 _ H0).
    cbn [andb]; unfold set_level; cbn [interruptionCount currentLevel escalationTriggers].
    destruct (gt (confidenceScore m) 80) eqn:G;
      [apply gt_true in G | apply gt_false in G].
    + destruct (decide (2 < interruptionCount s)) as [H2 | N2].
      * rewrite (bool_decide_eq_true_2 _ H2), decide_True by (split; assumption).
        cbn [andb]; unfold set_level; cbn [interruptionCount currentLevel escalationTriggers].
        split; [lia |]. eexists. rewrite <- app_assoc. split; reflexivity.
      * rewrite (bool_decide_eq_false_2 _ N2), decide_False by tauto.
        cbn [andb]; unfold set_level; cbn [interruptionCount currentLevel escalationTriggers].
        split; [lia |]. eexists. split; reflexivity.
    + rewrite decide_False by (intros [F _]; apply (Qlt_not_le _ _ F G)).
      cbn [andb]; unfold set_level; cbn [interruptionCount currentLevel escalationTriggers].
      split; [lia |]. eexists. split; reflexivity.
  - assert (B : bool_decide (Z.rem (interruptionCount s) 3 = 0)
                && bool_decide (0 < interruptionCount s) = false).
    { apply andb_false_iff.
      destruct (decide (Z.rem (interruptionCount s) 3 = 0)) as [H3 | H3];
        [right; apply bool_decide_eq_false_2; tauto
        | left; apply bool_decide_eq_false_2; assumption]. }
    rewrite B.
    destruct (gt (confidenceScore m) 80) eqn:G;
      [apply gt_true in G | apply gt_false in G].
    + destruct (decide (2 < interruptionCount s)) as [H2 | N2].
      * rewrite (bool_decide_eq_true_2 _ H2), decide_True by (split; assumption).
        cbn [andb]; unfold set_level; cbn [interruptionCount currentLevel escalationTriggers].
        split; [lia |]. eexists. split; reflexivity.
      * rewrite (bool_decide_eq_false_2 _ N2), decide_False by tauto.
        cbn [andb]. split; [lia |]. exists []. now rewrite app_nil_r.
    + rewrite decide_False by (intros [F _]; apply (Qlt_not_le _ _ F G)).
      cbn [andb]. split; [lia |]. exists []. now rewrite app_nil_r.
Qed.


(** X3. [evaluateEscalation] below level 5 raises the level by the number
    of triggers that hold (the interruption count is a positive multiple of
    3; the confidence is above 80 with more than 2 interruptions), up to 5,
    and appends one entry to the trigger log for each trigger that holds,
    also for one that the cap of 5 has made ineffective. *)
Theorem escalation_by_triggers (s : PressureState) (m : VoiceMetricsSnapshot) :
  currentLevel s < 5 →
  currentLevel (evaluateEscalation s m)
  = Z.min 5 (currentLevel s + every_third (interruptionCount s)
             + too_confident (interruptionCount s) (confidenceScore m))
  ∧ ∃ added,
      escalationTriggers (evaluateEscalation s m) = escalationTriggers s ++ added
      ∧ Z.of_nat (length added)
        = every_third (interruptionCount s)
          + too_confident (interruptionCount s) (confidenceScore m).
Proof. exact (evaluateEscalation_closed s m). Qed.

Lemma escalation_by_triggers_witness :
  currentLevel (mkPressureState 4 3 3 0 0 []) < 5
  ∧ currentLevel (evaluateEscalation (mkPressureState 4 3 3 0 0 []) (snapshot 90 0 0 0))
    = 5
  ∧ ∃ added,
      escalationTriggers
        (evaluateEscalation (mkPressureState 4 3 3 0 0 []) (snapshot 90 0 0 0))
      = [] ++ added
      ∧ Z.of_nat (length added) = 2.
Proof.
  split; [vm_compute; reflexivity |].
  destruct (escalation_by_triggers (mkPressureState 4 3 3 0 0 []) (snapshot 90 0 0 0))
    as [Hl (added & Ha & Hn)]; [vm_compute; reflexivity |].
  split; [rewrite Hl; vm_compute; reflexivity |].
  exists added. split; [exact Ha |]. rewrite Hn. vm_compute. reflexivity.
Defined.

Lemma draw_below_one (r : Draw) : (r < 1)%Q.
Proof.
  destruct r as [r Hr]. cbn [draw_val].
  apply andb_true_iff in Hr as [_ H1]. now apply lt_true in H1.
Qed.

(** X4. At level 4 or 5 with a confidence score above 85 the probability
    exceeds 1: once the time, gap and word conditions hold,
    [evaluateInterruption] interrupts whatever is drawn. *)
Theorem interruption_certain (id : string) (m : VoiceMetricsSnapshot)
    (e n : Z) (rnd : Draws) (states : PressureEngine) (s : PressureState) :
  states !! id = Some s →
  4 ≤ currentLevel s ≤ 5 →
  (85 < confidenceScore m)%Q →
  eligible s e n →
  ∃ d, snd (evaluateInterruption id m e n rnd states) = Normal d
       ∧ shouldInterrupt d = true.
Proof.
  intros Hs Hlev Hconf Hel.
  destruct (evaluateInterruption_in_range id m e n rnd states s Hs ltac:(lia))
    as [[_ [F | F]] | (d & E & Hsi & _)].
  - contradiction.
  - exfalso. pose proof (draw_below_one (d_fire rnd)) as H1.
    unfold interrupt_probability in F.
    assert (G70 : gt (confidenceScore m) 70 = true) by (apply gt_true; lra).
    assert (G85 : gt (confidenceScore m) 85 = true) by (apply gt_true; lra).
    rewrite G70, G85 in F.
    assert (H4 : (4 <= inject_Z (currentLevel s))%Q).
    { change 4%Q with (inject_Z 4). rewrite <- Zle_Qle. lia. }
    lra.
  - exists d. rewrite E. split; [reflexivity | exact Hsi].
Qed.

Lemma interruption_certain_witness :
  ∃ d, snd (evaluateInterruption "s" (snapshot 90 0 0 0) 30000 50 delayed strained)
       = Normal d
       ∧ shouldInterrupt d = true.
Proof.
  apply (interruption_certain "s" (snapshot 90 0 0 0) 30000 50 delayed strained
           (mkPressureState 4 5 5 0 2 [])).
  - vm_compute. reflexivity.
  - vm_compute. split; discriminate.
  - vm_compute. reflexivity.
  - vm_compute. repeat split; discriminate.
Defined.

(** *** Sessions side by side *)

Lemma apply_other (id : string) (op : Op) (states : PressureEngine) :
  session op ≠ id → apply states op !! id = states !! id.
Proof.
  destruct op as [i | i | i m e n r | i | i]; cbn [session apply]; intros Hne.
  - unfold initSession. now rewrite lookup_insert_ne.
  - unfold endSession. cbn [fst]. now rewrite lookup_delete_ne.
  - destruct (states !! i) as [si |] eqn:Hi.
    + destruct (evaluateInterruption_state i m e n r states si Hi) as [-> | ->];
        [reflexivity | now rewrite lookup_insert_ne].
    + now rewrite evaluateInterruption_absent.
  - unfold recordStepBack.
    destruct (states !! i); [now rewrite lookup_insert_ne | reflexivity].
  - reflexivity.
Qed.

(** X5. The engine keeps its sessions apart: calls made for other sessions
    ([initSession], [endSession], [evaluateInterruption], [recordStepBack],
    [getState]) leave the state of a session as it is, and leave an absent
    session absent. *)
Theorem sessions_apart (id : string) (ops : list Op) (states : PressureEngine) :
  Forall (λ op, session op ≠ id) ops →
  run ops states !! id = states !! id.
Proof.
  intros Hops. revert states.
  induction Hops as [| op ops Hop _ IH]; intros states; [reflexivity |].
  change (run (op :: ops) states) with (run ops (apply states op)).
  rewrite IH. now apply apply_other.
Qed.

Lemma sessions_apart_witness :
  run [Init "t"; Evaluate "t" (snapshot 90 0 0 0) 30000 50 delayed;
       StepBack "t"; Finish "t"] strained !! "s"
  = strained !! "s".
Proof.
  apply (sessions_apart "s").
  repeat constructor; cbn [session]; discriminate.
Defined.

(** *** Counters over a session *)

Lemma apply_counters (id : string) (op : Op) (states : PressureEngine)
    (s : PressureState) :
  within id op → states !! id = Some s →
  ∃ s', apply states op !! id = Some s'
    ∧ candidateStepBacks s'
      = candidateStepBacks s + (if records_step_back id op then 1 else 0)
    ∧ challengeCount s' - interruptionCount s'
      = challengeCount s - interruptionCount s
    ∧ interruptionCount s ≤ interruptionCount s'
      ≤ interruptionCount s + (if evaluates id op then 1 else 0)
    ∧ (length (escalationTriggers s)
       + (if records_step_back id op then 1 else 0)
       ≤ length (escalationTriggers s'))%nat.
Proof.
  intros [Hinit Hfin] Hs.
  destruct (decide (session op = id)) as [Hid | Hne].
  - destruct op as [i | i | i m e n r | i | i]; cbn [session] in Hid; subst i;
      try congruence; cbn [apply records_step_back evaluates].
    + rewrite bool_decide_eq_true_2 by reflexivity.
      destruct (evaluateInterruption_state id m e n r states s Hs) as [-> | ->].
      * exists s. split; [exact Hs |]. repeat split; lia.
      * eexists. rewrite lookup_insert_eq. split; [reflexivity |].
        destruct (evaluateEscalation_counts
                    (mkPressureState (currentLevel s) (interruptionCount s + 1)
                       (challengeCount s + 1) e (candidateStepBacks s)
                       (escalationTriggers s)) m) as (Hi & Hc & Hb).
        rewrite Hi, Hc, Hb. cbn [interruptionCount challengeCount candidateStepBacks].
        repeat split; try lia.
        unfold evaluateEscalation; cbv zeta. case_decide; [simpl; lia |].
        destruct (bool_decide _ && bool_decide _);
          unfold set_level; cbn [escalationTriggers interruptionCount];
          destruct (gt _ _ && bool_decide _);
          cbn [escalationTriggers]; rewrite ?length_app; simpl; lia.
    + rewrite bool_decide_eq_true_2 by reflexivity.
      unfold recordStepBack. rewrite Hs. cbv zeta.
      eexists. rewrite lookup_insert_eq. split; [reflexivity |].
      destruct (bool_decide _ && bool_decide _);
        cbn [candidateStepBacks challengeCount interruptionCount escalationTriggers];
        rewrite length_app; simpl; repeat split; lia.
    + exists s. split; [exact Hs |]. repeat split; lia.
  - exists s. rewrite apply_other by exact Hne. split; [exact Hs |].
    assert (R : records_step_back id op = false).
    { destruct op; try reflexivity. cbn [session] in Hne.
      now apply bool_decide_eq_false_2. }
    assert (V : evaluates id op = false).
    { destruct op; try reflexivity. cbn [session] in Hne.
      now apply bool_decide_eq_false_2. }
    rewrite R, V. repeat split; lia.
Qed.

Lemma run_counters (id : string) (ops : list Op) (states : PressureEngine)
    (s : PressureState) :
  Forall (within id) ops → states !! id = Some s →
  ∃ s', run ops states !! id = Some s'
    ∧ candidateStepBacks s' = candidateStepBacks s + step_backs id ops
    ∧ challengeCount s' - interruptionCount s'
      = challengeCount s - interruptionCount s
    ∧ interruptionCount s ≤ interruptionCount s'
      ≤ interruptionCount s + evaluations id ops
    ∧ Z.of_nat (length (escalationTriggers s)) + step_backs id ops
      ≤ Z.of_nat (length (escalationTriggers s')).
Proof.
  intros Hops. revert states s.
  induction Hops as [| op ops Hop _ IH]; intros states s Hs.
  - exists s. split; [exact Hs |]. unfold step_backs, evaluations. simpl.
    repeat split; lia.
  - destruct (apply_counters id op states s Hop Hs) as (s1 & H1 & Hb & Hd & Hi & Hl).
    destruct (IH _ _ H1) as (s' & H' & Hb' & Hd' & Hi' & Hl').
    exists s'. split; [exact H' |].
    unfold step_backs, evaluations in *. cbn [List.filter].
    destruct (records_step_back id op), (evaluates id op); cbn [length];
      repeat split; lia.
Qed.

(** X6. From [initSession] on, through any calls that neither initialise
    nor end the session, the step-back counter of the session is the number
    of [recordStepBack] calls made for it, the challenge count equals the
    interruption count, the interruption count is at most the number of
    [evaluateInterruption] calls made for it, and the trigger log has at
    least one entry for each step-back. *)
Theorem counters_of_session (id : string) (ops : list Op)
    (states : PressureEngine) :
  Forall (within id) ops →
  ∃ s, run (Init id :: ops) states !! id = Some s
    ∧ candidateStepBacks s = step_backs id ops
    ∧ challengeCount s = interruptionCount s
    ∧ 0 ≤ interruptionCount s ≤ evaluations id ops
    ∧ step_backs id ops ≤ Z.of_nat (length (escalationTriggers s)).
Proof.
  intros Hops.
  change (run (Init id :: ops) states) with (run ops (initSession id states)).
  destruct (run_counters id ops (initSession id states) _ Hops
              (lookup_insert_eq _ _ _))
    as (s & Hs & Hb & Hd & Hi & Hl).
  cbn [candidateStepBacks challengeCount interruptionCount escalationTriggers
       length] in *.
  exists s. split; [exact Hs |]. repeat split; lia.
Qed.

Lemma counters_of_session_witness :
  ∃ s, run (Init "s" :: [Evaluate "s" (snapshot 90 0 0 0) 30000 50 delayed;
                         StepBack "s"; StepBack "t"; StepBack "s"]) ∅ !! "s"
       = Some s
    ∧ candidateStepBacks s = 2
    ∧ challengeCount s = interruptionCount s
    ∧ 0 ≤ interruptionCount s ≤ 1
    ∧ 2 ≤ Z.of_nat (length (escalationTriggers s)).
Proof.
  apply (counters_of_session "s"
           [Evaluate "s" (snapshot 90 0 0 0) 30000 50 delayed;
            StepBack "s"; StepBack "t"; StepBack "s"] ∅).
  repeat constructor; discriminate.
Defined.

End EligibilityFacts.

(** ** The snapshots and the windows of the voice service *)

Module WindowFacts.
Import JS.
Import JSFacts.
Import Voice.
Import Samples.
Import Windows.


Lemma Math_round_le_100 (x : Q) : (x <= 100)%Q → (inject_Z (Math_round x) <= 100)%Q.
Proof.
  intros H1. unfold Math_round.
  change 100%Q with (inject_Z 100). rewrite <- Zle_Qle.
  change 100 with (Qfloor (100 + (1 # 2))). apply Qfloor_resp_le. lra.
Qed.

Lemma Math_round_nonneg (x : Q) : (0 <= x)%Q → (0 <= inject_Z (Math_round x))%Q.
Proof.
  intros H0. unfold Math_round.
  change 0%Q with (inject_Z 0). rewrite <- Zle_Qle.
  change 0 with (Qfloor 0). apply Qfloor_resp_le. lra.
Qed.









Lemma slice_last_Forall {A} (P : A → Prop) (n : nat) (l : list A) :
  Forall P l → Forall P (slice_last n l).
Proof. apply Forall_drop. Qed.





(** *** Before the calibration *)

Lemma processFrame_frames (id : string) (frame : VoiceFrame) (now : Z)
    (svc : VoiceAnalysisService) :
  sessionFrames (fst (processFrame id frame now svc))
  = <[id := window id svc ++ [frame]]> (sessionFrames svc).
Proof.
  unfold processFrame, window. cbv zeta. cbn [fst].
  destruct (bool_decide _ && bool_decide _ && bool_decide _); [| reflexivity].
  unfold calibrateBaseline. cbv zeta. now case_decide.
Qed.


Lemma processFrame_baselines (id : string) (frame : VoiceFrame) (now : Z)
    (svc : VoiceAnalysisService) :
  baselines (fst (processFrame id frame now svc)) = baselines svc
  ∨ (baselines svc !! id = None ∧ 30000 < timestamp frame
     ∧ ∃ b, baselines (fst (processFrame id frame now svc))
            = <[id := b]> (baselines svc)).
Proof.
  unfold processFrame. cbv zeta. cbn [fst baselines].
  destruct (bool_decide (baselines svc !! id = None)) eqn:B; [| now left].
  destruct (bool_decide (30000 < timestamp frame)) eqn:T; [| now left].
  apply bool_decide_eq_true_1 in B, T.
  destruct (bool_decide (10 < _)%nat); [| now left]. cbn [andb].
  unfold calibrateBaseline. cbv zeta. case_decide; [now left |].
  right. cbn [baselines]. eauto.
Qed.

Lemma feed_snoc (id : string) (frames : list VoiceFrame) (frame : VoiceFrame)
    (now : Z) (svc : VoiceAnalysisService) :
  feed id (frames ++ [frame]) now svc
  = fst (processFrame id frame now (feed id frames now svc)).
Proof. unfold feed. now rewrite fold_left_app. Qed.

Lemma feed_frames (id : string) (frames : list VoiceFrame) (now : Z)
    (svc : VoiceAnalysisService) :
  sessionFrames (feed id frames now svc)
  = match frames with
    | [] => sessionFrames svc
    | _ => <[id := window id svc ++ frames]> (sessionFrames svc)
    end.
Proof.
  induction frames as [| f frames IH] using rev_ind; [reflexivity |].
  rewrite feed_snoc, processFrame_frames. unfold window in *. rewrite IH.
  destruct frames as [| g frames]; [reflexivity |].
  rewrite lookup_insert_eq, insert_insert_eq.
  change (default [] (Some ?l)) with l. now rewrite <- app_assoc.
Qed.

Lemma feed_early (id : string) (frames : list VoiceFrame) (now : Z)
    (svc : VoiceAnalysisService) :
  Forall (λ f, timestamp f ≤ 30000) frames →
  baselines (feed id frames now svc) = baselines svc.
Proof.
  induction frames as [| f frames IH] using rev_ind; intros Hall; [reflexivity |].
  apply Forall_app in Hall as [Hfr Hf]. apply Forall_inv in Hf.
  rewrite feed_snoc.
  destruct (processFrame_baselines id f now (feed id frames now svc))
    as [-> | (_ & F & _)]; [now apply IH | lia].
Qed.

Lemma computeMetrics_uncalibrated (id : string) (frames : list VoiceFrame)
    (now : Z) (svc : VoiceAnalysisService) :
  baselines svc !! id = None →
  let m := computeMetrics id frames now svc in
  toneDrop m = 0%Q ∧ volumeDrop m = 0%Q ∧ ideaAbandonment m = false.
Proof.
  intros Hb m. subst m. unfold computeMetrics. rewrite Hb.
  cbn [toneDrop volumeDrop ideaAbandonment].
  split; [reflexivity |]. split; [reflexivity |].
  destruct (last _); [| reflexivity]. apply andb_false_r.
Qed.

(** X8. While every frame of a session has a timestamp of at most
    30000 ms no baseline is set: from [initSession] on, each snapshot has
    tone drop 0, volume drop 0 and no idea abandonment, so that
    [detectStepBack] can only report a confidence collapse or a voice
    tremor. *)
Theorem no_drop_before_calibration (id : string) (frames : list VoiceFrame)
    (frame : VoiceFrame) (now : Z) (svc : VoiceAnalysisService) :
  Forall (λ f, timestamp f ≤ 30000) (frames ++ [frame]) →
  let r := processFrame id frame now (feed id frames now (initSession id svc)) in
  baselines (fst r) !! id = None
  ∧ toneDrop (snd r) = 0%Q ∧ volumeDrop (snd r) = 0%Q
  ∧ ideaAbandonment (snd r) = false
  ∧ ∀ prev challenge e,
      detectStepBack id (snd r) prev challenge (fst r) = Some e →
      sb_type e = CONFIDENCE_COLLAPSE ∨ sb_type e = VOICE_TREMOR.
Proof.
  intros Hall r.
  assert (Hb : baselines (fst r) !! id = None).
  { subst r. rewrite <- feed_snoc, feed_early by exact Hall.
    unfold initSession. cbn [baselines]. apply lookup_delete_eq. }
  split; [exact Hb |].
  destruct (computeMetrics_uncalibrated id
              (window id (feed id frames now (initSession id svc)) ++ [frame])
              now (fst r) Hb) as (Ht & Hv & Ha).
  change (computeMetrics _ _ _ (fst r)) with (snd r) in Ht, Hv, Ha.
  split; [exact Ht |]. split; [exact Hv |]. split; [exact Ha |].
  clearbody r. intros prev challenge e. unfold detectStepBack.
  destruct prev as [p |]; [| discriminate]. cbv zeta.
  rewrite Ha, Ht, Hv. change (gt 0 60) with false. cbv iota.
  destruct (gt (confidenceScore p - confidenceScore (snd r)) 25);
    [intros [= <-]; now left |].
  destruct (gt (voiceTremor (snd r)) 70); [intros [= <-]; now right |].
  discriminate.
Qed.

Lemma no_drop_before_calibration_witness :
  let r := processFrame "s" (plain 11000 50) 0
             (feed "s" (each_second 10 1000 200) 0 (initSession "s" empty_service)) in
  baselines (fst r) !! "s" = None
  ∧ toneDrop (snd r) = 0%Q ∧ volumeDrop (snd r) = 0%Q
  ∧ ideaAbandonment (snd r) = false
  ∧ ∀ prev challenge e,
      detectStepBack "s" (snd r) prev challenge (fst r) = Some e →
      sb_type e = CONFIDENCE_COLLAPSE ∨ sb_type e = VOICE_TREMOR.
Proof.
  apply (no_drop_before_calibration "s" (each_second 10 1000 200) (plain 11000 50)
           0 empty_service).
  repeat constructor; vm_compute; discriminate.
Defined.

(** *** The window of a session *)

Lemma feed_other (id other : string) (frames : list VoiceFrame) (now : Z)
    (svc : VoiceAnalysisService) :
  other ≠ id →
  sessionFrames (feed id frames now svc) !! other = sessionFrames svc !! other
  ∧ baselines (feed id frames now svc) !! other = baselines svc !! other.
Proof.
  intros Hne.
  induction frames as [| f frames [IHf IHb]] using rev_ind; [now split |].
  rewrite feed_snoc, processFrame_frames.
  rewrite lookup_insert_ne by congruence. split; [exact IHf |].
  destruct (processFrame_baselines id f now (feed id frames now svc))
    as [-> | (_ & _ & b & ->)]; [exact IHb |].
  now rewrite lookup_insert_ne by congruence.
Qed.

(** X9. The window of a session is never trimmed: after [initSession] and
    any number of [processFrame] calls it holds every frame processed for
    the session, in order (the scores read its last ten); the windows
    and baselines of the other sessions are as they were. *)
Theorem window_is_history (id : string) (frames : list VoiceFrame) (now : Z)
    (svc : VoiceAnalysisService) :
  let svc' := feed id frames now (initSession id svc) in
  sessionFrames svc' !! id = Some frames
  ∧ ∀ other, other ≠ id →
      sessionFrames svc' !! other = sessionFrames svc !! other
      ∧ baselines svc' !! other = baselines svc !! other.
Proof.
  intros svc'. subst svc'. split.
  - rewrite feed_frames. unfold window, initSession. cbn [sessionFrames].
    destruct frames; rewrite !lookup_insert_eq; reflexivity.
  - intros other Hne.
    destruct (feed_other id other frames now (initSession id svc) Hne) as [-> ->].
    unfold initSession. cbn [sessionFrames baselines].
    now rewrite lookup_insert_ne, lookup_delete_ne by congruence.
Qed.

Lemma window_is_history_witness :
  let svc := feed "t" [plain 1000 200] 0 (initSession "t" empty_service) in
  let svc' := feed "s" [plain 1000 200; one_filler] 0 (initSession "s" svc) in
  sessionFrames svc' !! "s" = Some [plain 1000 200; one_filler]
  ∧ sessionFrames svc' !! "t" = sessionFrames svc !! "t".
Proof.
  intros svc svc'.
  destruct (window_is_history "s" [plain 1000 200; one_filler] 0 svc) as [H1 H2].
  split; [exact H1 |]. apply (H2 "t"). discriminate.
Defined.

(** X10. A baseline is set once: when a session has one, no number of
    further [processFrame] calls for the session changes it. *)
Theorem baseline_kept (id : string) (frames : list VoiceFrame) (now : Z)
    (svc : VoiceAnalysisService) (b : Baseline) :
  baselines svc !! id = Some b →
  baselines (feed id frames now svc) = baselines svc.
Proof.
  intros Hb. induction frames as [| f frames IH] using rev_ind; [reflexivity |].
  rewrite feed_snoc.
  destruct (processFrame_baselines id f now (feed id frames now svc))
    as [-> | (F & _)]; [exact IH |].
  rewrite IH, Hb in F. discriminate F.
Qed.

Lemma baseline_kept_witness :
  let svc := feed "s" (each_second 10 1000 200 ++ [plain 31000 200]) 0
               (initSession "s" empty_service) in
  ∃ b, baselines svc !! "s" = Some b
    ∧ baselines (feed "s" (each_second 20 32000 900) 0 svc) = baselines svc.
Proof.
  intros svc. eexists.
  assert (H : baselines svc !! "s" = Some (mkBaseline (2000 # 10) (5120 # 10240) (1200 # 10)))
    by (vm_compute; reflexivity).
  split; [exact H |].
  exact (baseline_kept "s" (each_second 20 32000 900) 0 svc _ H).
Defined.

(** *** A frame after the end *)

Lemma processFrame_short (id : string) (frame : VoiceFrame) (now : Z)
    (svc : VoiceAnalysisService) :
  (length (window id svc) < 10)%nat →
  processFrame id frame now svc
  = (mkVoice (<[id := window id svc ++ [frame]]> (sessionFrames svc)) (baselines svc),
     computeMetrics id (window id svc ++ [frame]) now
       (mkVoice (<[id := window id svc ++ [frame]]> (sessionFrames svc))
          (baselines svc))).
Proof.
  intros Hlen. unfold processFrame. fold (window id svc). cbv zeta.
  rewrite (bool_decide_eq_false_2 (10 < length (window id svc ++ [frame]))%nat)
    by (rewrite length_app; simpl; lia).
  now rewrite andb_false_r.
Qed.

(** X11. [endSession] does not stop the analysis: a frame processed after
    it is handled as the first frame of a newly initialised session, which
    brings the window of the session back with that one frame and no
    baseline. *)
Theorem frame_after_end (id : string) (frame : VoiceFrame) (now : Z)
    (svc : VoiceAnalysisService) :
  let r := processFrame id frame now (endSession id svc) in
  r = processFrame id frame now (initSession id svc)
  ∧ sessionFrames (fst r) !! id = Some [frame]
  ∧ baselines (fst r) !! id = None.
Proof.
  intros r. subst r.
  assert (We : window id (endSession id svc) = []).
  { unfold window, endSession. cbn [sessionFrames]. now rewrite lookup_delete_eq. }
  assert (Wi : window id (initSession id svc) = []).
  { unfold window, initSession. cbn [sessionFrames]. now rewrite lookup_insert_eq. }
  rewrite !processFrame_short by (rewrite ?We, ?Wi; simpl; lia).
  rewrite We, Wi. unfold endSession, initSession. cbn [sessionFrames baselines fst app].
  rewrite insert_delete_eq, insert_insert_eq.
  split; [reflexivity |]. split; [apply lookup_insert_eq | apply lookup_delete_eq].
Qed.

(** *** The events of [detectStepBack] *)

(** X12. An event of [detectStepBack] needs a previous snapshot; it bears
    the timestamp and the confidence of the current snapshot, the
    confidence of the previous one, the challenge it was given, and the
    non-empty transcripts of the last five frames of the window; it is a
    confidence collapse exactly when the confidence has dropped by more
    than 25. *)
Theorem event_fields (id : string) (cur : VoiceMetricsSnapshot)
    (prev : option VoiceMetricsSnapshot) (challenge : string)
    (svc : VoiceAnalysisService) (e : StepBackEvent) :
  detectStepBack id cur prev challenge svc = Some e →
  ∃ p, prev = Some p
    ∧ sb_timestamp e = ms_timestamp cur
    ∧ confidenceBefore e = confidenceScore p
    ∧ confidenceAfter e = confidenceScore cur
    ∧ aiChallenge e = challenge
    ∧ sb_transcript e
      = join " " (filter (λ s, truthy s = true)
                    (map transcript (slice_last 5 (window id svc))))
    ∧ (sb_type e = CONFIDENCE_COLLAPSE
       ↔ (25 < confidenceBefore e - confidenceAfter e)%Q).
Proof.
  unfold detectStepBack. destruct prev as [p |]; [| discriminate].
  cbv zeta. intros H. exists p. split; [reflexivity |].
  destruct (gt (confidenceScore p - confidenceScore cur) 25) eqn:G;
    [apply gt_true in G | apply gt_false in G].
  - injection H as <-. cbn. repeat split; try reflexivity. intros _. exact G.
  - assert (N : ¬ (25 < confidenceScore p - confidenceScore cur)%Q) by lra.
    destruct (ideaAbandonment cur);
      [| destruct (gt (voiceTremor cur) 70);
         [| destruct (gt (volumeDrop cur) 60);
            [| destruct (gt (toneDrop cur) 60); [| discriminate H]]]];
      injection H as <-; cbn; repeat split; try reflexivity;
      first [discriminate | intros F; contradiction].
Qed.

Lemma event_fields_witness :
  ∃ e, detectStepBack "s" (snapshot 50 0 0 0) (Some (snapshot 90 0 0 0)) "Why?"
         (feed "s" [plain 1000 200; one_filler] 0 empty_service) = Some e
    ∧ sb_type e = CONFIDENCE_COLLAPSE
    ∧ sb_transcript e = "go um"
    ∧ confidenceBefore e = 90%Q ∧ confidenceAfter e = 50%Q.
Proof.
  eexists. split; [vm_compute; reflexivity |].
  destruct (event_fields "s" (snapshot 50 0 0 0) (Some (snapshot 90 0 0 0)) "Why?"
              (feed "s" [plain 1000 200; one_filler] 0 empty_service) _ eq_refl)
    as (p & Hp & _ & Hb & Ha & _ & Ht & _).
  injection Hp as <-.
  split; [reflexivity |]. split; [reflexivity |]. split; [exact Hb | exact Ha].
Defined.

End WindowFacts.

(** ** The handling of a voice frame *)

Module PipelineFacts.
Import JS.
Import JSFacts.
Import Voice.
Import Pressure.
Import Machine.
Import Gateway.
Import Eligibility.
Import Windows.
Import Pipeline.
Import Traces.
Import Scenarios.
Import PressureFacts.
Import EligibilityFacts.
Import WindowFacts.
Import EndFacts.

Lemma evaluateInterruption_unknown (id : string) (m : VoiceMetricsSnapshot)
    (e n : Z) (rnd : Draws) (states : PressureEngine) :
  states !! id = None →
  ∃ d, evaluateInterruption id m e n rnd states = (states, Normal d)
       ∧ shouldInterrupt d = false.
Proof.
  intros Hs. unfold evaluateInterruption. rewrite Hs. eexists.
  split; reflexivity.
Qed.

Lemma recordStepBack_unknown (id : string) (states : PressureEngine) :
  states !! id = None → recordStepBack id states = states.
Proof. intros Hs. unfold recordStepBack. now rewrite Hs. Qed.

#[local] Opaque processFrame detectStepBack evaluateInterruption
  recordStepBack.

(** [handleVoiceFrame] on a socket with a session, as one world. *)
Lemma handleVoiceFrame_after (frame : VoiceFrame) (rnd : Draws) (w : World)
    (id : string) :
  session_of (client w) = Some id →
  handleVoiceFrame frame rnd w = after_frame id frame rnd w.
Proof.
  intros Hid.
  destruct w as [tm va pe c db wr iv to nh t].
  destruct c as [uid sid st words prev chal sbs tr ivs rms].
  cbn [client] in Hid.
  unfold handleVoiceFrame. cbn [client]. rewrite Hid. clear Hid.
  unfold after_frame, socket_after, interruption, evaluated,
    recorded, judged, analysed, since_start, heard, getState.
  cbv zeta. world_fields.
  cbn [userId sessionId sessionStartMs wordsSinceLastInterrupt previousMetrics
       lastAiChallenge stepBackEvents fullTranscript aiInterventions rooms].
  destruct (processFrame id frame t va) as [svc metrics].
  cbn [fst snd]. world_fields.
  destruct (truthy (transcript frame));
    cbn [userId sessionId sessionStartMs wordsSinceLastInterrupt previousMetrics
         lastAiChallenge stepBackEvents fullTranscript aiInterventions rooms];
    (destruct (detectStepBack id metrics _ _ svc) as [e |]);
    world_fields;
    cbn [userId sessionId sessionStartMs wordsSinceLastInterrupt previousMetrics
         lastAiChallenge stepBackEvents fullTranscript aiInterventions rooms];
    match goal with
    | |- context [evaluateInterruption ?a ?b ?c ?d ?e ?f] =>
        destruct (evaluateInterruption a b c d e f) as [engine [decision | ex]]
    end;
    cbn [fst snd]; world_fields;
    try (destruct (shouldInterrupt decision); world_fields;
         cbn [spoken_now spoken_later]; try case_decide; world_fields);
    cbv beta iota delta
      [with_client with_pressure with_voice with_timeouts emit store setTimeout
       timers voiceAnalysis pressureEngine client prisma wire intervals
       timeouts nextHandle now userId sessionId sessionStartMs
       wordsSinceLastInterrupt previousMetrics lastAiChallenge stepBackEvents
       fullTranscript aiInterventions rooms spoken_now spoken_later
       option_list];
    cbn [map app];
    rewrite ?app_nil_r, <- ?app_assoc; reflexivity.
Qed.

(** *** The engine behind the gateway *)

Lemma driven_refl (w : World) : driven w w.
Proof. now exists []. Qed.

Lemma driven_trans (a b c : World) : driven a b → driven b c → driven a c.
Proof.
  intros [ops1 H1] [ops2 H2]. exists (ops1 ++ ops2).
  unfold Machine.run in *. now rewrite fold_left_app, <- H1.
Qed.

Lemma driven_same (w w' : World) : pressureEngine w' = pressureEngine w → driven w w'.
Proof. intros E. now exists []. Qed.

Lemma handleEnd_driven (reason : option string) (w : World) :
  driven w (handleEnd reason w).
Proof.
  destruct (session_of (client w)) as [id |] eqn:Hs.
  - destruct (handleEnd_fields reason w id Hs) as (_ & _ & _ & _ & Hp & _).
    exists [Finish id]. exact Hp.
  - unfold handleEnd. rewrite Hs. apply driven_refl.
Qed.

Lemma handleDisconnect_driven (w : World) : driven w (handleDisconnect w).
Proof.
  unfold handleDisconnect. destruct (session_of (client w)) as [id |];
    [| apply driven_refl].
  cbv zeta. world_fields. exists [Finish id].
  destruct (cleanup_fields id w) as (_ & _ & _ & _ & Hp & _).
  unfold Pressure.endSession. cbn [fst]. now rewrite Hp.
Qed.

Lemma handleVoiceFrame_driven (frame : VoiceFrame) (rnd : Draws) (w : World) :
  driven w (handleVoiceFrame frame rnd w).
Proof.
  destruct (session_of (client w)) as [id |] eqn:Hs.
  - rewrite (handleVoiceFrame_after frame rnd w id Hs).
    unfold after_frame. cbv zeta. cbn [pressureEngine].
    unfold evaluated, recorded.
    destruct (judged id frame w).
    + now exists [StepBack id; Evaluate id (snd (analysed id frame w)) (since_start w)
                    (wordsSinceLastInterrupt (heard frame (client w))) rnd].
    + now exists [Evaluate id (snd (analysed id frame w)) (since_start w)
                    (wordsSinceLastInterrupt (heard frame (client w))) rnd].
  - unfold handleVoiceFrame. rewrite Hs. apply driven_refl.
Qed.

Lemma countdown_callback_driven (t : IntervalTask) (w : World) :
  driven w (countdown_callback t w).
Proof.
  unfold countdown_callback. cbv zeta.
  repeat match goal with
  | |- context [if ?b then _ else _] => destruct b
  end;
  try (eapply driven_trans; [| apply handleEnd_driven]);
  apply driven_same; reflexivity.
Qed.

Lemma fire_interval_driven (w : World) (h : nat) : driven w (fire_interval w h).
Proof.
  unfold fire_interval. destruct (List.find _ _); [| apply driven_refl].
  case_decide; [apply countdown_callback_driven | apply driven_refl].
Qed.

Lemma fire_intervals_driven (hs : list nat) (w : World) :
  driven w (fold_left fire_interval hs w).
Proof.
  revert w. induction hs as [| h hs IH]; intros w; simpl; [apply driven_refl |].
  eapply driven_trans; [apply fire_interval_driven | apply IH].
Qed.

Lemma emit_all_engine (due : list TimeoutTask) (w : World) :
  pressureEngine (fold_left (λ w t, emit (sim_ai_interrupt (to_decision t)) w) due w)
  = pressureEngine w.
Proof.
  revert w. induction due as [| t due IH]; intros w; cbn [fold_left];
    [reflexivity | now rewrite IH].
Qed.

Lemma tick_ms_driven (w : World) : driven w (tick_ms w).
Proof.
  unfold tick_ms, fire_timeouts. cbv zeta.
  eapply driven_trans; [| apply driven_same, emit_all_engine].
  eapply driven_trans; [| apply driven_same; reflexivity].
  eapply driven_trans; [| apply fire_intervals_driven].
  apply driven_same. reflexivity.
Qed.

Lemma elapse_driven (n : nat) (w : World) : driven w (elapse n w).
Proof.
  revert w. induction n as [| n IH]; intros w; cbn [elapse]; [apply driven_refl |].
  eapply driven_trans; [apply tick_ms_driven | apply IH].
Qed.

Lemma step_driven (w : World) (e : Event) : driven w (step w e).
Proof.
  destruct e as [sub | config id | frame rnd | reason | | n]; cbn [step].
  - apply driven_same. unfold handleConnection. now destruct sub.
  - now exists [Init id].
  - apply handleVoiceFrame_driven.
  - apply handleEnd_driven.
  - apply handleDisconnect_driven.
  - apply elapse_driven.
Qed.

Lemma run_driven (es : list Event) (w : World) : driven w (run es w).
Proof.
  revert w. induction es as [| e es IH]; intros w; cbn [run fold_left];
    [apply driven_refl |].
  eapply driven_trans; [apply step_driven | apply IH].
Qed.

Lemma driven_levels_ok (w w' : World) :
  driven w w' → levels_ok (pressureEngine w) → levels_ok (pressureEngine w').
Proof. intros [ops ->]. apply run_levels_ok. Qed.

Lemma recorded_levels_ok (id : string) (frame : VoiceFrame) (w : World) :
  levels_ok (pressureEngine w) → levels_ok (recorded id frame w).
Proof.
  intros Hok. unfold recorded. destruct (judged id frame w); [| exact Hok].
  exact (apply_levels_ok _ (StepBack id) Hok).
Qed.

Lemma evaluated_normal (id : string) (frame : VoiceFrame) (rnd : Draws)
    (w : World) :
  levels_ok (pressureEngine w) →
  ∃ d, snd (evaluated id frame rnd w) = Normal d
       ∧ (shouldInterrupt d = true → 0 ≤ waitBeforeMs d < 2000).
Proof.
  intros Hok. apply (recorded_levels_ok id frame) in Hok.
  unfold evaluated. destruct (recorded id frame w !! id) as [s |] eqn:Hs.
  - destruct (evaluateInterruption_in_range id (snd (analysed id frame w))
                (since_start w) (wordsSinceLastInterrupt (heard frame (client w)))
                rnd _ s Hs (Hok id s Hs))
      as [[E _] | (d & E & _ & _ & _ & _ & Hw)]; rewrite E; cbn [snd].
    + eexists. split; [reflexivity | discriminate].
    + exists d. split; [reflexivity | intros _; exact Hw].
  - destruct (evaluateInterruption_unknown id (snd (analysed id frame w))
                (since_start w) (wordsSinceLastInterrupt (heard frame (client w)))
                rnd _ Hs) as (d & E & Hd).
    rewrite E. exists d. split; [reflexivity |].
    intros F. rewrite Hd in F. discriminate F.
Qed.

(** X13. Whatever happens to the gateway from its creation on (connections,
    starts, frames, ends, disconnects, time), the engine it holds is in a
    state that calls of the engine reach from the empty one: every session
    has a level from 1 to 5, and the evaluation of a frame returns a
    decision and never fails on the table of interruptions. *)
Theorem gateway_engine_sound (es : list Event) (t0 : Z) :
  let w := run es (boot t0) in
  (∃ ops, pressureEngine w = Machine.run ops ∅)
  ∧ (∀ id s, pressureEngine w !! id = Some s → 1 ≤ currentLevel s ≤ 5)
  ∧ ∀ id frame rnd, ∃ d, snd (evaluated id frame rnd w) = Normal d.
Proof.
  intros w. pose proof (run_driven es (boot t0)) as Hd. fold w in Hd.
  assert (Hok : levels_ok (pressureEngine w)).
  { apply (driven_levels_ok _ _ Hd). apply map_Forall_empty. }
  split; [exact Hd |]. split; [exact Hok |].
  intros id frame rnd.
  destruct (evaluated_normal id frame rnd w Hok) as (d & E & _). eauto.
Qed.

Lemma gateway_engine_sound_witness :
  let es := [Connect (Some "user"); Start five_minutes "s"; Elapse (seconds 21);
             Frame speech delayed] in
  ∃ s, pressureEngine (run es (boot 1700000000000)) !! "s" = Some s
       ∧ interruptionCount s = 1
       ∧ 1 ≤ currentLevel s ≤ 5.
Proof.
  intros es.
  destruct (gateway_engine_sound es 1700000000000) as (_ & H & _).
  destruct (pressureEngine (run es (boot 1700000000000)) !! "s") as [s |] eqn:Hs;
    [| vm_compute in Hs; discriminate Hs].
  exists s. split; [reflexivity |]. split; [| exact (H "s" s Hs)].
  vm_compute in Hs. injection Hs as <-. reflexivity.
Defined.


(** *** What a frame brings about *)

Lemma interruption_cases (id : string) (frame : VoiceFrame) (rnd : Draws)
    (w : World) (d : InterruptionDecision) :
  interruption id frame rnd w = Some d →
  shouldInterrupt d = true ∧ 0 ≤ waitBeforeMs d < 2000
  ∧ 15000 ≤ since_start w
  ∧ ∃ s, recorded id frame w !! id = Some s
         ∧ min_words (currentLevel s)
           ≤ wordsSinceLastInterrupt (heard frame (client w)).
Proof.
  unfold interruption, evaluated.
  destruct (recorded id frame w !! id) as [s |] eqn:Hs.
  - destruct (evaluateInterruption_cases id (snd (analysed id frame w))
                (since_start w) (wordsSinceLastInterrupt (heard frame (client w)))
                rnd _ s Hs)
      as [[E _] | ((H15 & _ & Hwords) & _ & [[E _] | (pool & c & x & _ & _ & E & Hx)])];
      rewrite E; cbn [snd noInterrupt shouldInterrupt]; try discriminate.
    destruct Hx as (Hsi & _ & _ & _ & _ & _ & Hw). rewrite Hsi.
    intros [= <-]. split; [exact Hsi |]. split.
    + rewrite Hw. destruct (lt _ _); [lia | apply delay_range].
    + split; [exact H15 |]. exists s. now split.
  - destruct (evaluateInterruption_unknown id (snd (analysed id frame w))
                (since_start w) (wordsSinceLastInterrupt (heard frame (client w)))
                rnd _ Hs) as (x & E & Hx).
    rewrite E. cbn [snd]. rewrite Hx. discriminate.
Qed.

Lemma spoken_once (t : Z) (d : option InterruptionDecision) :
  (length (spoken_now d) + length (spoken_later t d))%nat = length (option_list d).
Proof. destruct d as [d |]; [| reflexivity]. simpl. now case_decide. Qed.

(** X14. A voice frame on a socket with a session is answered by exactly
    one [sim:metrics] emission carrying the snapshot of [processFrame],
    then at most one [sim:step_back], logged and kept on the socket, then at
    most one interruption, which is either emitted at once or scheduled
    less than 2000 ms ahead, never both, and which is recorded among the
    interventions of the socket, resets its word count and becomes its
    last challenge; the clock and the countdown are left alone. *)
Theorem frame_pipeline (frame : VoiceFrame) (rnd : Draws) (w : World)
    (id : string) :
  session_of (client w) = Some id →
  let w' := handleVoiceFrame frame rnd w in
  ∃ (sb : option StepBackEvent) (d : option InterruptionDecision),
    wire w'
    = wire w
      ++ [to_client
            (sim_metrics (snd (processFrame id frame (now w) (voiceAnalysis w))))]
      ++ map (λ e, to_client (sim_step_back e)) (option_list sb)
      ++ map (λ d, to_client (sim_ai_interrupt d)) (spoken_now d)
    ∧ timeouts w' = timeouts w ++ spoken_later (now w) d
    ∧ (length (spoken_now d) + length (spoken_later (now w) d))%nat
      = length (option_list d)
    ∧ stepBackEvents (client w') = stepBackEvents (client w) ++ option_list sb
    ∧ prisma w'
      = prisma w
        ++ map (λ e, agentLog_create (userId (client w)) e
                       (recordStepBack id (pressureEngine w) !! id))
             (option_list sb)
    ∧ length (aiInterventions (client w'))
      = (length (aiInterventions (client w)) + length (option_list d))%nat
    ∧ (∀ x, d = Some x →
         shouldInterrupt x = true ∧ 0 ≤ waitBeforeMs x < 2000
         ∧ wordsSinceLastInterrupt (client w') = 0
         ∧ lastAiChallenge (client w') = Some (text x))
    ∧ now w' = now w ∧ intervals w' = intervals w ∧ timers w' = timers w.
Proof.
  intros Hid w'. subst w'. rewrite (handleVoiceFrame_after frame rnd w id Hid).
  exists (judged id frame w), (interruption id frame rnd w).
  unfold after_frame, socket_after. cbv zeta.
  cbn [wire timeouts client prisma now intervals timers stepBackEvents
       aiInterventions wordsSinceLastInterrupt lastAiChallenge].
  split; [reflexivity |]. split; [reflexivity |].
  split; [apply spoken_once |]. split; [reflexivity |].
  split.
  { unfold recorded. destruct (judged id frame w); reflexivity. }
  split; [now rewrite length_app, length_map |].
  split; [| repeat split].
  intros x Hx. destruct (interruption_cases id frame rnd w x Hx) as (Hsi & Hw & _).
  rewrite Hx. repeat split; first [assumption | lia].
Qed.

(** X15. In the first 15 seconds after the start of its session a voice
    frame is never interrupted: no interruption is emitted or scheduled and
    none is recorded on the socket. *)
Theorem no_interruption_in_first_15s (frame : VoiceFrame) (rnd : Draws)
    (w : World) (id : string) :
  session_of (client w) = Some id →
  since_start w < 15000 →
  let w' := handleVoiceFrame frame rnd w in
  timeouts w' = timeouts w
  ∧ List.filter is_interrupt (wire w') = List.filter is_interrupt (wire w)
  ∧ aiInterventions (client w') = aiInterventions (client w)
  ∧ lastAiChallenge (client w') = lastAiChallenge (client w).
Proof.
  intros Hid Hearly w'. subst w'.
  rewrite (handleVoiceFrame_after frame rnd w id Hid).
  assert (Hd : interruption id frame rnd w = None).
  { destruct (interruption id frame rnd w) as [x |] eqn:Hx; [| reflexivity].
    destruct (interruption_cases id frame rnd w x Hx) as (_ & _ & H15 & _). lia. }
  unfold after_frame, socket_after. cbv zeta.
  cbn [wire timeouts client aiInterventions lastAiChallenge].
  rewrite Hd. cbn [spoken_now spoken_later option_list map].
  rewrite !app_nil_r, !List.filter_app.
  split; [reflexivity |]. split; [| split; reflexivity].
  cbn [List.filter is_interrupt snd to_client].
  destruct (judged id frame w); cbn [option_list map List.filter is_interrupt snd to_client];
    now rewrite app_nil_r.
Qed.


Lemma frame_pipeline_witness :
  ∃ (sb : option StepBackEvent) (d : option InterruptionDecision),
    timeouts (handleVoiceFrame speech delayed started)
    = timeouts started ++ spoken_later (now started) d
    ∧ (length (spoken_now d) + length (spoken_later (now started) d))%nat
      = length (option_list d)
    ∧ stepBackEvents (client (handleVoiceFrame speech delayed started))
      = stepBackEvents (client started) ++ option_list sb
    ∧ now (handleVoiceFrame speech delayed started) = now started.
Proof.
  destruct (frame_pipeline speech delayed started "s" eq_refl)
    as (sb & d & _ & Ht & Hl & Hs & _ & _ & _ & Hn & _).
  exists sb, d. split; [exact Ht |]. split; [exact Hl |].
  split; [exact Hs | exact Hn].
Defined.

Lemma no_interruption_in_first_15s_witness :
  since_start started < 15000
  ∧ timeouts (handleVoiceFrame speech delayed started) = timeouts started
  ∧ aiInterventions (client (handleVoiceFrame speech delayed started))
    = aiInterventions (client started).
Proof.
  assert (H : since_start started < 15000) by (vm_compute; reflexivity).
  split; [exact H |].
  destruct (no_interruption_in_first_15s speech delayed started "s" eq_refl H)
    as (Ht & _ & Ha & _).
  split; [exact Ht | exact Ha].
Defined.

(** *** A frame after the end of the session *)

(** X16. The end of a session does not detach the socket from it: a voice
    frame that arrives after [handleEnd] is still analysed and answered
    with [sim:metrics] (and maybe a step-back, logged with no pressure
    state), which brings the window of the ended session back in the
    voice service with that one frame; the engine, which has forgotten the
    session, is left as it is and never interrupts. *)
Theorem frame_after_session_end (reason : option string) (frame : VoiceFrame)
    (rnd : Draws) (w : World) (id : string) :
  session_of (client w) = Some id →
  let w1 := handleEnd reason w in
  let w2 := handleVoiceFrame frame rnd w1 in
  ∃ (m : VoiceMetricsSnapshot) (sb : option StepBackEvent),
    wire w2
    = wire w1 ++ to_client (sim_metrics m)
                 :: map (λ e, to_client (sim_step_back e)) (option_list sb)
    ∧ prisma w2
      = prisma w1
        ++ map (λ e, agentLog_create (userId (client w)) e None) (option_list sb)
    ∧ stepBackEvents (client w2) = stepBackEvents (client w) ++ option_list sb
    ∧ timeouts w2 = timeouts w1
    ∧ aiInterventions (client w2) = aiInterventions (client w)
    ∧ pressureEngine w2 = pressureEngine w1
    ∧ pressureEngine w2 !! id = None
    ∧ sessionFrames (voiceAnalysis w2) !! id = Some [frame].
Proof.
  intros Hid w1 w2.
  destruct (handleEnd_fields reason w id Hid)
    as (_ & _ & _ & Fv & Fp & Fc & _ & _ & _).
  fold w1 in Fv, Fp, Fc.
  assert (Hid1 : session_of (client w1) = Some id) by now rewrite Fc.
  subst w2. rewrite (handleVoiceFrame_after frame rnd w1 id Hid1).
  assert (Hgone : pressureEngine w1 !! id = None)
    by (rewrite Fp; apply lookup_delete_eq).
  assert (Hrec : recorded id frame w1 = pressureEngine w1).
  { unfold recorded. destruct (judged id frame w1); [| reflexivity].
    now apply recordStepBack_unknown. }
  assert (Hev : ∃ d, evaluated id frame rnd w1 = (pressureEngine w1, Normal d)
                     ∧ shouldInterrupt d = false).
  { unfold evaluated. rewrite Hrec. now apply evaluateInterruption_unknown. }
  destruct Hev as (d & Hev & Hd).
  assert (Hint : interruption id frame rnd w1 = None).
  { unfold interruption. rewrite Hev. cbn [snd]. now rewrite Hd. }
  exists (snd (analysed id frame w1)), (judged id frame w1).
  unfold after_frame, socket_after. cbv zeta.
  cbn [wire prisma client stepBackEvents timeouts aiInterventions pressureEngine
       voiceAnalysis].
  rewrite Hint, Hev, Hrec, Hgone, Fc. cbn [spoken_now spoken_later option_list map fst].
  rewrite !app_nil_r.
  repeat (split; [reflexivity |]).
  split; [exact Hgone |].
  unfold analysed. rewrite processFrame_frames, lookup_insert_eq, Fv.
  unfold window, Voice.endSession. cbn [sessionFrames].
  now rewrite lookup_delete_eq.
Qed.

Lemma frame_after_session_end_witness :
  ∃ (m : VoiceMetricsSnapshot),
    count is_ended (wire (handleEnd None started)) = 1%nat
    ∧ (∃ before after,
         wire (handleVoiceFrame speech delayed (handleEnd None started))
         = before ++ (ToClient, sim_ended "s" 0 0 1)
                     :: to_client (sim_metrics m) :: after)
    ∧ sessionFrames (voiceAnalysis (handleVoiceFrame speech delayed
                                      (handleEnd None started))) !! "s"
      = Some [speech].
Proof.
  destruct (frame_after_session_end None speech delayed started "s" eq_refl)
    as (m & sb & Hw & _ & _ & _ & _ & _ & _ & Hf).
  exists m. split; [vm_compute; reflexivity |]. split; [| exact Hf].
  rewrite Hw. eexists _, _.
  change (wire (handleEnd None started))
    with (removelast (wire (handleEnd None started)) ++ [(ToClient, sim_ended "s" 0 0 1)]).
  rewrite <- app_assoc. reflexivity.
Defined.

End PipelineFacts.

(** ** One socket, several sessions *)

Module SuccessionFacts.
Import JS.
Import JSFacts.
Import Voice.
Import Pressure.
Import Gateway.
Import Pipeline.
Import Succession.
Import EndFacts.
Import PipelineFacts.
Import Scenarios.
Import Windows.
Import WindowFacts.



#[local] Opaque processFrame detectStepBack evaluateInterruption
  recordStepBack.

(** *** The socket and the store through the handlers *)

Lemma handleEnd_socket (reason : option string) (w : World) :
  client (handleEnd reason w) = client w
  ∧ ((session_of (client w) = None ∧ prisma (handleEnd reason w) = prisma w)
     ∨ ∃ id, session_of (client w) = Some id
         ∧ prisma (handleEnd reason w)
           = prisma w
             ++ [gTOTestSession_update id (now w)
                   (join " " (fullTranscript (client w)))
                   (stepBackEvents (client w)) (aiInterventions (client w))
                   (pressureEngine w !! id) (end_reason reason)]).
Proof.
  destruct (session_of (client w)) as [id |] eqn:Hs.
  - destruct (handleEnd_fields reason w id Hs) as (_ & _ & _ & _ & _ & Hc & _ & Hp & _).
    split; [exact Hc |]. right. eauto.
  - unfold handleEnd. rewrite Hs. split; [reflexivity |]. now left.
Qed.

Lemma handleDisconnect_socket (w : World) :
  client (handleDisconnect w) = client w ∧ prisma (handleDisconnect w) = prisma w.
Proof.
  unfold handleDisconnect. destruct (session_of (client w)) as [id |];
    [| now split].
  cbv zeta. world_fields.
  destruct (cleanup_fields id w) as (_ & _ & _ & _ & _ & Hc & Hp & _).
  now split.
Qed.

Lemma countdown_callback_socket (t : IntervalTask) (w : World) :
  client (countdown_callback t w) = client w
  ∧ ((prisma (countdown_callback t w) = prisma w)
     ∨ ∃ id, session_of (client w) = Some id
         ∧ prisma (countdown_callback t w)
           = prisma w
             ++ [gTOTestSession_update id (now w)
                   (join " " (fullTranscript (client w)))
                   (stepBackEvents (client w)) (aiInterventions (client w))
                   (pressureEngine w !! id) "TIMEOUT"]).
Proof.
  unfold countdown_callback. cbv zeta.
  destruct (decide (it_remaining t - 1 ≤ 0)) as [Hend | Hrun].
  - match goal with |- context [handleEnd _ ?W] => set (W0 := W) end.
    assert (HW : client W0 = client w ∧ prisma W0 = prisma w
                 ∧ pressureEngine W0 = pressureEngine w ∧ now W0 = now w).
    { subst W0. repeat case_decide; world_fields; repeat split; reflexivity. }
    destruct HW as (Hc & Hp & He & Hn).
    destruct (handleEnd_socket (Some "TIMEOUT") W0) as (Hc' & [[_ Hp'] | (id & Hs & Hp')]).
    + rewrite Hc', Hp', Hc, Hp. split; [reflexivity | now left].
    + rewrite Hc', Hp', Hc, Hp, He, Hn. rewrite Hc in Hs.
      split; [reflexivity |]. right. exists id. now split.
  - repeat case_decide; world_fields; (split; [reflexivity | now left]).
Qed.


Lemma session_of_sessionId (c : SimSocket) (id : string) :
  session_of c = Some id → sessionId c = Some id.
Proof.
  unfold session_of. destruct (sessionId c) as [i |]; [| discriminate].
  destruct (truthy i); [now intros [= ->] | discriminate].
Qed.

Lemma end_update_about (c : SimSocket) (op : DbOp) (i : string) :
  end_update c op → sessionId c ≠ Some i → about i op = false.
Proof.
  intros (id & t & st & r & Hs & ->) Hi. apply session_of_sessionId in Hs.
  cbn [about]. apply bool_decide_eq_false_2. congruence.
Qed.

Lemma written_refl (w : World) : written w w.
Proof. split; [reflexivity |]. exists []. now rewrite app_nil_r. Qed.

Lemma written_trans (a b c : World) : written a b → written b c → written a c.
Proof.
  intros (C1 & l1 & P1 & F1) (C2 & l2 & P2 & F2).
  split; [congruence |]. exists (l1 ++ l2).
  rewrite P2, P1, <- app_assoc. split; [reflexivity |].
  apply Forall_app. split; [exact F1 | now rewrite <- C1].
Qed.

Lemma written_same (w w' : World) :
  client w' = client w → prisma w' = prisma w → written w w'.
Proof. intros Hc Hp. split; [exact Hc |]. exists []. now rewrite app_nil_r. Qed.

Lemma handleEnd_written (reason : option string) (w : World) :
  written w (handleEnd reason w).
Proof.
  destruct (handleEnd_socket reason w) as (Hc & [[_ Hp] | (id & Hs & Hp)]).
  - now apply written_same.
  - split; [exact Hc |]. eexists. split; [exact Hp |].
    apply Forall_singleton. unfold end_update. eauto 10.
Qed.

Lemma countdown_callback_written (t : IntervalTask) (w : World) :
  written w (countdown_callback t w).
Proof.
  destruct (countdown_callback_socket t w) as (Hc & [Hp | (id & Hs & Hp)]).
  - now apply written_same.
  - split; [exact Hc |]. eexists. split; [exact Hp |].
    apply Forall_singleton. unfold end_update. eauto 10.
Qed.

Lemma fire_interval_written (w : World) (h : nat) : written w (fire_interval w h).
Proof.
  unfold fire_interval. destruct (List.find _ _); [| apply written_refl].
  case_decide; [apply countdown_callback_written | apply written_refl].
Qed.

Lemma fire_intervals_written (hs : list nat) (w : World) :
  written w (fold_left fire_interval hs w).
Proof.
  revert w. induction hs as [| h hs IH]; intros w; simpl; [apply written_refl |].
  eapply written_trans; [apply fire_interval_written | apply IH].
Qed.

Lemma emit_all_written (due : list TimeoutTask) (w : World) :
  written w (fold_left (λ w t, emit (sim_ai_interrupt (to_decision t)) w) due w).
Proof.
  revert w. induction due as [| t due IH]; intros w; cbn [fold_left];
    [apply written_refl |].
  eapply written_trans; [| apply IH]. now apply written_same.
Qed.

Lemma tick_ms_written (w : World) : written w (tick_ms w).
Proof.
  unfold tick_ms, fire_timeouts. cbv zeta.
  eapply written_trans; [| apply emit_all_written].
  eapply written_trans; [| apply written_same; reflexivity].
  eapply written_trans; [| apply fire_intervals_written].
  now apply written_same.
Qed.

Lemma elapse_written (n : nat) (w : World) : written w (elapse n w).
Proof.
  revert w. induction n as [| n IH]; intros w; cbn [elapse]; [apply written_refl |].
  eapply written_trans; [apply tick_ms_written | apply IH].
Qed.

Lemma heard_fields (frame : VoiceFrame) (c : SimSocket) :
  sessionId (heard frame c) = sessionId c
  ∧ userId (heard frame c) = userId c
  ∧ fullTranscript c `prefix_of` fullTranscript (heard frame c).
Proof.
  unfold heard. destruct (truthy (transcript frame)); cbn;
    repeat split; try reflexivity. now apply prefix_app_r.
Qed.

Lemma handleVoiceFrame_socket (frame : VoiceFrame) (rnd : Draws) (w : World) :
  let w' := handleVoiceFrame frame rnd w in
  sessionId (client w') = sessionId (client w)
  ∧ keeps_logs w w'
  ∧ ∃ added, prisma w' = prisma w ++ added
             ∧ Forall (λ op, ∀ i, about i op = false) added.
Proof.
  intros w'. subst w'. destruct (session_of (client w)) as [id |] eqn:Hs.
  - rewrite (handleVoiceFrame_after frame rnd w id Hs).
    unfold after_frame, socket_after, keeps_logs. cbv zeta.
    cbn [client prisma sessionId fullTranscript stepBackEvents aiInterventions].
    split; [reflexivity |]. split.
    + split; [apply heard_fields |].
      split; apply prefix_app_r; reflexivity.
    + eexists. split; [reflexivity |].
      apply Forall_map, Forall_true. now intros e i.
  - unfold handleVoiceFrame. rewrite Hs.
    split; [reflexivity |]. split; [repeat split; reflexivity |].
    exists []. now rewrite app_nil_r.
Qed.

(** *** The logs of the socket *)

#[local] Instance keeps_logs_refl : Reflexive keeps_logs.
Proof. intros w. repeat split; reflexivity. Qed.

#[local] Instance keeps_logs_trans : Transitive keeps_logs.
Proof.
  intros a b c (A1 & A2 & A3) (B1 & B2 & B3).
  repeat split; etrans; eassumption.
Qed.

Lemma keeps_logs_client (w w' : World) : client w' = client w → keeps_logs w w'.
Proof. intros E. unfold keeps_logs. rewrite E. repeat split; reflexivity. Qed.

Lemma step_keeps_logs (w : World) (e : Event) :
  not_connect e → keeps_logs w (step w e).
Proof.
  destruct e as [sub | config id | frame rnd | reason | | n]; cbn [step not_connect];
    intros He; try contradiction.
  - unfold handleStart, startCountdown, keeps_logs. cbv zeta. world_fields.
    cbn [fullTranscript stepBackEvents aiInterventions]. repeat split; reflexivity.
  - apply handleVoiceFrame_socket.
  - apply keeps_logs_client, handleEnd_socket.
  - apply keeps_logs_client, handleDisconnect_socket.
  - apply keeps_logs_client, elapse_written.
Qed.

(** X17. The logs of a socket belong to the connection, not to the
    session: nothing but a new connection empties them, so that after any
    starts, frames, ends and time the transcript, the step-back events and
    the interventions still begin with what they held before, and the
    record that [handleEnd] then writes for the session of the socket
    carries them whole, earlier sessions included. *)
Theorem logs_span_sessions (es : list Event) (w : World) :
  Forall not_connect es →
  let w' := run es w in
  keeps_logs w w'
  ∧ ∀ reason id, session_of (client w') = Some id →
      last (prisma (handleEnd reason w'))
      = Some (gTOTestSession_update id (now w')
                (join " " (fullTranscript (client w')))
                (stepBackEvents (client w')) (aiInterventions (client w'))
                (pressureEngine w' !! id) (end_reason reason)).
Proof.
  intros Hes w'. split.
  - subst w'. revert w. induction Hes as [| e es He _ IH]; intros w;
      cbn [run fold_left]; [reflexivity |].
    etrans; [apply (step_keeps_logs w e He) | apply IH].
  - intros reason id Hs.
    destruct (handleEnd_fields reason w' id Hs) as (_ & _ & _ & _ & _ & _ & _ & Hp & _).
    rewrite Hp. apply last_snoc.
Qed.

Lemma logs_span_sessions_witness :
  let es := [Frame speech delayed; End None; Start five_minutes "t"] in
  Forall not_connect es
  ∧ fullTranscript (client (run es started)) = ["we build the bridge first"]
  ∧ session_of (client (run es started)) = Some "t"
  ∧ ∃ t sbs ivs st,
      last (prisma (handleEnd None (run es started)))
      = Some (gTOTestSession_update "t" t "we build the bridge first" sbs ivs st
                "MANUAL").
Proof.
  intros es.
  assert (Hes : Forall not_connect es) by (repeat constructor).
  split; [exact Hes |].
  assert (Htr : fullTranscript (client (run es started)) = ["we build the bridge first"])
    by (vm_compute; reflexivity).
  assert (Hs : session_of (client (run es started)) = Some "t")
    by (vm_compute; reflexivity).
  split; [exact Htr |]. split; [exact Hs |].
  destruct (logs_span_sessions es started Hes) as [_ H].
  specialize (H None "t" Hs). rewrite Htr in H.
  eexists _, _, _, _. exact H.
Defined.

(** *** A session left behind *)

Lemma status_of_app (id : string) (log added : list DbOp) :
  Forall (λ op, about id op = false) added →
  status_of id (log ++ added) = status_of id log.
Proof.
  intros Hall. unfold status_of. rewrite fold_left_app.
  match goal with |- fold_left ?f added ?st = _ => generalize st end.
  induction Hall as [| op added Hop _ IH]; intros st; cbn [fold_left];
    [reflexivity |].
  rewrite IH.
  destruct op; cbn [about] in Hop; try reflexivity;
    apply bool_decide_eq_false_1 in Hop; now rewrite decide_False.
Qed.

Lemma away_trans (id : string) (a b c : World) :
  away id a b → away id b c → away id a c.
Proof.
  intros (_ & l1 & P1 & F1) (S2 & l2 & P2 & F2).
  split; [exact S2 |]. exists (l1 ++ l2).
  rewrite P2, P1, <- app_assoc. split; [reflexivity |].
  now apply Forall_app.
Qed.

Lemma written_away (id : string) (w w' : World) :
  sessionId (client w) ≠ Some id → written w w' → away id w w'.
Proof.
  intros Hid (Hc & added & Hp & Hf). split; [now rewrite Hc |].
  exists added. split; [exact Hp |].
  eapply Forall_impl; [exact Hf |]. intros op Hop.
  now apply (end_update_about (client w)).
Qed.

Lemma step_away (id : string) (w : World) (e : Event) :
  sessionId (client w) ≠ Some id → not_start id e → away id w (step w e).
Proof.
  intros Hid He.
  destruct e as [sub | config i | frame rnd | reason | | n]; cbn [step not_start] in *.
  - unfold handleConnection, away. destruct sub; world_fields; cbn [sessionId];
      (split; [exact Hid |]); exists []; now rewrite app_nil_r.
  - unfold handleStart, startCountdown, away. cbv zeta. world_fields.
    cbn [sessionId]. split; [congruence |].
    eexists. split; [reflexivity |]. apply Forall_singleton. cbn [about].
    now apply bool_decide_eq_false_2.
  - destruct (handleVoiceFrame_socket frame rnd w) as (Hs & _ & added & Hp & Hf).
    split; [now rewrite Hs |]. exists added. split; [exact Hp |].
    eapply Forall_impl; [exact Hf |]. intros op Hop. apply Hop.
  - apply written_away; [exact Hid | apply handleEnd_written].
  - apply written_away; [exact Hid |]. apply written_same; apply handleDisconnect_socket.
  - apply written_away; [exact Hid | apply elapse_written].
Qed.

(** X18. A session that the socket has left for another one is never
    completed: once the socket bears another session id, no event (end,
    timeout of either countdown, frame, disconnect, new connection or
    start of yet another session) writes the record of the session, whose
    status stays what it was. *)
Theorem left_session_never_completed (id : string) (es : list Event) (w : World) :
  sessionId (client w) ≠ Some id →
  Forall (not_start id) es →
  status_of id (prisma (run es w)) = status_of id (prisma w).
Proof.
  intros Hid Hes.
  assert (H : away id w (run es w)).
  { revert w Hid. induction Hes as [| e es He _ IH]; intros w Hid;
      cbn [run fold_left].
    - split; [exact Hid |]. exists []. now rewrite app_nil_r.
    - pose proof (step_away id w e Hid He) as H1.
      eapply away_trans; [exact H1 |]. apply IH. apply H1. }
  destruct H as (_ & added & -> & Hf). now apply status_of_app.
Qed.

Lemma left_session_never_completed_witness :
  let w := handleStart five_minutes "t" started in
  let es := [Elapse (seconds 10); End None; Disconnect] in
  status_of "s" (prisma w) = Some ACTIVE
  ∧ status_of "s" (prisma (run es w)) = Some ACTIVE
  ∧ status_of "t" (prisma (run es w)) = Some COMPLETED
  ∧ intervals (run es w) = [].
Proof.
  intros w es.
  assert (H0 : status_of "s" (prisma w) = Some ACTIVE) by (vm_compute; reflexivity).
  split; [exact H0 |]. split.
  - rewrite <- H0. apply (left_session_never_completed "s" es w).
    + vm_compute. discriminate.
    + repeat constructor.
  - split; vm_compute; reflexivity.
Defined.


(** *** What the gateway records *)






End SuccessionFacts.

(** ** The scores and the diagram of the analysis *)

Module AnalysisFacts.
Import JS.
Import JSFacts.
Import Voice.
Import Pressure.
Import Gateway.
Import Analysis.
Import Endpoint.
Import Samples.
Import Scenarios.
Import WindowFacts.
Import EndFacts.

(** The loop over the step-backs: one node for each, numbered from the
    counter on. *)
Lemma nodes_loop (events : list StepBackEvent) :
  ∀ (nodes : list ExecutionNode) (k : Z),
    fold_left
      (λ '(executionNodes, nodeId) event,
         (executionNodes ++ [step_back_node nodeId event], nodeId + 1))
      events (nodes, k)
    = (nodes ++ imap (λ j e, step_back_node (k + Z.of_nat j) e) events,
       k + Z.of_nat (length events)).
Proof.
  induction events as [| e events IH]; intros nodes k.
  - cbn. rewrite app_nil_r. f_equal. lia.
  - cbn [fold_left]. rewrite IH. cbn [imap length].
    rewrite <- app_assoc. cbn [app]. f_equal.
    + do 2 f_equal; [f_equal; lia |].
      apply imap_ext. intros j x _. cbn. f_equal. lia.
    + lia.
Qed.

Lemma generateLocalAnalysis_scores (sd : SessionData) :
  let n := Z.of_nat (length (sd_stepBackEvents sd)) in
  let i := Z.of_nat (length (sd_aiInterventions sd)) in
  scores (generateLocalAnalysis sd)
  = {| overall :=
         Z.max 0 (70 - Z.min 40 (n * 8)
                  - Z.max 0 ((currentLevel (sd_pressureState sd) - 2) * 5));
       commandPresence := Z.max 0 (80 - Z.min 40 (n * 8));
       voiceProjection :=
         Z.max 0 (75 - Z.of_nat (length (List.filter is_volume_issue
                                           (sd_stepBackEvents sd))) * 15);
       planningStructure :=
         Z.max 0 (70 - Z.of_nat (length (List.filter is_idea_abandon
                                           (sd_stepBackEvents sd))) * 20);
       interruptionHandling :=
         if decide (0 < length (sd_aiInterventions sd))%nat
         then Math_round (inject_Z (i - n) / inject_Z i * 100)
         else 100 |}.
Proof.
  unfold generateLocalAnalysis. cbv zeta. rewrite nodes_loop. reflexivity.
Qed.

Lemma generateLocalAnalysis_nodes (sd : SessionData) :
  executionNodes (generateLocalAnalysis sd)
  = mkNode 0 0 PLANNING "Session Start — Planning Phase" 80 1 false [1]
    :: imap (λ j e, step_back_node (1 + Z.of_nat j) e) (sd_stepBackEvents sd)
    ++ [mkNode (1 + Z.of_nat (length (sd_stepBackEvents sd)))
          (sd_durationSec sd * 1000) EXECUTION "Session End"
          (inject_Z (overall (scores (generateLocalAnalysis sd))))
          (currentLevel (sd_pressureState sd)) false []].
Proof.
  rewrite generateLocalAnalysis_scores. cbn [overall].
  unfold generateLocalAnalysis. cbv zeta. rewrite nodes_loop. reflexivity.
Qed.

Lemma handled_le (i n : Z) :
  0 < i → 0 ≤ n → (inject_Z (i - n) / inject_Z i * 100 <= 100)%Q.
Proof.
  intros Hi Hn.
  assert (Hq : (0 < inject_Z i)%Q) by (rewrite <- (Zlt_Qlt 0); exact Hi).
  assert (Hd : (inject_Z (i - n) / inject_Z i <= 1)%Q).
  { apply Qle_shift_div_r; [exact Hq |]. rewrite Qmult_1_l, <- Zle_Qle. lia. }
  lra.
Qed.

Lemma handled_ge (i n : Z) :
  0 < i → n ≤ i → (0 <= inject_Z (i - n) / inject_Z i * 100)%Q.
Proof.
  intros Hi Hn.
  assert (Hq : (0 < inject_Z i)%Q) by (rewrite <- (Zlt_Qlt 0); exact Hi).
  assert (Hd : (0 <= inject_Z (i - n) / inject_Z i)%Q).
  { apply Qle_shift_div_l; [exact Hq |]. rewrite Qmult_0_l, <- (Zle_Qle 0). lia. }
  lra.
Qed.

Lemma handled_negative (i n : Z) :
  0 < i → 2 * i ≤ n → (inject_Z (i - n) / inject_Z i * 100 <= -100)%Q.
Proof.
  intros Hi Hn.
  assert (Hq : (0 < inject_Z i)%Q) by (rewrite <- (Zlt_Qlt 0); exact Hi).
  assert (Hd : (inject_Z (i - n) / inject_Z i <= -1)%Q).
  { apply Qle_shift_div_r; [exact Hq |].
    assert (H : (inject_Z (i - n) <= inject_Z (- i))%Q)
      by (rewrite <- Zle_Qle; lia).
    rewrite inject_Z_opp in H. lra. }
  lra.
Qed.

Lemma local_scores_ranges_aux (sd : SessionData) :
  let s := scores (generateLocalAnalysis sd) in
  0 ≤ overall s ≤ 70
  ∧ (overall s = 70
     ↔ length (sd_stepBackEvents sd) = 0%nat
       ∧ currentLevel (sd_pressureState sd) ≤ 2).
Proof.
  intros s. subst s. rewrite generateLocalAnalysis_scores. cbv zeta.
  cbn [overall]. lia.
Qed.

(** X20. The scores of the rule-based analysis, for any session data: the
    overall score is from 0 to 70, and 70 only with no step-back and a final
    level of at most 2; command presence is from 40 to 80; voice projection
    from 0 to 75; planning structure from 0 to 70; interruption handling is
    at most 100, not negative when the step-backs are no more than the
    interventions, and -100 or less when they are twice as many or
    more. *)
Theorem local_scores_ranges (sd : SessionData) :
  let s := scores (generateLocalAnalysis sd) in
  let n := length (sd_stepBackEvents sd) in
  let i := length (sd_aiInterventions sd) in
  0 ≤ overall s ≤ 70
  ∧ (overall s = 70 ↔ n = 0%nat ∧ currentLevel (sd_pressureState sd) ≤ 2)
  ∧ 40 ≤ commandPresence s ≤ 80
  ∧ 0 ≤ voiceProjection s ≤ 75
  ∧ 0 ≤ planningStructure s ≤ 70
  ∧ interruptionHandling s ≤ 100
  ∧ ((n ≤ i)%nat → 0 ≤ interruptionHandling s)
  ∧ ((0 < i)%nat → (2 * i ≤ n)%nat → interruptionHandling s ≤ -100).
Proof.
  intros s n i. subst s. rewrite generateLocalAnalysis_scores. cbv zeta.
  cbn [overall commandPresence voiceProjection planningStructure
       interruptionHandling].
  fold n i.
  split; [lia |]. split; [lia |]. split; [lia |]. split; [lia |]. split; [lia |].
  split; [| split].
  - case_decide as Hi; [| lia].
    pose proof (Math_round_le_100 _ (handled_le (Z.of_nat i) (Z.of_nat n)
                                       ltac:(lia) ltac:(lia))) as H.
    change 100%Q with (inject_Z 100) in H at 2. now rewrite <- Zle_Qle in H.
  - intros Hle. case_decide as Hi; [| lia].
    pose proof (Math_round_nonneg _ (handled_ge (Z.of_nat i) (Z.of_nat n)
                                       ltac:(lia) ltac:(lia))) as H.
    change 0%Q with (inject_Z 0) in H. now rewrite <- Zle_Qle in H.
  - intros Hi Hn. rewrite decide_True by exact Hi.
    pose proof (handled_negative (Z.of_nat i) (Z.of_nat n) ltac:(lia) ltac:(lia))
      as H.
    unfold Math_round. change (-100) with (Qfloor (-100 + (1 # 2))).
    apply Qfloor_resp_le. lra.
Qed.

Lemma local_scores_ranges_witness :
  let e := mkStepBack 5000 VOLUME_DROP SEVERE 90 50 "go" "Why?" "quiet" in
  let sd := mkSessionData [e; e] [mkIntervention 20000 "Why?" CHALLENGE 1]
              (mkPressureState 3 1 1 20000 2 []) 300 in
  interruptionHandling (scores (generateLocalAnalysis sd)) ≤ -100
  ∧ overall (scores (generateLocalAnalysis sd)) ≤ 70.
Proof.
  intros e sd.
  destruct (local_scores_ranges sd) as (Ho & _ & _ & _ & _ & _ & _ & H).
  split; [apply H; simpl; lia | apply Ho].
Defined.


(** *** The grade *)

Lemma ge_integer (z k : Z) : ge (inject_Z z) (inject_Z k) = bool_decide (k ≤ z).
Proof.
  unfold ge. destruct (Qle_bool _ _) eqn:L.
  - apply Qle_bool_iff in L. rewrite <- Zle_Qle in L.
    now rewrite bool_decide_eq_true_2.
  - apply not_true_iff_false in L. rewrite Qle_bool_iff, <- Zle_Qle in L.
    now rewrite bool_decide_eq_false_2.
Qed.

(** X21. Without a reply of the model the analysis never grades a session
    A: the overall score is the rule-based one, at most 70, so that the
    grade is B exactly when there is no step-back and the final level is at
    most 2, and otherwise C, D or F by the thresholds 55 and 40.  With or
    without a reply, the interruption-handling score is the rule-based
    one. *)
Theorem grade_without_model (sd : SessionData) :
  let local := scores (generateLocalAnalysis sd) in
  let t := generateAnalysis None sd in
  overallScore t = inject_Z (overall local)
  ∧ overallGrade t ≠ A
  ∧ (overallGrade t = B
     ↔ sd_stepBackEvents sd = [] ∧ currentLevel (sd_pressureState sd) ≤ 2)
  ∧ (overallGrade t = C ↔ 55 ≤ overall local < 70)
  ∧ (overallGrade t = D ↔ 40 ≤ overall local < 55)
  ∧ (overallGrade t = F ↔ overall local < 40)
  ∧ ∀ ai, interruptionHandlingScore (generateAnalysis ai sd)
          = inject_Z (interruptionHandling local).
Proof.
  intros local t. subst t.
  destruct (local_scores_ranges_aux sd) as (Hr & H70).
  fold local in Hr, H70.
  unfold generateAnalysis, mergeAnalysis, score_or. cbv zeta.
  cbn [overallScore overallGrade interruptionHandlingScore mbind option_bind default].
  fold local.
  change 85%Q with (inject_Z 85). change 70%Q with (inject_Z 70).
  change 55%Q with (inject_Z 55). change 40%Q with (inject_Z 40).
  rewrite !ge_integer.
  split; [reflexivity |].
  assert (Hnil : sd_stepBackEvents sd = [] ↔ length (sd_stepBackEvents sd) = 0%nat)
    by (destruct (sd_stepBackEvents sd); split; intros; try discriminate; reflexivity).
  rewrite Hnil, <- H70.
  repeat case_bool_decide;
    (split; [try discriminate; lia |]);
    repeat split; intros; try discriminate; try reflexivity; lia.
Qed.


(** *** The execution diagram *)

(** X22. The execution diagram is a chain: with [n] step-back events it has
    [n + 2] nodes whose ids are their positions; each node but the last
    has the next one as its only child and the last has none; the first
    is the start at 0 ms, the last the end at the duration of the session
    with the overall score and the final level, and the nodes between them
    are the step-backs in their order, each with the timestamp and the
    confidence after of its event, at pressure level 0. *)
Theorem execution_diagram_chain (sd : SessionData) :
  let nodes := executionNodes (generateLocalAnalysis sd) in
  let events := sd_stepBackEvents sd in
  let n := length events in
  length nodes = S (S n)
  ∧ (∀ i node, nodes !! i = Some node →
       en_id node = Z.of_nat i
       ∧ children node = (if decide (i = S n) then [] else [Z.of_nat i + 1])
       ∧ wasStepBack node = bool_decide (0 < i ≤ n)%nat)
  ∧ (∀ j e, events !! j = Some e →
       ∃ node, nodes !! S j = Some node
         ∧ en_timestamp node = sb_timestamp e
         ∧ confidenceAt node = confidenceAfter e
         ∧ en_phase node = FAILURE_POINT
         ∧ pressureLevelAt node = 0)
  ∧ (∃ first, nodes !! 0%nat = Some first
       ∧ en_timestamp first = 0 ∧ en_phase first = PLANNING)
  ∧ (∃ final, nodes !! S n = Some final
       ∧ en_timestamp final = sd_durationSec sd * 1000
       ∧ confidenceAt final
         = inject_Z (overall (scores (generateLocalAnalysis sd)))
       ∧ pressureLevelAt final = currentLevel (sd_pressureState sd)).
Proof.
  intros nodes events n. subst nodes. rewrite generateLocalAnalysis_nodes.
  fold events. fold n.
  set (mid := imap (λ j e, step_back_node (1 + Z.of_nat j) e) events).
  assert (Hmid : length mid = n) by (subst mid; apply length_imap).
  split; [cbn [length]; rewrite length_app, Hmid; simpl; lia |].
  split; [| split; [| split]].
  - intros i node. destruct i as [| i]; cbn [lookup list_lookup].
    + intros [= <-]. cbn. rewrite decide_False by lia.
      rewrite bool_decide_eq_false_2 by lia. repeat split.
    + change ((mid ++ ?l) !! i = Some node → ?G)
        with ((mid ++ l) !! i = Some node → G).
      destruct (decide (i < n)%nat) as [Hlt | Hge].
      * rewrite lookup_app_l by lia. subst mid. rewrite list_lookup_imap.
        destruct (events !! i) as [e |] eqn:He; [| discriminate].
        intros [= <-]. cbn. rewrite decide_False by lia.
        rewrite bool_decide_eq_true_2 by lia.
        repeat split; f_equal; lia.
      * rewrite lookup_app_r by lia. rewrite Hmid.
        destruct (i - n)%nat as [| k] eqn:Hk; [| intros H; inversion H].
        intros [= <-]. cbn. assert (i = n) as -> by lia.
        rewrite decide_True by reflexivity.
        rewrite bool_decide_eq_false_2 by lia.
        repeat split. lia.
  - intros j e He. exists (step_back_node (1 + Z.of_nat j) e).
    split; [| repeat split].
    change ((mid ++ ?l) !! j = ?x) with ((mid ++ l) !! j = x).
    cbn [lookup list_lookup].
    change ((mid ++ ?l) !! j = ?x) with ((mid ++ l) !! j = x).
    rewrite lookup_app_l by (rewrite Hmid; eapply lookup_lt_Some; exact He).
    subst mid. rewrite list_lookup_imap. fold events. now rewrite He.
  - eexists. split; [reflexivity | now split].
  - exists (mkNode (1 + Z.of_nat n) (sd_durationSec sd * 1000) EXECUTION
              "Session End"
              (inject_Z (overall (scores (generateLocalAnalysis sd))))
              (currentLevel (sd_pressureState sd)) false []).
    split; [| repeat split].
    cbn [lookup list_lookup].
    change ((mid ++ ?l) !! n = ?x) with ((mid ++ l) !! n = x).
    rewrite lookup_app_r by lia. rewrite Hmid, Nat.sub_diag. reflexivity.
Qed.

Lemma execution_diagram_chain_witness :
  let e := mkStepBack 5000 VOLUME_DROP SEVERE 90 50 "go" "Why?" "quiet" in
  let sd := mkSessionData [e; e] [mkIntervention 20000 "Why?" CHALLENGE 1]
              (mkPressureState 3 1 1 20000 2 []) 300 in
  ∃ node, executionNodes (generateLocalAnalysis sd) !! 2%nat = Some node
    ∧ en_id node = 2 ∧ children node = [3] ∧ wasStepBack node = true
    ∧ en_timestamp node = 5000.
Proof.
  intros e sd.
  destruct (execution_diagram_chain sd) as (_ & Hall & Hev & _).
  destruct (Hev 1%nat e eq_refl) as (node & Hn & Ht & _).
  destruct (Hall 2%nat node Hn) as (Hi & Hc & Hw).
  exists node. split; [exact Hn |]. split; [exact Hi |].
  split; [exact Hc |]. split; [exact Hw | exact Ht].
Defined.


(** *** The lists of the result *)

Lemma getImpactedOlqs_self_confidence (e : StepBackEvent) :
  "Self Confidence" ∈ getImpactedOlqs e
  ∧ (3 ≤ length (getImpactedOlqs e) ≤ 4)%nat.
Proof.
  unfold getImpactedOlqs. destruct (sb_type e); cbn [length];
    (split; [| lia]); repeat first [apply list_elem_of_here | apply list_elem_of_further].
Qed.

(** X23. The lists of the result follow the step-back events: there is
    one breakdown for each event, in their order, each naming 3 or 4
    qualities of which Self Confidence is one; and the mini-class has from
    3 to 5 topics with distinct ids, of which the first three are the
    basic ones whatever the events are. *)
Theorem analysis_lists (ai : option AiAnalysis) (sd : SessionData) :
  let t := generateAnalysis ai sd in
  map bd_event (stepBackAnalysis t) = sd_stepBackEvents sd
  ∧ Forall (λ b, olqImpacted b = getImpactedOlqs (bd_event b)
                 ∧ "Self Confidence" ∈ olqImpacted b
                 ∧ (3 ≤ length (olqImpacted b) ≤ 4)%nat) (stepBackAnalysis t)
  ∧ take 3 (map topic_id (miniClassTopics t))
    = ["gto-basics"; "command-presence"; "voice-projection"]
  ∧ NoDup (map topic_id (miniClassTopics t))
  ∧ (3 ≤ length (miniClassTopics t) ≤ 5)%nat.
Proof.
  intros t. subst t. unfold generateAnalysis, mergeAnalysis. cbv zeta.
  cbn [stepBackAnalysis miniClassTopics].
  assert (Hb : stepBackBreakdowns (generateLocalAnalysis sd)
               = map (λ event, mkBreakdown event (getImpactedOlqs event))
                   (sd_stepBackEvents sd)).
  { unfold generateLocalAnalysis. cbv zeta. rewrite nodes_loop. reflexivity. }
  rewrite Hb. split.
  { rewrite map_map. cbn [bd_event]. apply map_id. }
  split.
  { apply Forall_map, Forall_true. intros e. cbn [olqImpacted bd_event].
    split; [reflexivity | apply getImpactedOlqs_self_confidence]. }
  unfold generateMiniClass. cbv zeta.
  destruct (existsb is_idea_abandon _),
    (existsb is_hesitation _ || existsb is_volume_issue _);
    cbn [app map topic_id take length];
    (split; [reflexivity |]); (split; [| lia]);
    refine (bool_decide_unpack (NoDup _) _); vm_compute; exact I.
Qed.


(** *** The record behind the endpoint *)

Lemma record_of_snoc (id : string) (log : list DbOp) (op : DbOp) :
  record_of id (log ++ [op])
  = match op with
    | gTOTestSession_create i _ config _ =>
        if decide (i = id)
        then Some (mkStored (durationSec config) ACTIVE None None)
        else record_of id log
    | gTOTestSession_update i _ transcript stepBackEvents aiInterventions
        pressureFinalState endReason =>
        if decide (i = id)
        then (λ r, mkStored (ss_durationSec r) COMPLETED (Some transcript)
                     (Some (mkEndMetadata stepBackEvents aiInterventions
                              pressureFinalState endReason)))
             <$> record_of id log
        else record_of id log
    | agentLog_create _ _ _ => record_of id log
    end.
Proof. unfold record_of. now rewrite fold_left_app. Qed.

Lemma status_of_snoc (id : string) (log : list DbOp) (op : DbOp) :
  status_of id (log ++ [op])
  = match op with
    | gTOTestSession_create i _ _ _ =>
        if decide (i = id) then Some ACTIVE else status_of id log
    | gTOTestSession_update i _ _ _ _ _ _ =>
        if decide (i = id) then Some COMPLETED else status_of id log
    | agentLog_create _ _ _ => status_of id log
    end.
Proof. unfold status_of. now rewrite fold_left_app. Qed.

(** A record that the log leaves active has not been ended. *)
Lemma active_record (id : string) (log : list DbOp) :
  match status_of id log with
  | Some ACTIVE =>
      ∃ r, record_of id log = Some r ∧ ss_ended r = None ∧ ss_status r = ACTIVE
  | Some COMPLETED => True
  | None => record_of id log = None
  end.
Proof.
  induction log as [| op log IH] using rev_ind; [reflexivity |].
  rewrite status_of_snoc, record_of_snoc.
  destruct op as [i uid config t | i t tr sbs ivs st r | uid e st];
    try exact IH; case_decide; try exact IH; [| exact I].
  eexists. repeat split.
Qed.

(** X25. The analysis endpoint does not look at the status of the session:
    for a session whose record was created and never updated (one left by
    a disconnect or by a new start), it analyses empty logs at level 1 and,
    without a reply of the model, returns the grade B with the scores 70,
    80, 75, 70 and 100, no breakdown and a diagram of the two end nodes;
    for a session with no record it throws. *)
Theorem unfinished_session_analysis (id : string) (log : list DbOp) :
  (status_of id log = Some ACTIVE →
     ∃ t, analysis_endpoint None id log = Normal t
       ∧ overallGrade t = B
       ∧ overallScore t = 70%Q
       ∧ commandPresenceScore t = 80%Q
       ∧ voiceProjectionScore t = 75%Q
       ∧ planningStructureScore t = 70%Q
       ∧ interruptionHandlingScore t = 100%Q
       ∧ stepBackAnalysis t = []
       ∧ length (executionDiagram t) = 2%nat)
  ∧ (status_of id log = None →
       ∀ ai, analysis_endpoint ai id log = Throw "NotFoundError").
Proof.
  pose proof (active_record id log) as H. split; intros Hs; rewrite Hs in H.
  - destruct H as (r & Hr & He & _). unfold analysis_endpoint. rewrite Hr.
    eexists. split; [reflexivity |].
    destruct r as [dur st tr ended]. cbn [ss_ended] in He. subst ended.
    repeat split.
  - intros ai. unfold analysis_endpoint. now rewrite H.
Qed.

Lemma unfinished_session_analysis_witness :
  let log := prisma (run [Elapse (seconds 4); Frame speech delayed; Disconnect]
                       started) in
  status_of "s" log = Some ACTIVE
  ∧ ∃ t, analysis_endpoint None "s" log = Normal t
      ∧ overallGrade t = B ∧ overallScore t = 70%Q.
Proof.
  intros log.
  assert (Hs : status_of "s" log = Some ACTIVE) by (vm_compute; reflexivity).
  split; [exact Hs |].
  destruct (unfinished_session_analysis "s" log) as [H _].
  destruct (H Hs) as (t & Ht & Hg & Ho & _).
  exists t. split; [exact Ht |]. split; [exact Hg | exact Ho].
Defined.

(** X26. A second end of a session replaces its record: the update of the
    first [handleEnd] stores the state that the engine held for the
    session, the update of the second one stores none, and the endpoint
    then analyses the same logs at the default level 1, with no pressure
    penalty: the overall score is 70 less 8 for each step-back (40 at
    most) and not less than after the first end. *)
Theorem duplicate_end_drops_pressure_state (r1 r2 : option string) (w : World)
    (id : string) (rec0 : StoredSession) :
  session_of (client w) = Some id →
  record_of id (prisma w) = Some rec0 →
  let w1 := handleEnd r1 w in
  let w2 := handleEnd r2 w1 in
  ∃ rec1 rec2,
    record_of id (prisma w1) = Some rec1
    ∧ record_of id (prisma w2) = Some rec2
    ∧ sd_pressureState (session_data rec1)
      = default (mkPressureState 1 0 0 0 0 []) (pressureEngine w !! id)
    ∧ sd_pressureState (session_data rec2) = mkPressureState 1 0 0 0 0 []
    ∧ sd_stepBackEvents (session_data rec1) = stepBackEvents (client w)
    ∧ sd_stepBackEvents (session_data rec2) = stepBackEvents (client w)
    ∧ sd_aiInterventions (session_data rec2) = aiInterventions (client w)
    ∧ overall (scores (generateLocalAnalysis (session_data rec2)))
      = Z.max 0 (70 - Z.min 40 (Z.of_nat (length (stepBackEvents (client w))) * 8))
    ∧ overall (scores (generateLocalAnalysis (session_data rec1)))
      ≤ overall (scores (generateLocalAnalysis (session_data rec2))).
Proof.
  intros Hid Hrec w1 w2.
  destruct (handleEnd_fields r1 w id Hid)
    as (_ & _ & _ & _ & Fp & Fc & _ & Fdb & _).
  fold w1 in Fp, Fc, Fdb.
  assert (Hid1 : session_of (client w1) = Some id) by now rewrite Fc.
  destruct (handleEnd_fields r2 w1 id Hid1)
    as (_ & _ & _ & _ & _ & _ & _ & Gdb & _).
  fold w2 in Gdb.
  assert (Hgone : pressureEngine w1 !! id = None)
    by (rewrite Fp; apply lookup_delete_eq).
  rewrite Hgone, Fdb, Fc in Gdb. clearbody w1 w2.
  eexists _, _.
  split; [rewrite Fdb, record_of_snoc, decide_True, Hrec by reflexivity; reflexivity |].
  split; [rewrite Gdb, !record_of_snoc, !decide_True, Hrec by reflexivity;
          reflexivity |].
  cbn [session_data sd_pressureState sd_stepBackEvents sd_aiInterventions
       ss_ended fmap option_fmap option_map mbind option_bind default
       md_stepBackEvents md_aiInterventions md_pressureFinalState].
  repeat (split; [reflexivity |]).
  rewrite !generateLocalAnalysis_scores. cbv zeta.
  cbn [overall session_data sd_stepBackEvents sd_pressureState currentLevel
       ss_ended fmap option_fmap option_map mbind option_bind default
       md_stepBackEvents md_aiInterventions md_pressureFinalState].
  unfold Datatypes.id. split; lia.
Qed.

Lemma duplicate_end_drops_pressure_state_witness :
  let w := with_pressure strained (handleStart five_minutes "s" ready) in
  ∃ rec1 rec2,
    record_of "s" (prisma (handleEnd None w)) = Some rec1
    ∧ record_of "s" (prisma (handleEnd None (handleEnd None w))) = Some rec2
    ∧ currentLevel (sd_pressureState (session_data rec1)) = 4
    ∧ currentLevel (sd_pressureState (session_data rec2)) = 1.
Proof.
  intros w.
  destruct (duplicate_end_drops_pressure_state None None w "s"
              (mkStored 300 ACTIVE None None) eq_refl eq_refl)
    as (rec1 & rec2 & H1 & H2 & P1 & P2 & _).
  exists rec1, rec2. split; [exact H1 |]. split; [exact H2 |].
  split; [rewrite P1; reflexivity | rewrite P2; reflexivity].
Defined.

End AnalysisFacts.

(** ** Countdowns of any length *)

Module TickFacts.
Import JS.
Import Voice.
Import Pressure.
Import Gateway.
Import Countdown.
Import Ticks.
Import CountdownFacts.
Import Scenarios.

Lemma tick_emissions_ticks (id : string) (d r : Z) :
  List.filter is_tick (tick_emissions id d r)
  = if decide (Z.rem r 5 = 0) then [tick_at id d r] else [].
Proof. unfold tick_emissions. repeat case_decide; reflexivity. Qed.

Lemma ticks_elem (id : string) (d : Z) (j : nat) :
  ∀ r x,
    x ∈ List.filter is_tick (ticks id d r j)
    ↔ ∃ q, r - Z.of_nat j ≤ q < r ∧ Z.rem q 5 = 0 ∧ x = tick_at id d q.
Proof.
  induction j as [| j IH]; intros r x.
  - cbn [ticks List.filter]. split; [intros H; inversion H |].
    intros (q & Hq & _). lia.
  - cbn [ticks]. rewrite List.filter_app, elem_of_app, IH, tick_emissions_ticks.
    split.
    + intros [H | (q & Hq & H5 & ->)].
      * case_decide as H5; [| inversion H].
        apply list_elem_of_singleton in H as ->. exists (r - 1).
        split; [lia | now split].
      * exists q. split; [lia | now split].
    + intros (q & Hq & H5 & ->).
      destruct (decide (q = r - 1)) as [-> | Hne].
      * left. rewrite decide_True by exact H5. apply list_elem_of_here.
      * right. exists q. split; [lia | now split].
Qed.

Lemma ticks_length (id : string) (d : Z) (j : nat) :
  ∀ r, Z.of_nat j ≤ r →
    Z.of_nat (length (List.filter is_tick (ticks id d r j)))
    = (r + 4) `div` 5 - (r - Z.of_nat j + 4) `div` 5.
Proof.
  induction j as [| j IH]; intros r Hr.
  - cbn [ticks List.filter length]. replace (r - Z.of_nat 0) with r by lia. lia.
  - cbn [ticks]. rewrite List.filter_app, length_app, Nat2Z.inj_add.
    rewrite IH by lia. rewrite tick_emissions_ticks.
    replace (r - 1 - Z.of_nat j) with (r - Z.of_nat (S j)) by lia.
    replace (r - 1 + 4) with (r + 3) by lia.
    rewrite Z.rem_mod_nonneg by lia.
    case_decide as H5; cbn [length]; Z.div_mod_to_equations; lia.
Qed.

(** *** The phases of a countdown of any length *)

Lemma at_phase_same (id : string) (h : nat) (d : Z) (w0 : World) (ph : Phase)
    (w w' : World) :
  at_phase id h d w0 ph w → same_countdown id w w' → at_phase id h d w0 ph w'.
Proof.
  intros (Hs & Hph) (S1 & S2 & S3 & S4 & S5 & S6 & S7).
  split; [congruence |]. destruct ph as [j m |].
  - destruct Hph as (Hj & Hm & Hn & Hi & Ht & He & Hu & Hto).
    repeat split; try lia; congruence.
  - destruct Hph as (Hn & Hi & Ht & He & Hu & Hto).
    repeat split; try lia; congruence.
Qed.

Lemma tick_ms_at_phase (id : string) (h : nat) (d : Z) (w0 : World) (ph : Phase)
    (w : World) :
  at_phase id h d w0 ph w → at_phase id h d w0 (next (firings d) ph) (tick_ms w).
Proof.
  intros Hph. unfold tick_ms. cbv zeta.
  eapply at_phase_same; [| apply fire_timeouts_same].
  destruct Hph as (Hs & Hph). destruct ph as [j m |].
  - destruct Hph as (Hj & Hm & Hn & Hi & Ht & He & Hu & Hto).
    world_fields. rewrite Hi. cbn [map fold_left it_handle].
    unfold fire_interval. world_fields. rewrite Hi.
    cbn [List.find it_handle]. rewrite bool_decide_true by reflexivity.
    cbn [it_due]. set (t := mkInterval _ _ _ _ _).
    set (W1 := with_now (now w + 1) w).
    assert (Hi1 : intervals W1 = [t]) by exact Hi.
    unfold next. destruct (decide (m = 999)) as [-> | Hm9].
    + rewrite (decide_True (P := _ ≤ _)) by lia.
      destruct (decide (S j = firings d)) as [Hk | Hk].
      * destruct (callback_final t W1 Hi1) as (Fn & Fc & Fi & Fdb & Fw);
          [cbn [it_remaining t]; unfold firings in Hk; lia | exact Hs |].
        cbn [it_sessionId it_durationSec it_remaining t] in Fdb, Fw.
        change (wire W1) with (wire w) in Fw.
        change (prisma W1) with (prisma w) in Fdb.
        change (now W1) with (now w + 1) in Fn.
        split; [now rewrite Fc |].
        replace (d - Z.of_nat j - 1) with (d - Z.of_nat (S j)) in Fw by lia.
        rewrite <- Hk.
        split; [rewrite Fn; lia |].
        split; [exact Fi |].
        split; [| split; [| split]].
        -- rewrite Fw, !List.filter_app, Ht, ticks_snoc, List.filter_app.
           cbn [List.filter is_tick snd time_up]. rewrite app_nil_r.
           now rewrite <- app_assoc.
        -- unfold count in *. rewrite Fw, !List.filter_app, !length_app.
           rewrite tick_emissions_not_ended.
           cbn [List.filter is_ended snd time_up length]. lia.
        -- unfold count in *. rewrite Fdb, List.filter_app, length_app.
           cbn [List.filter is_update length]. lia.
        -- unfold count in *. rewrite Fdb, List.filter_app, length_app.
           cbn [List.filter is_timeout_update length].
           rewrite !bool_decide_true by reflexivity.
           cbn [andb length]. lia.
      * destruct (callback_running t W1 Hi1) as (Fn & Fc & Fdb & Fi & Fw);
          [cbn [it_remaining t]; unfold firings in Hj, Hk; lia |].
        cbn [it_handle it_sessionId it_durationSec it_remaining it_due t] in Fi, Fw.
        change (wire W1) with (wire w) in Fw.
        change (prisma W1) with (prisma w) in Fdb.
        change (now W1) with (now w + 1) in Fn.
        split; [now rewrite Fc |].
        replace (d - Z.of_nat j - 1) with (d - Z.of_nat (S j)) in Fi, Fw by lia.
        split; [lia |]. split; [lia |].
        split; [rewrite Fn; lia |].
        split; [rewrite Fi; do 2 f_equal; lia |].
        split; [| split; [| split]].
        -- rewrite Fw, List.filter_app, Ht, ticks_snoc, List.filter_app.
           now rewrite <- app_assoc.
        -- unfold count in *. rewrite Fw, List.filter_app, length_app.
           rewrite tick_emissions_not_ended. cbn [length]. lia.
        -- rewrite Fdb. exact Hu.
        -- rewrite Fdb. exact Hto.
    + rewrite (decide_False (P := _ ≤ _)) by lia. subst W1.
      split; [exact Hs |]. world_fields.
      repeat split; try lia; assumption.
  - destruct Hph as (Hn & Hi & Ht & He & Hu & Hto).
    world_fields. rewrite Hi. cbn [map fold_left].
    split; [exact Hs |]. world_fields.
    repeat split; try lia; assumption.
Qed.

Lemma elapse_at_phase (id : string) (h : nat) (d : Z) (w0 : World) (n : nat) :
  ∀ (ph : Phase) (w : World),
    at_phase id h d w0 ph w → ∃ ph', at_phase id h d w0 ph' (elapse n w).
Proof.
  induction n as [| n IH]; intros ph w Hph; cbn [elapse]; [eauto |].
  eapply IH, tick_ms_at_phase, Hph.
Qed.

Lemma run_at_phase (id : string) (h : nat) (d : Z) (w0 : World) (es : list Event) :
  Forall left_alone es →
  ∀ (ph : Phase) (w : World),
    at_phase id h d w0 ph w → ∃ ph', at_phase id h d w0 ph' (run es w).
Proof.
  induction 1 as [| e es He _ IH]; intros ph w Hph; cbn [run fold_left]; [eauto |].
  destruct e as [| | frame rnd | | | n]; try contradiction; cbn [step].
  - eapply IH, at_phase_same; [exact Hph | apply handleVoiceFrame_same].
  - destruct (elapse_at_phase id h d w0 n ph w Hph) as [ph' Hph']. eapply IH, Hph'.
Qed.

Lemma handleStart_at_phase (config : SimulationConfig) (id : string) (w : World) :
  truthy id = true → intervals w = [] →
  at_phase id (nextHandle w) (durationSec config) (handleStart config id w)
    (Running 0 0) (handleStart config id w).
Proof.
  intros Hid Hi. unfold at_phase, handleStart, startCountdown, session_of, firings.
  cbv zeta. world_fields. cbn [client sessionId ticks List.filter].
  rewrite Hi, Hid, app_nil_r. cbn [app].
  repeat split; try lia. do 2 f_equal; lia.
Qed.

(** X19. A session started with a duration of [d] seconds, of any sign, on
    a socket with no other countdown running, whose client sends nothing
    but voice frames.  The interval fires [d] times, and once when [d] is 1
    or less, a duration that is not checked: once that many seconds have
    passed, the ticks broadcast are those of the remaining times from
    [d - 1] down that are multiples of 5 (for a positive [d] the multiples
    of 5 from 0 up to, and not including, [d]; for a [d] of 0 or less the
    negative remaining time [d - 1] alone, if a multiple of 5), each with
    the elapsed time beside the remaining time, the session has been ended
    once, by one record update with the reason TIMEOUT, and the interval is
    cleared; before that nothing has ended it and the interval is
    running. *)
Theorem countdown_of_any_duration (config : SimulationConfig) (id : string)
    (w : World) (es : list Event) :
  truthy id = true → intervals w = [] →
  Forall left_alone es →
  let d := durationSec config in
  let k := Z.of_nat (firings d) in
  let w0 := handleStart config id w in
  let w' := run es w0 in
  (1000 * k ≤ duration es →
     (∀ x, x ∈ List.filter is_tick (wire w')
           ↔ x ∈ List.filter is_tick (wire w0)
             ∨ ∃ q, d - k ≤ q < d ∧ Z.rem q 5 = 0 ∧ x = tick_at id d q)
     ∧ (0 < d →
        Z.of_nat (count is_tick (wire w'))
        = Z.of_nat (count is_tick (wire w0)) + (d + 4) `div` 5)
     ∧ count is_ended (wire w') = S (count is_ended (wire w0))
     ∧ count is_update (prisma w') = S (count is_update (prisma w0))
     ∧ count (is_timeout_update id) (prisma w')
       = S (count (is_timeout_update id) (prisma w0))
     ∧ intervals w' = [])
  ∧ (duration es < 1000 * k →
       count is_ended (wire w') = count is_ended (wire w0)
       ∧ count is_update (prisma w') = count is_update (prisma w0)
       ∧ ∃ t, intervals w' = [t]).
Proof.
  intros Hid Hi Hes d k w0 w'.
  pose proof (handleStart_at_phase config id w Hid Hi) as H0.
  fold w0 d in H0.
  destruct (run_at_phase id (nextHandle w) d w0 es Hes _ w0 H0) as [ph Hph].
  fold w' in Hph.
  pose proof (now_run es w0 Hes) as Hnow. fold w' in Hnow.
  clearbody w0 w'. subst k.
  destruct Hph as (Hs & Hph). destruct ph as [j m |].
  - destruct Hph as (Hj & Hm & Hn & Hiv & _ & He & Hu & _).
    split; [intros Hlong; exfalso; lia | intros _].
    split; [exact He |]. split; [exact Hu | eauto].
  - destruct Hph as (Hn & Hiv & Ht & He & Hu & Hto).
    split; [intros _ | intros Hshort; exfalso; lia].
    split; [| split; [| repeat split; assumption]].
    + intros x. rewrite Ht, elem_of_app, ticks_elem. reflexivity.
    + intros Hd. unfold count. rewrite Ht, length_app, Nat2Z.inj_add.
      rewrite ticks_length by (unfold firings; lia).
      replace (d - Z.of_nat (firings d) + 4) with 4 by (unfold firings; lia).
      change (4 `div` 5) with 0. lia.
Qed.

Lemma countdown_of_any_duration_witness :
  let none := mkConfig GD (-4) 4 "river" HARD in
  let es := [Elapse 400; Frame speech delayed; Elapse 600] in
  let w' := run es (handleStart none "s" ready) in
  (∀ x, x ∈ List.filter is_tick (wire w') ↔ x = tick_at "s" (-4) (-5))
  ∧ count is_ended (wire w') = 1%nat
  ∧ count (is_timeout_update "s") (prisma w') = 1%nat
  ∧ intervals w' = [].
Proof.
  intros none es w'.
  destruct (countdown_of_any_duration none "s" ready es)
    as [H _]; try reflexivity; [repeat constructor |].
  destruct H as (Hx & _ & He & _ & Ht & Hi); [vm_compute; discriminate |].
  fold w' in Hx, He, Ht, Hi.
  split; [| split; [exact He | split; [exact Ht | exact Hi]]].
  intros x. rewrite Hx. split.
  - intros [H | (q & Hq & _ & ->)]; [inversion H |].
    change (Z.of_nat (firings (durationSec none))) with 1 in Hq.
    change (durationSec none) with (-4) in *. f_equal. lia.
  - intros ->. right. exists (-5). repeat split; vm_compute; discriminate.
Defined.

End TickFacts.
